(** * Amazon Connect voicemail-to-email Lambda

    A shallow embedding of [voicemail_to_email_simple_hyperlink.py] and the
    properties of its four core pieces: the capability-URL signer and
    verifier, the time-window recording locator, the transcription
    supervisor and the transcript preview compiler, together with the two
    handlers that wire them.

    Conventions of the embedding
    - A Python [str] is a [string], one [ascii] for each character: the
      character with the number [n] is the code point U+00[n], so the texts
      of the model are the texts over the first 256 code points (ASCII and
      the Latin-1 supplement).  Where Python turns a text into bytes
      ([str.encode], [quote]) the model writes out UTF-8, two bytes for a
      character above 127; a list of bytes is a [string] as well.
      [unquote] alone can leave this range, see [Url.in_range].
    - A Python exception is a value of [exn]; code that may raise returns a
      [result].
    - Every call that leaves the process (object store, transcription
      service, mail service, client construction, [time.sleep]) is appended
      to a call history; the answers of the outside world are functions of
      that history, so they may change from one call to the next.
    - [int(time.time())] is an integer number of seconds since the epoch. *)

From Stdlib Require Import ZArith List String Ascii Bool Lia.
From Stdlib Require Import Sorting.Sorted Sorting.Permutation.
From Stdlib Require DecimalString DecimalZ DecimalPos.
From Equations Require Import Equations.
Import ListNotations.

Local Open Scope Z_scope.
Local Open Scope string_scope.

(* ================================================================== *)
(** * Part I. Python values, exceptions and string primitives         *)
(* ================================================================== *)

(** The exception classes that occur in the source, in botocore or in the
    built-ins it calls.  [KeyError] carries the [repr] of the missing key,
    [ClientError] carries [e.response["Error"]["Code"]] and [str(e)]. *)
Inductive exn : Type :=
| KeyError (key_repr : string)
| IndexError
| TypeError
| AttributeError
| ValueError (msg : string)
| OverflowError
| OSError
| TimeoutError (msg : string)
| RuntimeError (msg : string)
| ClientError (code : option string) (text : string)
| TranscriptionError (msg : string)
| OtherException (text : string).

Inductive result (A : Type) : Type :=
| Ok (a : A)
| Raise (e : exn).
Arguments Ok {A} a.
Arguments Raise {A} e.

(** [e.response.get("Error", {}).get("Code") == code] for a [ClientError];
    [false] for any other exception. *)
Definition has_code (e : exn) (code : string) : bool :=
  match e with
  | ClientError (Some c) _ => String.eqb c code
  | _ => false
  end.

Definition is_client_error (e : exn) : bool :=
  match e with
  | ClientError _ _ => true
  | _ => false
  end.

Definition rbind {A B} (r : result A) (k : A -> result B) : result B :=
  match r with
  | Ok a => k a
  | Raise e => Raise e
  end.

Declare Scope py_scope.
Delimit Scope py_scope with py.
Notation "x <~ c ;; k" := (rbind c (fun x => k))
  (at level 61, c at next level, right associativity) : py_scope.
Notation "' p <~ c ;; k" := (rbind c (fun x => match x with p => k end))
  (at level 61, p pattern, c at next level, right associativity) : py_scope.
Local Open Scope py_scope.

(** [str(e)] for the exceptions whose text the handlers report. *)
Definition exn_str (e : exn) : string :=
  match e with
  | KeyError r => r
  | ValueError m => m
  | TimeoutError m => m
  | RuntimeError m => m
  | ClientError _ t => t
  | TranscriptionError m => m
  | OtherException t => t
  | _ => ""
  end.

Module Str.

Definition is_char (c d : ascii) : bool := Ascii.eqb c d.

(** [s.startswith(p)] *)
Definition startswith (p s : string) : bool := String.prefix p s.

(** [s[n:]] for [n >= 0] *)
Fixpoint drop (n : nat) (s : string) : string :=
  match n, s with
  | O, _ => s
  | S k, EmptyString => EmptyString
  | S k, String _ s' => drop k s'
  end.

(** [s[:n]] for [n >= 0] *)
Fixpoint take (n : nat) (s : string) : string :=
  match n, s with
  | O, _ => EmptyString
  | S k, EmptyString => EmptyString
  | S k, String c s' => String c (take k s')
  end.

(** [s[:limit]]: a negative limit counts from the end. *)
Definition slice_to (limit : Z) (s : string) : string :=
  if (0 <=? limit)%Z then take (Z.to_nat limit) s
  else take (String.length s - Z.to_nat (- limit)) s.

(** [c in s] for a one-character [c] *)
Fixpoint contains (c : ascii) (s : string) : bool :=
  match s with
  | EmptyString => false
  | String d s' => is_char c d || contains c s'
  end.

(** [s.split(c, 1)]: the text before the first [c] and, when [c] occurs,
    the text after it. *)
Fixpoint split1 (c : ascii) (s : string) : string * option string :=
  match s with
  | EmptyString => (EmptyString, None)
  | String d s' =>
      if is_char c d then (EmptyString, Some s')
      else let '(a, b) := split1 c s' in (String d a, b)
  end.

(** [s.split(c)] *)
Fixpoint split (c : ascii) (s : string) : list string :=
  match s with
  | EmptyString => [EmptyString]
  | String d s' =>
      if is_char c d then EmptyString :: split c s'
      else match split c s' with
           | [] => [String d EmptyString]
           | x :: r => String d x :: r
           end
  end.

Fixpoint rev_acc (s acc : string) : string :=
  match s with
  | EmptyString => acc
  | String c s' => rev_acc s' (String c acc)
  end.

Definition rev (s : string) : string := rev_acc s EmptyString.

Fixpoint lstrip_by (p : ascii -> bool) (s : string) : string :=
  match s with
  | EmptyString => EmptyString
  | String c s' => if p c then lstrip_by p s' else s
  end.

Definition rstrip_by (p : ascii -> bool) (s : string) : string :=
  rev (lstrip_by p (rev s)).

Definition strip_by (p : ascii -> bool) (s : string) : string :=
  rstrip_by p (lstrip_by p s).

(** [str.isspace] on one character: TAB, LF, VT, FF, CR, FS, GS, RS, US,
    the space, NEL (U+0085) and the no-break space (U+00A0). *)
Definition isspace (c : ascii) : bool :=
  let n := nat_of_ascii c in
  ((9 <=? n) && (n <=? 13) || (28 <=? n) && (n <=? 32) || (n =? 133) || (n =? 160))%nat.

(** [s.strip()] *)
Definition strip (s : string) : string := strip_by isspace s.

(** [s.strip(c)], [s.rstrip(c)] for a one-character [c] *)
Definition strip_char (c : ascii) (s : string) : string := strip_by (is_char c) s.
Definition rstrip_char (c : ascii) (s : string) : string := rstrip_by (is_char c) s.

(** [s.replace(old, new)] for a non-empty [old]: occurrences are found left
    to right and do not overlap.  [skip] counts the characters of the
    occurrence just replaced that are still to be passed over. *)
Fixpoint replace_from (old new : string) (skip : nat) (s : string) : string :=
  match s with
  | EmptyString => EmptyString
  | String c s' =>
      match skip with
      | S k => replace_from old new k s'
      | O =>
          if String.prefix old s
          then new ++ replace_from old new (String.length old - 1) s'
          else String c (replace_from old new 0 s')
      end
  end.

Definition replace (old new s : string) : string := replace_from old new 0 s.

(** [sep.join(l)] *)
Definition join (sep : string) (l : list string) : string := String.concat sep l.

(** [s.rsplit(c, 1)[-1]]: the text after the last [c], or all of [s]. *)
Fixpoint after_last (c : ascii) (s : string) : string :=
  match s with
  | EmptyString => EmptyString
  | String d s' =>
      if contains c s' then after_last c s'
      else if is_char c d then s' else s
  end.

(** [s.lower()]: the capital letters are [A] to [Z] and U+00C0 to U+00DE
    without the multiplication sign U+00D7; each has its small letter 32
    places further on. *)
Definition lower_char (c : ascii) : ascii :=
  let n := nat_of_ascii c in
  if ((65 <=? n) && (n <=? 90) || (192 <=? n) && (n <=? 222) && negb (n =? 215))%nat
  then ascii_of_nat (n + 32) else c.

Fixpoint lower (s : string) : string :=
  match s with
  | EmptyString => EmptyString
  | String c s' => String (lower_char c) (lower s')
  end.

(** Every character satisfies [p]. *)
Fixpoint all_chars (p : ascii -> bool) (s : string) : bool :=
  match s with
  | EmptyString => true
  | String c s' => p c && all_chars p s'
  end.

(** One of [0123456789abcdef] *)
Definition is_lower_hex (c : ascii) : bool :=
  let n := nat_of_ascii c in
  ((48 <=? n) && (n <=? 57) || (97 <=? n) && (n <=? 102))%nat.

(** Every character is ASCII (below 128). *)
Fixpoint isascii (s : string) : bool :=
  match s with
  | EmptyString => true
  | String c s' => (nat_of_ascii c <? 128)%nat && isascii s'
  end.

(** [s.encode()]: the UTF-8 bytes of [s]. *)
Fixpoint encode (s : string) : string :=
  match s with
  | EmptyString => EmptyString
  | String c s' =>
      let n := nat_of_ascii c in
      if (n <? 128)%nat then String c (encode s')
      else String (ascii_of_nat (192 + n / 64))
             (String (ascii_of_nat (128 + n mod 64)) (encode s'))
  end.

(** The decimal numeral of an integer *)
Definition of_Z (n : Z) : string := DecimalString.NilZero.string_of_int (Z.to_int n).

Definition of_nat (n : nat) : string := of_Z (Z.of_nat n).

Definition digit_value (c : ascii) : option Z :=
  let n := nat_of_ascii c in
  if ((48 <=? n) && (n <=? 57))%nat then Some (Z.of_nat n - 48) else None.

(** The digits of an integer literal: a single underscore may separate two
    digits.  [prev] tells whether the previous character was a digit. *)
Fixpoint parse_digits (prev : bool) (acc : Z) (s : string) : option Z :=
  match s with
  | EmptyString => if prev then Some acc else None
  | String c s' =>
      match digit_value c with
      | Some d => parse_digits true (10 * acc + d) s'
      | None =>
          if is_char c "_" && prev then parse_digits false acc s' else None
      end
  end.

Definition hex_lower (n : nat) : ascii :=
  if (n <? 10)%nat then ascii_of_nat (48 + n) else ascii_of_nat (87 + n).

(** [str.isprintable] on one character: not a control character, not the
    no-break space and not the soft hyphen; the space is printable. *)
Definition isprintable (c : ascii) : bool :=
  let n := nat_of_ascii c in
  ((32 <=? n) && (n <=? 126) || (161 <=? n) && negb (n =? 173))%nat.

Definition backslash : ascii := ascii_of_nat 92.
Definition squote : ascii := ascii_of_nat 39.
Definition dquote : ascii := ascii_of_nat 34.

(** One character inside [repr(s)], [q] being the quote around it. *)
Definition repr_char (q c : ascii) : string :=
  let n := nat_of_ascii c in
  if is_char c backslash || is_char c q then String backslash (String c EmptyString)
  else if (n =? 9)%nat then String backslash "t"
  else if (n =? 10)%nat then String backslash "n"
  else if (n =? 13)%nat then String backslash "r"
  else if isprintable c then String c EmptyString
  else String backslash
         (String "x" (String (hex_lower (n / 16)) (String (hex_lower (n mod 16)) EmptyString))).

Fixpoint repr_chars (q : ascii) (s : string) : string :=
  match s with
  | EmptyString => EmptyString
  | String c s' => repr_char q c ++ repr_chars q s'
  end.

(** [repr(s)]: between single quotes, or between double quotes when [s]
    has a single quote and no double quote. *)
Definition repr (s : string) : string :=
  let q := if contains squote s && negb (contains dquote s) then dquote else squote in
  String q (repr_chars q s ++ String q EmptyString).

(** The white space of C's [isspace], which [int] passes over at both
    ends of the text: TAB, LF, VT, FF, CR and the space. *)
Definition is_c_space (c : ascii) : bool :=
  let n := nat_of_ascii c in
  ((9 <=? n) && (n <=? 13) || (n =? 32))%nat.

(** [int] reads a [str] through its ASCII form, in which the white space
    above ASCII, NEL and the no-break space, is a space.  No character of
    the range above ASCII is a decimal digit. *)
Definition int_char (c : ascii) : ascii :=
  let n := nat_of_ascii c in
  if ((n =? 133) || (n =? 160))%nat then " "%char else c.

Fixpoint int_form (s : string) : string :=
  match s with
  | EmptyString => EmptyString
  | String c s' => String (int_char c) (int_form s')
  end.

Definition is_numeral_char (c : ascii) : bool :=
  match digit_value c with
  | Some _ => true
  | None => is_char c "_"
  end.

(** The longest front part of digits and underscores, and what follows. *)
Fixpoint span_numeral (s : string) : string * string :=
  match s with
  | EmptyString => (EmptyString, EmptyString)
  | String c s' =>
      if is_numeral_char c
      then let '(a, b) := span_numeral s' in (String c a, b)
      else (EmptyString, s)
  end.

Fixpoint count_digits (s : string) : nat :=
  match s with
  | EmptyString => O
  | String c s' =>
      match digit_value c with
      | Some _ => S (count_digits s')
      | None => count_digits s'
      end
  end.

(** [sys.int_info.default_max_str_digits] *)
Definition max_str_digits : nat := 4300.

Definition exceeds_the_limit : string :=
  "Exceeds the limit (4300 digits) for integer string conversion".

Definition raise_the_limit : string :=
  "use sys.set_int_max_str_digits() to increase the limit".

(** The integers Python writes and reads in decimal: those of at most 4300
    digits. *)
Definition fits (n : Z) : bool := (count_digits (of_Z n) <=? max_str_digits)%nat.

(** [str(n)] and [f"{n}"] for an [int]: an integer that does not fit is
    refused. *)
Definition of_int (n : Z) : result string :=
  if fits n then Ok (of_Z n)
  else Raise (ValueError (exceeds_the_limit ++ "; " ++ raise_the_limit)).

(** [int(s)] for a [str].  White space is passed over, then an optional
    sign; the digits and underscores that follow are read as far as they
    go.  A numeral that is empty or has an underscore out of place is
    refused; so is, next, one of more than 4300 digits; and last, anything
    but white space after the numeral.  The text of the first error shows
    at most 200 characters of [repr(s)]. *)
Definition to_int (s : string) : result Z :=
  let bad :=
    Raise (ValueError ("invalid literal for int() with base 10: " ++ take 200 (repr s))) in
  let t := lstrip_by is_c_space (int_form s) in
  let '(negative, u) :=
    match t with
    | String c u' =>
        if is_char c "-" then (true, u')
        else if is_char c "+" then (false, u')
        else (false, t)
    | EmptyString => (false, t)
    end in
  let '(numeral, rest) := span_numeral u in
  match parse_digits false 0 numeral with
  | None => bad
  | Some n =>
      if (max_str_digits <? count_digits numeral)%nat then
        Raise (ValueError
                 (exceeds_the_limit ++ ": value has " ++ of_nat (count_digits numeral)
                  ++ " digits; " ++ raise_the_limit))
      else if all_chars is_c_space rest then Ok (if negative then - n else n)
      else bad
  end.

End Str.

Example to_int_plain : Str.to_int "1700000000" = Ok 1700000000.
Proof. reflexivity. Qed.

Example to_int_negative : Str.to_int " -5 " = Ok (-5).
Proof. reflexivity. Qed.

Example to_int_underscore : Str.to_int "1_000" = Ok 1000 /\ exists e, Str.to_int "1__0" = Raise e.
Proof. split; [reflexivity | eexists; reflexivity]. Qed.

Example replace_once : Str.replace " ," "," "a  , b ,c" = "a , b,c".
Proof. reflexivity. Qed.

Example strip_both : Str.strip "  hi there " = "hi there".
Proof. reflexivity. Qed.

Example of_Z_examples : Str.of_Z 0 = "0" /\ Str.of_Z (-42) = "-42" /\ Str.of_Z 1700000000 = "1700000000".
Proof. repeat split; reflexivity. Qed.

Example split_examples :
  Str.split ":" "arn:aws:connect:us-east-1:1:instance/x"
  = ["arn"; "aws"; "connect"; "us-east-1"; "1"; "instance/x"]
  /\ Str.split1 "/" "bucket/a/b" = ("bucket", Some "a/b").
Proof. split; reflexivity. Qed.

(* ------------------------------------------------------------------ *)
(** ** [urllib.parse.quote(s, safe='')] and [urllib.parse.unquote]    *)
(* ------------------------------------------------------------------ *)

Module Url.

(** The characters [quote] never escapes: letters, digits and [_.-~]. *)
Definition unreserved (c : ascii) : bool :=
  let n := nat_of_ascii c in
  ((65 <=? n) && (n <=? 90) || (97 <=? n) && (n <=? 122) || (48 <=? n) && (n <=? 57)
   || (n =? 95) || (n =? 46) || (n =? 45) || (n =? 126))%nat.

Definition hex_upper (n : nat) : ascii :=
  if (n <? 10)%nat then ascii_of_nat (48 + n) else ascii_of_nat (55 + n).

Definition hex_value (c : ascii) : option nat :=
  let n := nat_of_ascii c in
  if ((48 <=? n) && (n <=? 57))%nat then Some (n - 48)%nat
  else if ((65 <=? n) && (n <=? 70))%nat then Some (n - 55)%nat
  else if ((97 <=? n) && (n <=? 102))%nat then Some (n - 87)%nat
  else None.

(** The bytes of a quoted text: everything but the unreserved characters
    becomes [%XX] with upper-case hexadecimal digits; [/] is escaped too. *)
Fixpoint quote_bytes (s : string) : string :=
  match s with
  | EmptyString => EmptyString
  | String c s' =>
      if unreserved c then String c (quote_bytes s')
      else let n := nat_of_ascii c in
           String "%" (String (hex_upper (n / 16)) (String (hex_upper (n mod 16)) (quote_bytes s')))
  end.

(** [quote(s, safe='')] quotes the UTF-8 bytes of [s]. *)
Definition quote (s : string) : string := quote_bytes (Str.encode s).

(** What [unquote] reads in a text: a byte, which is an ASCII character of
    the text or what a [%] followed by two hexadecimal digits stands for,
    or a character above ASCII, which it leaves alone. *)
Inductive piece : Type :=
| Byte (b : ascii)
| Char (c : ascii).

Fixpoint pieces (s : string) : list piece :=
  match s with
  | EmptyString => []
  | String c s' =>
      if (128 <=? nat_of_ascii c)%nat then Char c :: pieces s'
      else if Str.is_char c "%" then
        match s' with
        | String h (String l r) =>
            match hex_value h, hex_value l with
            | Some a, Some b => Byte (ascii_of_nat (16 * a + b)) :: pieces r
            | _, _ => Byte c :: pieces s'
            end
        | _ => Byte c :: pieces s'
        end
      else Byte c :: pieces s'
  end.

(** A continuation byte of UTF-8 *)
Definition is_continuation (b : ascii) : bool :=
  let n := nat_of_ascii b in ((128 <=? n) && (n <? 192))%nat.

(** The first byte of a character from U+0080 to U+00FF *)
Definition is_lead_2 (b : ascii) : bool :=
  let n := nat_of_ascii b in ((n =? 194) || (n =? 195))%nat.

(** The stand-in for a character the model has no room for. *)
Definition beyond : ascii := "?"%char.

(** The bytes between two characters above ASCII are read as UTF-8.  Two
    bytes that stand for a character up to U+00FF give that character.
    Python reads every other sequence as well, as a character from U+0100
    on or, [errors='replace'], as U+FFFD where it is no UTF-8; the model
    has [beyond] in their place, one for each byte. *)
Fixpoint decode (l : list piece) : string :=
  match l with
  | [] => EmptyString
  | Char c :: r => String c (decode r)
  | Byte b :: r =>
      if (nat_of_ascii b <? 128)%nat then String b (decode r)
      else
        match r with
        | Byte b' :: r' =>
            if is_lead_2 b && is_continuation b'
            then String (ascii_of_nat ((nat_of_ascii b - 192) * 64 + (nat_of_ascii b' - 128)))
                   (decode r')
            else String beyond (decode r)
        | _ => String beyond (decode r)
        end
  end.

(** The decoded text stays within the characters of the model: every byte
    above 127 belongs to a two-byte character up to U+00FF. *)
Fixpoint decodes_in_range (l : list piece) : bool :=
  match l with
  | [] => true
  | Char _ :: r => decodes_in_range r
  | Byte b :: r =>
      if (nat_of_ascii b <? 128)%nat then decodes_in_range r
      else
        match r with
        | Byte b' :: r' => is_lead_2 b && is_continuation b' && decodes_in_range r'
        | _ => false
        end
  end.

(** [unquote(s)]: a [%] followed by two hexadecimal digits is decoded, any
    other character is kept, and the bytes are read as UTF-8.  It is
    Python's [unquote] on the texts that are [in_range]. *)
Definition unquote (s : string) : string := decode (pieces s).

Definition in_range (s : string) : bool := decodes_in_range (pieces s).

End Url.

Example quote_key :
  Url.quote "rec/ivr/2024/01/05/abc_20240105T10:07_UTC.wav"
  = "rec%2Fivr%2F2024%2F01%2F05%2Fabc_20240105T10%3A07_UTC.wav".
Proof. reflexivity. Qed.

Example unquote_key : Url.unquote "a%2fb%2Fc%zz%4" = "a/b/c%zz%4".
Proof. reflexivity. Qed.

(* ------------------------------------------------------------------ *)
(** ** [datetime]                                                     *)
(* ------------------------------------------------------------------ *)

(** A naive [datetime] is kept as its number of seconds since
    1970-01-01T00:00:00 in the proleptic Gregorian calendar; the local time
    zone of the process is UTC, as it is in the Lambda runtime. *)
Module Datetime.

Definition MINYEAR : Z := 1.
Definition MAXYEAR : Z := 9999.

(** Year, month and day of a day number counted from 1970-01-01. *)
Definition civil_from_days (z : Z) : Z * Z * Z :=
  let z := z + 719468 in
  let era := z / 146097 in
  let doe := z - era * 146097 in
  let yoe := (doe - doe / 1460 + doe / 36524 - doe / 146096) / 365 in
  let y := yoe + era * 400 in
  let doy := doe - (365 * yoe + yoe / 4 - yoe / 100) in
  let mp := (5 * doy + 2) / 153 in
  let d := doy - (153 * mp + 2) / 5 + 1 in
  let m := if (mp <? 10)%Z then mp + 3 else mp - 9 in
  (if (m <=? 2)%Z then y + 1 else y, m, d).

Definition year (t : Z) : Z := let '(y, _, _) := civil_from_days (t / 86400) in y.
Definition month (t : Z) : Z := let '(_, m, _) := civil_from_days (t / 86400) in m.
Definition day (t : Z) : Z := let '(_, _, d) := civil_from_days (t / 86400) in d.
Definition hour (t : Z) : Z := (t mod 86400) / 3600.
Definition minute (t : Z) : Z := (t mod 3600) / 60.
Definition second (t : Z) : Z := t mod 60.

(** The first and the last second a [datetime] can hold. *)
Definition min_timestamp : Z := -62135596800.
Definition max_timestamp : Z := 253402300799.

Definition representable (t : Z) : bool :=
  (min_timestamp <=? t)%Z && (t <=? max_timestamp)%Z.

(** [(int)y] for a C [int] of 32 bits *)
Definition c_int (y : Z) : Z := (y + 2 ^ 31) mod 2 ^ 32 - 2 ^ 31.

(** The seconds that [fromtimestamp] looks back to find out whether the
    local time is repeated *)
Definition max_fold_seconds : Z := 86400.

(** The times [fromtimestamp] accepts: the day before has to be a date
    too, so the first day of the year 1 is left out. *)
Definition shown (t : Z) : bool :=
  (min_timestamp + max_fold_seconds <=? t)%Z && (t <=? max_timestamp)%Z.

(** [datetime.fromtimestamp(t)] on a 64-bit Linux.  Outside the times it
    accepts it raises [OverflowError] when [t] is no [time_t], [OSError]
    when [localtime] cannot hold the year in its C [int], and [ValueError]
    when the year of [t], or else the year of the day before, is not
    between [MINYEAR] and [MAXYEAR]. *)
Definition fromtimestamp (t : Z) : result Z :=
  if shown t then Ok t
  else if negb ((- 2 ^ 63 <=? t)%Z && (t <? 2 ^ 63)%Z) then Raise OverflowError
  else if negb ((- 2 ^ 31 <=? year t - 1900)%Z && (year t - 1900 <? 2 ^ 31)%Z) then Raise OSError
  else if negb ((MINYEAR <=? c_int (year t))%Z && (c_int (year t) <=? MAXYEAR)%Z)
  then Raise (ValueError ("year " ++ Str.of_Z (c_int (year t)) ++ " is out of range"))
  else Raise (ValueError ("year " ++ Str.of_Z (year (t - max_fold_seconds))
                          ++ " is out of range")).

(** [datetime.utcfromtimestamp(t)], which does not look back a day: every
    time of the years 1 to 9999 is accepted. *)
Definition utcfromtimestamp (t : Z) : result Z :=
  if representable t then Ok t
  else if negb ((- 2 ^ 63 <=? t)%Z && (t <? 2 ^ 63)%Z) then Raise OverflowError
  else if negb ((- 2 ^ 31 <=? year t - 1900)%Z && (year t - 1900 <? 2 ^ 31)%Z) then Raise OSError
  else Raise (ValueError ("year " ++ Str.of_Z (c_int (year t)) ++ " is out of range")).

(** [dt + timedelta(minutes=m)] *)
Definition add_minutes (dt m : Z) : result Z :=
  let t := dt + 60 * m in
  if representable t then Ok t else Raise OverflowError.

Definition digit (d : Z) : ascii := ascii_of_nat (48 + Z.to_nat d).

Definition two (n : Z) : string :=
  String (digit (n / 10 mod 10)) (String (digit (n mod 10)) EmptyString).

(** [%Y] of the C library: the year in decimal, as many digits as it
    has, so a year before 1000 has fewer than four. *)
Definition year_text (t : Z) : string := Str.of_Z (year t).

(** [dt.strftime("%Y/%m/%d")] *)
Definition strftime_day (t : Z) : string :=
  year_text t ++ "/" ++ two (month t) ++ "/" ++ two (day t).

(** [dt.strftime("%Y%m%dT%H:%M")] *)
Definition strftime_minute (t : Z) : string :=
  year_text t ++ two (month t) ++ two (day t) ++ "T" ++ two (hour t) ++ ":" ++ two (minute t).

(** [dt.strftime('%Y-%m-%d %H:%M:%S UTC')] *)
Definition strftime_utc (t : Z) : string :=
  year_text t ++ "-" ++ two (month t) ++ "-" ++ two (day t) ++ " "
  ++ two (hour t) ++ ":" ++ two (minute t) ++ ":" ++ two (second t) ++ " UTC".

End Datetime.

Example strftime_epoch : Datetime.strftime_utc 0 = "1970-01-01 00:00:00 UTC".
Proof. reflexivity. Qed.

Example strftime_leap_day :
  Datetime.strftime_minute 1709251199 = "20240229T23:59"
  /\ Datetime.strftime_day 1709251200 = "2024/03/01"
  /\ Datetime.strftime_utc (-5) = "1969-12-31 23:59:55 UTC".
Proof. repeat split; reflexivity. Qed.

Example datetime_bounds :
  Datetime.strftime_utc Datetime.min_timestamp = "1-01-01 00:00:00 UTC"
  /\ Datetime.strftime_utc (-30610224001) = "999-12-31 23:59:59 UTC"
  /\ Datetime.strftime_utc Datetime.max_timestamp = "9999-12-31 23:59:59 UTC".
Proof. repeat split; reflexivity. Qed.

(* ------------------------------------------------------------------ *)
(** ** Python values as [json.loads] produces them                    *)
(* ------------------------------------------------------------------ *)

(** Binary floating point is kept abstract: the development only needs the
    literal [0.0], the conversions [float(str)] and [float(int)], the truth
    value of a float and its addition. *)
Class PyFloat : Type := {
  float : Type;
  float_zero : float;
  float_of_str : string -> option float;
  float_of_int : Z -> option float;
  float_truth : float -> bool;
  float_add : float -> float -> float
}.

(** The values are parameterised by the type of the floats only. *)
#[warnings="-register-all"]
Inductive pyval_of (F : Type) : Type :=
| PNone
| PBool (b : bool)
| PInt (n : Z)
| PFloat (x : F)
| PStr (s : string)
| PList (l : list (pyval_of F))
| PDict (d : list (string * pyval_of F)).
Arguments PNone {F}.
Arguments PBool {F} b.
Arguments PInt {F} n.
Arguments PFloat {F} x.
Arguments PStr {F} s.
Arguments PList {F} l.
Arguments PDict {F} d.

Abbreviation pyval := (pyval_of float).

Section Values.
Context {FL : PyFloat}.

(** [bool(v)] *)
Definition truthy (v : pyval) : bool :=
  match v with
  | PNone => false
  | PBool b => b
  | PInt n => negb (n =? 0)%Z
  | PFloat x => float_truth x
  | PStr s => negb (s =? "")%string
  | PList l => match l with [] => false | _ => true end
  | PDict d => match d with [] => false | _ => true end
  end.

Fixpoint dict_lookup (k : string) (d : list (string * pyval)) : option pyval :=
  match d with
  | [] => None
  | (k', v) :: d' => if (k =? k')%string then Some v else dict_lookup k d'
  end.

(** [v.get(k, default)]: only a [dict] has [get]. *)
Definition py_get (v : pyval) (k : string) (default : pyval) : result pyval :=
  match v with
  | PDict d => match dict_lookup k d with
               | Some x => Ok x
               | None => Ok default
               end
  | _ => Raise AttributeError
  end.

(** [v[k]] for a string [k] *)
Definition py_getitem (v : pyval) (k : string) : result pyval :=
  match v with
  | PDict d => match dict_lookup k d with
               | Some x => Ok x
               | None => Raise (KeyError (Str.repr k))
               end
  | _ => Raise TypeError
  end.

(** [v[0]] *)
Definition py_getitem0 (v : pyval) : result pyval :=
  match v with
  | PList (x :: _) => Ok x
  | PList [] => Raise IndexError
  | PStr (String c _) => Ok (PStr (String c EmptyString))
  | PStr EmptyString => Raise IndexError
  | PDict _ => Raise (KeyError "0")
  | _ => Raise TypeError
  end.

Fixpoint chars (s : string) : list pyval :=
  match s with
  | EmptyString => []
  | String c s' => PStr (String c EmptyString) :: chars s'
  end.

(** The elements [for x in v] visits: those of a list, the characters of a
    string, the keys of a dict. *)
Definition py_iter (v : pyval) : result (list pyval) :=
  match v with
  | PList l => Ok l
  | PStr s => Ok (chars s)
  | PDict d => Ok (map (fun kv => PStr (fst kv)) d)
  | _ => Raise TypeError
  end.

(** [reversed(v)] *)
Definition py_reversed (v : pyval) : result (list pyval) :=
  l <~ py_iter v ;; Ok (rev l).

(** [v == s] for a string literal [s] *)
Definition py_eq_str (v : pyval) (s : string) : bool :=
  match v with
  | PStr t => (t =? s)%string
  | _ => false
  end.

Definition as_number (v : pyval) : option (Z + float) :=
  match v with
  | PBool b => Some (inl (if b then 1 else 0))
  | PInt n => Some (inl n)
  | PFloat x => Some (inr x)
  | _ => None
  end.

Definition to_float (n : Z + float) : result float :=
  match n with
  | inl z => match float_of_int z with
             | Some x => Ok x
             | None => Raise OverflowError
             end
  | inr x => Ok x
  end.

(** [a += b], as far as the two previews can reach it: strings are
    concatenated, numbers added, a list is extended by an iterable. *)
Definition py_iadd (a b : pyval) : result pyval :=
  match a, b with
  | PStr s, PStr t => Ok (PStr (s ++ t))
  | PList l, _ =>
      match py_iter b with
      | Ok m => Ok (PList (l ++ m)%list)
      | Raise _ => Raise TypeError
      end
  | _, _ =>
      match as_number a, as_number b with
      | Some (inl x), Some (inl y) => Ok (PInt (x + y))
      | Some x, Some y =>
          fx <~ to_float x ;; fy <~ to_float y ;; Ok (PFloat (float_add fx fy))
      | _, _ => Raise TypeError
      end
  end.

(** [float(v)] *)
Definition py_float (v : pyval) : result float :=
  match v with
  | PStr s => match float_of_str s with
              | Some x => Ok x
              | None => Raise (ValueError ("could not convert string to float: " ++ Str.repr s))
              end
  | _ => match as_number v with
         | Some n => to_float n
         | None => Raise TypeError
         end
  end.

(** The argument of [" ".join]: every element has to be a [str]. *)
Fixpoint as_strs (l : list pyval) : result (list string) :=
  match l with
  | [] => Ok []
  | PStr s :: r => ss <~ as_strs r ;; Ok (s :: ss)
  | _ :: _ => Raise TypeError
  end.

(** A loop [for x in l: acc = step acc x] that stops at the first
    exception. *)
Fixpoint for_each {A B} (step : A -> B -> result A) (acc : A) (l : list B) : result A :=
  match l with
  | [] => Ok acc
  | x :: r => acc' <~ step acc x ;; for_each step acc' r
  end.

(* ================================================================== *)
(** * Part II. Transcript preview and duration                        *)
(* ================================================================== *)

(** The body of the inner loop of [_build_preview_channel]: one item of a
    channel, [words] being the list built so far. *)
Definition channel_item (words : list pyval) (item : pyval) : result (list pyval) :=
  item_type <~ py_get item "type" PNone ;;
  alternatives <~ py_getitem item "alternatives" ;;
  first <~ py_getitem0 alternatives ;;
  content <~ py_get first "content" (PStr "") ;;
  if py_eq_str item_type "pronunciation" then Ok (words ++ [content])%list
  else if py_eq_str item_type "punctuation" && truthy (PList words) then
    w <~ py_iadd (last words PNone) content ;;
    Ok (removelast words ++ [w])%list
  else if py_eq_str item_type "punctuation" then Ok (words ++ [content])%list
  else Ok words.

(** [" ".join(words).replace(" ,", ",").replace(" .", ".").strip()] *)
Definition normalize (words : list string) : string :=
  Str.strip (Str.replace " ." "." (Str.replace " ," "," (Str.join " " words))).

(** The body of the outer loop of [_build_preview_channel]. *)
Definition channel_text (all_words : list string) (channel : pyval) : result (list string) :=
  items_v <~ py_get channel "items" (PList []) ;;
  items <~ py_iter items_v ;;
  words <~ for_each channel_item [] items ;;
  strs <~ as_strs words ;;
  let text := normalize strs in
  if negb (text =? "")%string then Ok (all_words ++ [text])%list else Ok all_words.

Definition _build_preview_channel (results : pyval) (limit : Z) : result string :=
  labels <~ py_get results "channel_labels" (PDict []) ;;
  channels_v <~ py_get labels "channels" (PList []) ;;
  channels <~ py_iter channels_v ;;
  all_words <~ for_each channel_text [] channels ;;
  Ok (Str.slice_to limit (Str.strip (Str.join " " all_words))).

(** Three pure functions of the source are left open, as fields of a class;
    every statement below holds whatever they compute.
    [_build_preview_diarization] is reached only in diarization mode, and
    the handler always asks for [DEFAULT_MODE = "channel"];
    [create_html_email] and [create_text_email] are the two templates of
    the notification (caller number, preview, link, recipient name and
    duration). *)
Class Templates : Type := {
  _build_preview_diarization : pyval -> Z -> result string;
  create_html_email : string -> string -> string -> option string -> float -> result string;
  create_text_email : string -> string -> string -> option string -> float -> result string
}.
Context {TP : Templates}.

(** [transcript[:limit].strip()]: a list can be sliced but has no [strip]. *)
Definition slice_strip (transcript : pyval) (limit : Z) : result string :=
  match transcript with
  | PStr s => Ok (Str.strip (Str.slice_to limit s))
  | PList _ => Raise AttributeError
  | _ => Raise TypeError
  end.

Definition build_transcription_preview (results : pyval) (mode : string) (limit : Z)
  : result string :=
  labels <~ (if (mode =? "channel")%string then py_get results "channel_labels" PNone
             else Ok PNone) ;;
  if (mode =? "channel")%string && truthy labels then _build_preview_channel results limit
  else
    speakers <~ (if (mode =? "diarization")%string then py_get results "speaker_labels" PNone
                 else Ok PNone) ;;
    if (mode =? "diarization")%string && truthy speakers
    then _build_preview_diarization results limit
    else
      transcripts <~ py_get results "transcripts" (PList [PDict []]) ;;
      first <~ py_getitem0 transcripts ;;
      transcript <~ py_get first "transcript" (PStr "") ;;
      slice_strip transcript limit.

(** The loop of [get_actual_recording_duration] over [reversed(items)]. *)
Fixpoint last_end_time (items : list pyval) : result float :=
  match items with
  | [] => Ok float_zero
  | item :: rest =>
      end_time <~ py_get item "end_time" PNone ;;
      if truthy end_time then py_float end_time else last_end_time rest
  end.

(** The [try] block of [get_actual_recording_duration]. *)
Definition duration_of_items (results : pyval) : result float :=
  items <~ py_get results "items" (PList []) ;;
  if negb (truthy items) then Ok float_zero
  else
    backwards <~ py_reversed items ;;
    last_end_time backwards.

(** [except Exception] turns every failure of the block into [0.0]. *)
Definition get_actual_recording_duration (results : pyval) : float :=
  match duration_of_items results with
  | Ok d => d
  | Raise _ => float_zero
  end.

End Values.

(* ================================================================== *)
(** * Part III. The outside world and the effect monad                *)
(* ================================================================== *)

(** [hmac.new(key.encode(), msg.encode(), hashlib.sha256).hexdigest()]: a
    keyed hash whose value is written as 64 lower-case hexadecimal
    digits.  [Sha256] below is the instance the source uses. *)
Class Hmac : Type := {
  hmac_sha256_hexdigest : string -> string -> string;
  hexdigest_length :
    forall key msg, String.length (hmac_sha256_hexdigest key msg) = 64%nat;
  hexdigest_lower_hex :
    forall key msg, Str.all_chars Str.is_lower_hex (hmac_sha256_hexdigest key msg) = true
}.

(** The [Settings] of a transcription request: channel identification, or
    speaker labels with a maximum number of speakers. *)
Inductive TranscribeSettings : Type :=
| ChannelIdentification
| ShowSpeakerLabels (MaxSpeakerLabels : Z).

Record TranscribeRequest : Type := {
  TranscriptionJobName : string;
  MediaFileUri : string;
  LanguageCode : string;
  MediaFormat : option string;
  Settings : TranscribeSettings
}.

Record Email : Type := {
  FromEmailAddress : string;
  ToAddress : string;
  Subject : string;
  HtmlBody : string;
  TextBody : string
}.

(** What the process does to the outside world, in the order it does it. *)
Inductive Call : Type :=
| Sleep (milliseconds : Z)
| NewClient (service : string) (region : option string)
| SessionRegion
| HeadObject (bucket key : string)
| GeneratePresignedUrl (bucket key : string) (expires_in : Z)
| StartTranscriptionJob (request : TranscribeRequest)
| GetTranscriptionJob (job_name : string)
| GetObject (bucket key : string)
| UrlOpen (uri : string)
| SendEmail (email : Email).

Definition history : Type := list Call.

Section Effects.
Context {FL : PyFloat}.

(** The answers of the outside world.  Each answer may depend on everything
    the process has done before.  [clock] is [int(time.time())], the
    integer part of a float and so a number of at most 309 digits, which
    [str] writes; [new_client] answers with the region of the client it builds;
    [get_object_json] and [urlopen_json] answer with the parsed body. *)
Record World : Type := {
  environ : string -> option string;
  clock : history -> Z;
  new_client : history -> string -> option string -> result (option string);
  session_region : history -> result (option string);
  head_object : history -> string -> string -> result unit;
  generate_presigned_url : history -> string -> string -> Z -> result string;
  start_transcription_job_api : history -> TranscribeRequest -> result unit;
  get_transcription_job : history -> string -> result pyval;
  get_object_json : history -> string -> string -> result pyval;
  urlopen_json : history -> string -> result pyval;
  send_email : history -> Email -> result pyval
}.

(** A computation reads and extends the call history and ends in a value or
    an exception; the history survives an exception. *)
Definition M (A : Type) : Type := history -> result A * history.

Definition ret {A} (a : A) : M A := fun h => (Ok a, h).

Definition raise {A} (e : exn) : M A := fun h => (Raise e, h).

Definition lift {A} (r : result A) : M A := fun h => (r, h).

Definition bind {A B} (m : M A) (k : A -> M B) : M B :=
  fun h => match m h with
           | (Ok a, h') => k a h'
           | (Raise e, h') => (Raise e, h')
           end.

(** [call c answer]: the world answers from the history so far, and the
    call is recorded. *)
Definition call {A} (c : Call) (answer : history -> result A) : M A :=
  fun h => (answer h, (h ++ [c])%list).

(** [try: m  except <those e with handler e = Some _>: ...] *)
Definition try_except {A} (m : M A) (handler : exn -> option (M A)) : M A :=
  fun h => match m h with
           | (Ok a, h') => (Ok a, h')
           | (Raise e, h') => match handler e with
                              | Some k => k h'
                              | None => (Raise e, h')
                              end
           end.

End Effects.

Notation "x <- c ;; k" := (bind c (fun x => k))
  (at level 61, c at next level, right associativity) : py_scope.
Notation "' p <- c ;; k" := (bind c (fun x => match x with p => k end))
  (at level 61, p pattern, c at next level, right associativity) : py_scope.
Notation "c ;;; k" := (bind c (fun _ => k))
  (at level 61, right associativity) : py_scope.

(** The two kinds of value the handlers return: the HTTP-shaped answer of
    the Function URL and the outcome of the processing of a recording. *)
Record OutcomeData_of (F : Type) : Type := {
  data_timestamp : string;
  data_s3_uri : string;
  data_duration : F;
  data_message_id : pyval_of F
}.
Arguments data_timestamp {F} o.
Arguments data_s3_uri {F} o.
Arguments data_duration {F} o.
Arguments data_message_id {F} o.

Inductive Response_of (F : Type) : Type :=
| Http (statusCode : Z) (headers : list (string * string)) (body : option string)
| Outcome (statusCode : Z) (message : string) (data : option (OutcomeData_of F)).
Arguments Http {F} statusCode headers body.
Arguments Outcome {F} statusCode message data.

Abbreviation OutcomeData := (OutcomeData_of float).
Abbreviation Response := (Response_of float).

Definition status_of {FL : PyFloat} (r : Response) : Z :=
  match r with
  | Http c _ _ => c
  | Outcome c _ _ => c
  end.

(* ================================================================== *)
(** * Part IV. URL signing and the Function URL handler               *)
(* ================================================================== *)

Section Signing.
Context {FL : PyFloat} {HM : Hmac}.
Variable w : World.

Definition now : M Z := fun h => (Ok (clock w h), h).

(** [os.environ.get(name, default)] *)
Definition getenv (name default : string) : string :=
  match environ w name with
  | Some v => v
  | None => default
  end.

Definition generate_signed_url
  (redirect_api_url bucket key secret_key : string) (validity_hours : Z) : M string :=
  t <- now ;;
  let expires := t + validity_hours * 3600 in
  expires_text <- lift (Str.of_int expires) ;;
  let message := bucket ++ ":" ++ key ++ ":" ++ expires_text in
  let signature := hmac_sha256_hexdigest secret_key message in
  let encoded_key := Url.quote key in
  ret (redirect_api_url ++ "/voicemail/" ++ bucket ++ "/" ++ encoded_key
       ++ "?expires=" ++ expires_text ++ "&signature=" ++ signature).

(** [hmac.compare_digest] on two [str]: both have to be ASCII. *)
Definition compare_digest (a b : string) : result bool :=
  if Str.isascii a && Str.isascii b then Ok (a =? b)%string else Raise TypeError.

Definition verify_signature (bucket key expires signature secret_key : string) : result bool :=
  let message := bucket ++ ":" ++ key ++ ":" ++ expires in
  let expected_signature := hmac_sha256_hexdigest secret_key message in
  compare_digest signature expected_signature.

(** The event of a Function URL request, as far as the handler reads it. *)
Record UrlEvent : Type := {
  rawPath : option string;
  queryStringParameters : option (list (string * string))
}.

Fixpoint query_get (k : string) (q : list (string * string)) : option string :=
  match q with
  | [] => None
  | (k', v) :: q' => if (k =? k')%string then Some v else query_get k q'
  end.

Definition html (status : Z) (body : string) : Response :=
  Http status [("Content-Type", "text/html")] (Some body).

Definition resp_invalid_path : Response :=
  html 404 "<h1>404 Not Found</h1><p>Invalid path</p>".
Definition resp_missing_bucket_or_key : Response :=
  html 400 "<h1>400 Bad Request</h1><p>Missing bucket or key</p>".
Definition resp_missing_parameters : Response :=
  html 400 "<h1>400 Bad Request</h1><p>Missing required parameters</p>".
Definition resp_expired (expires_date : string) : Response :=
  html 403 ("<h1>403 Forbidden</h1><p>This link expired on " ++ expires_date
            ++ ".</p><p>Please contact support for a new link.</p>").
Definition resp_invalid_expiration : Response :=
  html 400 "<h1>400 Bad Request</h1><p>Invalid expiration timestamp</p>".
Definition resp_configuration_error : Response :=
  html 500 "<h1>500 Internal Server Error</h1><p>Server configuration error</p>".
Definition resp_invalid_signature : Response :=
  html 403 "<h1>403 Forbidden</h1><p>Invalid signature. This link may have been tampered with.</p>".
Definition resp_recording_not_found : Response :=
  html 404 "<h1>404 Not Found</h1><p>Recording not found. It may have been deleted.</p>".
Definition resp_redirect (presigned_url : string) : Response :=
  Http 302 [("Location", presigned_url);
            ("Cache-Control", "no-cache, no-store, must-revalidate")] None.
Definition resp_failed : Response :=
  html 500 "<h1>500 Internal Server Error</h1><p>Failed to generate URL</p>".

(** The inner [try] of the handler: [None] when the link has not expired,
    the answer to return otherwise. *)
Definition check_expiration (expires : string) : M (option Response) :=
  try_except
    (expires_timestamp <- lift (Str.to_int expires) ;;
     current_timestamp <- now ;;
     if (current_timestamp >? expires_timestamp)%Z then
       dt <- lift (Datetime.fromtimestamp expires_timestamp) ;;
       ret (Some (resp_expired (Datetime.strftime_utc dt)))
     else ret None)
    (fun e => match e with
              | ValueError _ => Some (ret (Some resp_invalid_expiration))
              | _ => None
              end).

(** The object store part of the handler, reached with a verified link. *)
Definition redirect_to_object (bucket key : string) : M Response :=
  let region := getenv "AWS_REGION" "us-east-1" in
  call (NewClient "s3" (Some region)) (fun h => new_client w h "s3" (Some region)) ;;;
  missing <- try_except
    (call (HeadObject bucket key) (fun h => head_object w h bucket key) ;;; ret false)
    (fun e => if has_code e "404" then Some (ret true) else None) ;;
  if (missing : bool) then ret resp_recording_not_found
  else
    presigned_url <- call (GeneratePresignedUrl bucket key 3600)
                          (fun h => generate_presigned_url w h bucket key 3600) ;;
    ret (resp_redirect presigned_url).

Definition falsy (o : option string) : bool :=
  match o with
  | Some s => (s =? "")%string
  | None => true
  end.

(** The handler from the expiry check on, the four parameters of the link
    having been read from the request. *)
Definition answer_link (bucket key expires signature : string) : M Response :=
  expired <- check_expiration expires ;;
  match expired with
  | Some response => ret response
  | None =>
      let signing_secret := getenv "SIGNING_SECRET" "" in
      if (signing_secret =? "")%string then ret resp_configuration_error
      else
        valid <- lift (verify_signature bucket key expires signature signing_secret) ;;
        if negb valid then ret resp_invalid_signature
        else redirect_to_object bucket key
  end.

Definition handle_url_generation (event : UrlEvent) : M Response :=
  try_except
    (let raw_path := match rawPath event with Some p => p | None => "" end in
     let query_parameters :=
       match queryStringParameters event with Some q => q | None => [] end in
     if negb (Str.startswith "/voicemail/" raw_path) then ret resp_invalid_path
     else
       let path_after_voicemail := Str.drop 11 raw_path in
       if (path_after_voicemail =? "")%string || negb (Str.contains "/" path_after_voicemail)
       then ret resp_missing_bucket_or_key
       else
         let '(bucket, rest) := Str.split1 "/" path_after_voicemail in
         let key_encoded := match rest with Some k => k | None => "" end in
         let expires := query_get "expires" query_parameters in
         let signature := query_get "signature" query_parameters in
         if falsy expires || falsy signature then ret resp_missing_parameters
         else
           let expires := match expires with Some e => e | None => "" end in
           let signature := match signature with Some s => s | None => "" end in
           let key := Url.unquote key_encoded in
           answer_link bucket key expires signature)
    (fun _ => Some (ret resp_failed)).

End Signing.

(* ================================================================== *)
(** * Part V. The recording locator                                   *)
(* ================================================================== *)

Definition DEFAULT_LANGUAGE : string := "en-US".
Definition DEFAULT_PREVIEW_LEN : Z := 700.
Definition DEFAULT_MODE : string := "channel".
Definition TRANSCRIBE_MAX_WAIT_SECS : Z := 600.
Definition TRANSCRIBE_POLL_SECS : Z := 3.
Definition MAX_TIME_WINDOW_MINUTES : Z := 5.

(** One candidate of the search: the dict with the entries ["key"],
    ["uri"], ["timestamp"] and ["offset_minutes"]. *)
Record Location : Type := {
  loc_key : string;
  loc_uri : string;
  loc_timestamp : string;
  offset_minutes : Z
}.

(** [range(lo, hi)] *)
Definition range (lo hi : Z) : list Z :=
  map (fun i => lo + Z.of_nat i) (seq 0 (Z.to_nat (hi - lo))).

(** [range(hi, 0, -1)] *)
Definition range_down (hi : Z) : list Z :=
  map (fun i => hi - Z.of_nat i) (seq 0 (Z.to_nat hi)).

(** [l.sort(key=key)]: the sort is stable, an element stays in front of
    the later elements with the same key. *)
Fixpoint insert_by {A} (key : A -> Z) (x : A) (l : list A) : list A :=
  match l with
  | [] => [x]
  | y :: r => if (key x <=? key y)%Z then x :: l else y :: insert_by key x r
  end.

Fixpoint sort_by {A} (key : A -> Z) (l : list A) : list A :=
  match l with
  | [] => []
  | x :: r => insert_by key x (sort_by key r)
  end.

(** The candidate for the time [dt], [offset] minutes from the anchor. *)
Definition location_of (bucket prefix initial_contact_id : string) (dt : Z) (offset : Z)
  : Location :=
  let date_path := Datetime.strftime_day dt in
  let timestamp := Datetime.strftime_minute dt in
  let filename := initial_contact_id ++ "_" ++ timestamp ++ "_UTC.wav" in
  let key := if negb (prefix =? "")%string
             then prefix ++ "/ivr/" ++ date_path ++ "/" ++ filename
             else "ivr/" ++ date_path ++ "/" ++ filename in
  let uri := "s3://" ++ bucket ++ "/" ++ key in
  {| loc_key := key; loc_uri := uri; loc_timestamp := timestamp; offset_minutes := offset |}.

(** The body of the loop of [generate_s3_uris_with_time_window]. *)
Definition candidate (bucket prefix initial_contact_id : string) (now : Z) (offset : Z)
  : result Location :=
  dt <~ Datetime.add_minutes now offset ;;
  Ok (location_of bucket prefix initial_contact_id dt offset).

Definition generate_s3_uris_with_time_window
  (bucket prefix initial_contact_id : string) (now : Z) (minutes_offset : Z)
  : result (list Location) :=
  for_each (fun s3_uris offset =>
              location <~ candidate bucket prefix initial_contact_id now offset ;;
              Ok (s3_uris ++ [location])%list)
           [] (range (- minutes_offset) (minutes_offset + 1)).

Section Locator.
Context {FL : PyFloat}.
Variable w : World.

(** [time.sleep(seconds)], the argument given in milliseconds. *)
Definition sleep (milliseconds : Z) : M unit :=
  if (milliseconds <? 0)%Z then raise (ValueError "sleep length must be non-negative")
  else call (Sleep milliseconds) (fun _ => Ok tt).

(** [datetime.utcnow()] *)
Definition utcnow : M Z :=
  t <- now w ;; lift (Datetime.utcfromtimestamp t).

(** The inner loop of [find_recording_in_s3]: the candidates are probed in
    order; the first that exists is returned, a 404 moves on to the next,
    any other failure leaves the search. *)
Fixpoint probe (bucket : string) (s3_uris : list Location) : M (option Location) :=
  match s3_uris with
  | [] => ret None
  | location :: rest =>
      found <- try_except
        (call (HeadObject bucket (loc_key location))
              (fun h => head_object w h bucket (loc_key location)) ;;; ret true)
        (fun e => if has_code e "404" then Some (ret false) else None) ;;
      if (found : bool) then ret (Some location) else probe bucket rest
  end.

(** The outer loop of [find_recording_in_s3] over the window widths. *)
Fixpoint search_windows (bucket prefix initial_contact_id : string) (now : Z)
  (windows : list Z) : M (option Location) :=
  match windows with
  | [] => ret None
  | window_minutes :: rest =>
      s3_uris <- lift (generate_s3_uris_with_time_window
                         bucket prefix initial_contact_id now window_minutes) ;;
      let s3_uris := sort_by (fun x => Z.abs (offset_minutes x)) s3_uris in
      found <- probe bucket s3_uris ;;
      match found with
      | Some location => ret (Some location)
      | None =>
          (if (window_minutes >? 1)%Z then sleep 500 else ret tt) ;;;
          search_windows bucket prefix initial_contact_id now rest
      end
  end.

Definition find_recording_in_s3 (bucket prefix initial_contact_id : string)
  : M (option Location) :=
  now <- utcnow ;;
  search_windows bucket prefix initial_contact_id now (range_down MAX_TIME_WINDOW_MINUTES).

End Locator.

(* ================================================================== *)
(** * Part VI. The transcription supervisor                           *)
(* ================================================================== *)

Section Supervisor.
Context {FL : PyFloat}.
Variable w : World.

Definition supported_formats : list string :=
  ["mp3"; "mp4"; "wav"; "flac"; "ogg"; "amr"; "webm"; "opus"].

Definition start_transcription_job (media_s3_uri region mode language : string) : M string :=
  call (NewClient "transcribe" (Some region))
       (fun h => new_client w h "transcribe" (Some region)) ;;;
  t <- now w ;;
  let job_name := "voicemail-transcribe-" ++ Str.of_Z t in
  let extension := Str.lower (Str.after_last "." media_s3_uri) in
  let request := {|
    TranscriptionJobName := job_name;
    MediaFileUri := media_s3_uri;
    LanguageCode := language;
    MediaFormat := if existsb (String.eqb extension) supported_formats
                   then Some extension else None;
    Settings := if (mode =? "channel")%string then ChannelIdentification
                else ShowSpeakerLabels 2 |} in
  try_except
    (call (StartTranscriptionJob request)
          (fun h => start_transcription_job_api w h request) ;;; ret job_name)
    (fun e => if has_code e "ConflictException" then
                  Some (t' <- now w ;;
                        let job_name := job_name ++ "-" ++ Str.of_Z t' in
                        let request := {|
                          TranscriptionJobName := job_name;
                          MediaFileUri := MediaFileUri request;
                          LanguageCode := LanguageCode request;
                          MediaFormat := MediaFormat request;
                          Settings := Settings request |} in
                        call (StartTranscriptionJob request)
                             (fun h => start_transcription_job_api w h request) ;;;
                        ret job_name)
              else if is_client_error e then
                  Some (raise (TranscriptionError
                                 ("Failed to start transcription: " ++ exn_str e)))
              else None).

(** One turn of the [while True] of [wait_for_transcription]: the job when
    its status is terminal, the new value of [waited] when the loop goes
    on. *)
Definition poll_once (job_name : string) (waited : Z) : M (pyval + Z) :=
  response <- call (GetTranscriptionJob job_name)
                   (fun h => get_transcription_job w h job_name) ;;
  job <- lift (py_getitem response "TranscriptionJob") ;;
  status <- lift (py_getitem job "TranscriptionJobStatus") ;;
  if py_eq_str status "COMPLETED" || py_eq_str status "FAILED" then ret (inl job)
  else
    sleep (1000 * TRANSCRIBE_POLL_SECS) ;;;
    let waited := waited + TRANSCRIBE_POLL_SECS in
    if (waited >=? TRANSCRIBE_MAX_WAIT_SECS)%Z
    then raise (TimeoutError ("Transcription job '" ++ job_name ++ "' timed out"))
    else ret (inr waited).

Lemma poll_once_continues job_name waited h waited' h' :
  poll_once job_name waited h = (Ok (inr waited'), h') ->
  waited' = waited + TRANSCRIBE_POLL_SECS /\ waited' < TRANSCRIBE_MAX_WAIT_SECS.
Proof.
  unfold poll_once, bind, call, lift, ret, raise, sleep.
  destruct (get_transcription_job w h job_name) as [response|e]; [|discriminate].
  destruct (py_getitem response "TranscriptionJob") as [job|e]; [|discriminate].
  destruct (py_getitem job "TranscriptionJobStatus") as [status|e]; [|discriminate].
  destruct (py_eq_str status "COMPLETED" || py_eq_str status "FAILED"); [discriminate|].
  cbn.
  destruct (Z.geb_spec (waited + TRANSCRIBE_POLL_SECS) TRANSCRIBE_MAX_WAIT_SECS) as [Hge|Hlt];
    [discriminate|].
  intros H. inversion H; subst. split; [reflexivity | exact Hlt].
Qed.

(** A value together with the equation that it is the value of [x]. *)
Definition inspect {A : Type} (x : A) : {y : A | x = y} := exist _ x eq_refl.

(** The seconds of waiting that are left. *)
Definition remaining (waited : Z) : nat := Z.to_nat (TRANSCRIBE_MAX_WAIT_SECS - waited).
Arguments remaining : simpl never.

(** The [while True] loop.  It ends because every turn that goes on has
    moved [waited] closer to [TRANSCRIBE_MAX_WAIT_SECS]. *)
Equations? wait_loop (job_name : string) (waited : Z) (h : history)
  : result pyval * history
  by wf (remaining waited) lt :=
wait_loop job_name waited h with inspect (poll_once job_name waited h) := {
  | exist _ (Ok (inl job), h') _ := (Ok job, h');
  | exist _ (Ok (inr waited'), h') E := wait_loop job_name waited' h';
  | exist _ (Raise e, h') _ := (Raise e, h') }.
Proof.
  destruct (poll_once_continues _ _ _ _ _ E) as [-> Hlt].
  unfold remaining, TRANSCRIBE_POLL_SECS, TRANSCRIBE_MAX_WAIT_SECS in *. lia.
Qed.

Definition wait_for_transcription (job_name region : string) : M pyval :=
  call (NewClient "transcribe" (Some region))
       (fun h => new_client w h "transcribe" (Some region)) ;;;
  wait_loop job_name 0.

End Supervisor.

(* ================================================================== *)
(** * Part VII. The recording-processing handler                      *)
(* ================================================================== *)

(** The Amazon Connect event, as far as the handler reads it.  A field that
    is [None] is a key the event does not have. *)
Record Endpoint : Type := {
  Address : option string
}.

Record ConnectContactData : Type := {
  InitialContactId : option string;
  ContactId : option string;
  InstanceARN : option string;
  Attributes : option (list (string * string));
  CustomerEndpoint : option Endpoint
}.

Record ConnectDetails : Type := {
  ContactData : option ConnectContactData
}.

Record ConnectEvent : Type := {
  Details : option ConnectDetails
}.

(** [d[k]] on a record field: [KeyError] when the key is absent. *)
Definition require {A} (k : string) (field : option A) : result A :=
  match field with
  | Some a => Ok a
  | None => Raise (KeyError (Str.repr k))
  end.

(** [parse_s3_uri]: unpacking the split raises [ValueError] when the rest
    has no [/]. *)
Definition parse_s3_uri (uri : string) : result (string * string) :=
  match Str.split1 "/" (Str.drop 5 uri) with
  | (bucket, Some key) => Ok (bucket, key)
  | (_, None) => Raise (ValueError "not enough values to unpack (expected 2, got 1)")
  end.

(** [extract_region_from_arn]: the fourth field of the ARN, [None] when
    there is none. *)
Definition extract_region_from_arn (arn : string) : option string :=
  nth_error (Str.split ":" arn) 3.

Section Processing.
Context {FL : PyFloat} {HM : Hmac} {TP : Templates}.
Variable w : World.

(** [fetch_json]: the uri is whatever the job reports. *)
Definition fetch_json (uri : pyval) (region : string) : M pyval :=
  match uri with
  | PStr uri =>
      if Str.startswith "s3://" uri then
        '(bucket, key) <- lift (parse_s3_uri uri) ;;
        call (NewClient "s3" (Some region)) (fun h => new_client w h "s3" (Some region)) ;;;
        call (GetObject bucket key) (fun h => get_object_json w h bucket key)
      else call (UrlOpen uri) (fun h => urlopen_json w h uri)
  | _ => raise AttributeError
  end.

Definition resolve_region (instance_arn : string) : M string :=
  match extract_region_from_arn instance_arn with
  | Some (String c r) => ret (String c r)
  | _ =>
      region <- try_except
        (call (NewClient "sts" None) (fun h => new_client w h "sts" None))
        (fun _ => Some (ret None)) ;;
      region <- match region with
                | Some (String c r) => ret (Some (String c r))
                | _ => call SessionRegion (session_region w)
                end ;;
      match region with
      | Some (String c r) => ret (String c r)
      | _ => raise (RuntimeError "Unable to determine AWS region")
      end
  end.

Definition validate_environment : result (string * Z * string * Z) :=
  let base_path := Str.strip_char "/" (getenv w "BASE_PATH" "") in
  if (base_path =? "")%string
  then Raise (ValueError "BASE_PATH environment variable is required")
  else
    let email_sender := getenv w "EMAIL_SENDER" "" in
    if (email_sender =? "")%string
    then Raise (ValueError "EMAIL_SENDER environment variable is required")
    else
      url_expiration <~ Str.to_int (getenv w "URL_EXPIRATION" "604800") ;;
      recording_wait_time <~ Str.to_int (getenv w "RECORDING_WAIT_TIME" "70") ;;
      Ok (base_path, url_expiration, email_sender, recording_wait_time).

Definition send_email_with_recording
  (email_sender email_recipient caller_number preview redirect_url : string)
  (recipient_name : option string) (recording_duration : float) : M pyval :=
  let subject := "Voicemail message from: " ++ caller_number in
  html_body <- lift (create_html_email caller_number preview redirect_url
                                       recipient_name recording_duration) ;;
  text_body <- lift (create_text_email caller_number preview redirect_url
                                       recipient_name recording_duration) ;;
  let email := {| FromEmailAddress := email_sender; ToAddress := email_recipient;
                  Subject := subject; HtmlBody := html_body; TextBody := text_body |} in
  call (SendEmail email) (fun h => send_email w h email).

(** What the first [try] block of the handler leaves to the later ones. *)
Record Validated : Type := {
  v_base_path : string;
  v_url_expiration : Z;
  v_email_sender : string;
  v_recording_wait_time : Z;
  v_initial_contact_id : string;
  v_instance_arn : string;
  v_caller_number : string;
  v_email_recipient : string;
  v_recipient_name : option string
}.

(** A block of the handler either returns a response or goes on with a
    value. *)
Definition Block (A : Type) : Type := M (Response + A).

Definition and_then {A} (b : Block A) (k : A -> M Response) : M Response :=
  r <- b ;;
  match r with
  | inl response => ret response
  | inr a => k a
  end.

(** First block: configuration and contact data. *)
Definition read_request (event : ConnectEvent) : result (Response + Validated) :=
  '(base_path, url_expiration, email_sender, recording_wait_time) <~ validate_environment ;;
  details <~ require "Details" (Details event) ;;
  contact_data <~ require "ContactData" (ContactData details) ;;
  initial_contact_id <~ require "InitialContactId" (InitialContactId contact_data) ;;
  contact_id <~ require "ContactId" (ContactId contact_data) ;;
  instance_arn <~ require "InstanceARN" (InstanceARN contact_data) ;;
  let attributes := match Attributes contact_data with Some a => a | None => [] end in
  let caller_number :=
    match CustomerEndpoint contact_data with
    | Some endpoint => match Address endpoint with Some a => a | None => "Unknown" end
    | None => "Unknown"
    end in
  let email_recipient := query_get "emailRecipient" attributes in
  let recipient_name := match query_get "RecipientName" attributes with
                        | Some n => Some n
                        | None => email_recipient
                        end in
  match email_recipient with
  | Some (String c r) =>
      Ok (inr {| v_base_path := base_path; v_url_expiration := url_expiration;
                 v_email_sender := email_sender;
                 v_recording_wait_time := recording_wait_time;
                 v_initial_contact_id := initial_contact_id;
                 v_instance_arn := instance_arn; v_caller_number := caller_number;
                 v_email_recipient := String c r; v_recipient_name := recipient_name |})
  | _ => Ok (inl (Outcome 400 "Missing emailRecipient attribute" None))
  end.

Definition validation_block (event : ConnectEvent) : Block Validated :=
  try_except (lift (read_request event))
    (fun e => match e with
              | KeyError _ => Some (ret (inl (Outcome 400 ("Missing contact data: " ++ exn_str e) None)))
              | ValueError _ => Some (ret (inl (Outcome 500 (exn_str e) None)))
              | _ => None
              end).

(** Second block: region and clients. *)
Definition clients_block (instance_arn : string) : Block string :=
  try_except
    (region <- resolve_region instance_arn ;;
     call (NewClient "s3" (Some region)) (fun h => new_client w h "s3" (Some region)) ;;;
     call (NewClient "sesv2" (Some region)) (fun h => new_client w h "sesv2" (Some region)) ;;;
     ret (inr region))
    (fun _ => Some (ret (inl (Outcome 500 "Failed to initialize AWS clients" None)))).

(** Third block: the search, at most twice, 30 seconds apart. *)
Definition search_block (bucket prefix initial_contact_id : string) : Block Location :=
  try_except
    (location <- find_recording_in_s3 w bucket prefix initial_contact_id ;;
     location <- match location with
                 | Some l => ret (Some l)
                 | None =>
                     sleep 30000 ;;;
                     find_recording_in_s3 w bucket prefix initial_contact_id
                 end ;;
     match location with
     | Some l => ret (inr l)
     | None => ret (inl (Outcome 404 "Recording not found" None))
     end)
    (fun _ => Some (ret (inl (Outcome 500 "Error searching for recording" None)))).

(** [f"{v}"] for the values a job status can be. *)
Definition py_str (v : pyval) : string :=
  match v with
  | PStr s => s
  | PNone => "None"
  | PBool true => "True"
  | PBool false => "False"
  | PInt n => Str.of_Z n
  | _ => "..."
  end.

(** Fourth block: transcription, preview and duration. *)
Definition transcription_block (bucket key region : string) : Block (string * float) :=
  try_except
    (let media_s3_uri := "s3://" ++ bucket ++ "/" ++ key in
     job_name <- start_transcription_job w media_s3_uri region DEFAULT_MODE DEFAULT_LANGUAGE ;;
     job <- wait_for_transcription w job_name region ;;
     status <- lift (py_getitem job "TranscriptionJobStatus") ;;
     if negb (py_eq_str status "COMPLETED")
     then raise (TranscriptionError ("Transcription failed: " ++ py_str status))
     else
       transcript <- lift (py_getitem job "Transcript") ;;
       uri <- lift (py_getitem transcript "TranscriptFileUri") ;;
       data <- fetch_json uri region ;;
       results <- lift (py_get data "results" (PDict [])) ;;
       preview <- lift (build_transcription_preview results DEFAULT_MODE DEFAULT_PREVIEW_LEN) ;;
       let duration := get_actual_recording_duration results in
       let preview := if (preview =? "")%string then "No transcription available" else preview in
       ret (inr (preview, duration)))
    (fun e => match e with
              | TranscriptionError _ => Some (ret (inl (Outcome 502 (exn_str e) None)))
              | _ => Some (ret (inl (Outcome 500 "Transcription processing error" None)))
              end).

(** Fifth block: the signed link. *)
Definition signing_block (bucket key : string) (url_expiration : Z) : Block string :=
  try_except
    (let redirect_api_url := Str.rstrip_char "/" (getenv w "REDIRECT_API_URL" "") in
     let signing_secret := getenv w "SIGNING_SECRET" "" in
     if (redirect_api_url =? "")%string
     then raise (ValueError "REDIRECT_API_URL environment variable not set")
     else if (signing_secret =? "")%string
     then raise (ValueError "SIGNING_SECRET environment variable not set")
     else
       let validity_hours := url_expiration / 3600 in
       redirect_url <- generate_signed_url w redirect_api_url bucket key signing_secret
                                           validity_hours ;;
       ret (inr redirect_url))
    (fun _ => Some (ret (inl (Outcome 500 "Error generating signed URL" None)))).

(** Last block: the notification. *)
Definition email_block (v : Validated) (location : Location) (preview redirect_url : string)
  (duration : float) : M Response :=
  try_except
    (response <- send_email_with_recording
                   (v_email_sender v) (v_email_recipient v) (v_caller_number v)
                   preview redirect_url (v_recipient_name v) duration ;;
     message_id <- lift (py_get response "MessageId" PNone) ;;
     ret (Outcome 200 "Voicemail processed successfully"
            (Some {| data_timestamp := loc_timestamp location;
                     data_s3_uri := loc_uri location;
                     data_duration := duration;
                     data_message_id := message_id |})))
    (fun e => match e with
              | ClientError _ _ => Some (ret (Outcome 500 "Email send failed" None))
              | _ => Some (ret (Outcome 500 "Email error" None))
              end).

Definition handle_voicemail_processing (event : ConnectEvent) : M Response :=
  and_then (validation_block event) (fun v =>
  and_then (clients_block (v_instance_arn v)) (fun region =>
  let '(bucket, rest) := Str.split1 "/" (v_base_path v) in
  let prefix := match rest with Some p => p | None => "" end in
  sleep (1000 * v_recording_wait_time v) ;;;
  and_then (search_block bucket prefix (v_initial_contact_id v)) (fun location =>
  let key := loc_key location in
  and_then (transcription_block bucket key region) (fun '(preview, duration) =>
  and_then (signing_block bucket key (v_url_expiration v)) (fun redirect_url =>
  email_block v location preview redirect_url duration))))).

End Processing.

(** ** The router *)

(** [p in s] for two [str]: [p] occurs in [s]. *)
Fixpoint occurs (p s : string) : bool :=
  String.prefix p s
  || match s with
     | EmptyString => false
     | String _ s' => occurs p s'
     end.

Section Router.
Context {FL : PyFloat} {HM : Hmac} {TP : Templates}.
Variable w : World.

(** [k in v] for a string [k]: a key of a dict, an element of a list, a
    part of a string; anything else is not iterable. *)
Definition py_contains (k : string) (v : pyval) : result bool :=
  match v with
  | PDict d => Ok (match dict_lookup k d with Some _ => true | None => false end)
  | PList l => Ok (existsb (fun x => py_eq_str x k) l)
  | PStr s => Ok (occurs k s)
  | _ => Raise TypeError
  end.

(** The event of an invocation, as far as the router and the two handlers
    read it: the value under ["requestContext"], when the key is there,
    the fields of a Function URL request and those of an Amazon Connect
    event. *)
Record LambdaEvent : Type := {
  requestContext : option pyval;
  url_fields : UrlEvent;
  connect_fields : ConnectEvent
}.

(** The double quote. *)
Definition dquote : string := String (ascii_of_nat 34) EmptyString.

(** [{'statusCode': 400, 'body': json.dumps({'error': 'Unknown event
    type'})}]; the answer has no headers. *)
Definition resp_unknown_event : Response :=
  Http 400 []
    (Some ("{" ++ dquote ++ "error" ++ dquote ++ ": "
           ++ dquote ++ "Unknown event type" ++ dquote ++ "}")).

(** ['Details' in event and 'ContactData' in event.get('Details', {})] *)
Definition has_contact_data (event : ConnectEvent) : bool :=
  match Details event with
  | Some details => match ContactData details with Some _ => true | None => false end
  | None => false
  end.

Definition lambda_handler (event : LambdaEvent) : M Response :=
  is_http <- lift match requestContext event with
                  | Some context => py_contains "http" context
                  | None => Ok false
                  end ;;
  if (is_http : bool) then handle_url_generation w (url_fields event)
  else if has_contact_data (connect_fields event)
  then handle_voicemail_processing w (connect_fields event)
  else ret resp_unknown_event.

End Router.

(* ================================================================== *)
(** * Part VIII. HMAC-SHA256                                          *)
(* ================================================================== *)

(** SHA-256 (FIPS 180-4) and HMAC (RFC 2104) on lists of bytes, words being
    integers below [2 ^ 32]. *)
Module Sha256.

Definition word (x : Z) : Z := x mod 2 ^ 32.

Definition rotr (n x : Z) : Z := Z.lor (Z.shiftr x n) (word (Z.shiftl x (32 - n))).

Definition Ch (x y z : Z) : Z := Z.lxor (Z.land x y) (Z.land (Z.lxor x (2 ^ 32 - 1)) z).
Definition Maj (x y z : Z) : Z := Z.lxor (Z.lxor (Z.land x y) (Z.land x z)) (Z.land y z).
Definition Sigma0 (x : Z) : Z := Z.lxor (Z.lxor (rotr 2 x) (rotr 13 x)) (rotr 22 x).
Definition Sigma1 (x : Z) : Z := Z.lxor (Z.lxor (rotr 6 x) (rotr 11 x)) (rotr 25 x).
Definition sigma0 (x : Z) : Z := Z.lxor (Z.lxor (rotr 7 x) (rotr 18 x)) (Z.shiftr x 3).
Definition sigma1 (x : Z) : Z := Z.lxor (Z.lxor (rotr 17 x) (rotr 19 x)) (Z.shiftr x 10).

(** The first 64 primes. *)
Definition is_prime (n : nat) : bool :=
  forallb (fun d => negb (n mod d =? 0)%nat) (seq 2 (n - 2)).

Definition primes : list Z :=
  Eval vm_compute in map Z.of_nat (filter is_prime (seq 2 310)).

(** The integer cube root of a number below [2 ^ 108], bit by bit. *)
Definition cube_root (n : Z) : Z :=
  fold_left (fun r b => let r' := r + 2 ^ Z.of_nat b in
                        if (r' * r' * r' <=? n)%Z then r' else r)
            (rev (seq 0 36)) 0.

(** The round constants: the first 32 bits of the fractional parts of the
    cube roots of the first 64 primes. *)
Definition K : list Z :=
  Eval vm_compute in map (fun p => word (cube_root (p * 2 ^ 96))) primes.

Record state : Type := {
  ha : Z; hb : Z; hc : Z; hd : Z; he : Z; hf : Z; hg : Z; hh : Z
}.

(** The initial hash value: the first 32 bits of the fractional parts of
    the square roots of the first 8 primes. *)
Definition root_bits (i : nat) : Z := word (Z.sqrt (nth i primes 0 * 2 ^ 64)).

Definition H0 : state :=
  Eval vm_compute in
  {| ha := root_bits 0; hb := root_bits 1; hc := root_bits 2; hd := root_bits 3;
     he := root_bits 4; hf := root_bits 5; hg := root_bits 6; hh := root_bits 7 |}.

(** The [n] bytes of [x], most significant first. *)
Definition be_bytes (n : nat) (x : Z) : list Z :=
  map (fun i => (Z.shiftr x (8 * Z.of_nat (n - 1 - i))) mod 256) (seq 0 n).

(** The message with its padding: the byte 128, zeros, and the length in
    bits on 8 bytes, up to a multiple of 64 bytes. *)
Definition pad (msg : list Z) : list Z :=
  let len := Z.of_nat (List.length msg) in
  let zeros := Z.to_nat ((55 - len) mod 64) in
  (msg ++ [128] ++ repeat 0 zeros ++ be_bytes 8 (8 * len))%list.

Fixpoint be_words (n : nat) (bytes : list Z) : list Z :=
  match n, bytes with
  | S k, a :: b :: c :: d :: rest =>
      (((a * 256 + b) * 256 + c) * 256 + d) :: be_words k rest
  | _, _ => []
  end.

(** The message schedule, the most recent word first. *)
Fixpoint schedule (n : nat) (ws : list Z) : list Z :=
  match n with
  | O => ws
  | S k =>
      let x := word (sigma1 (nth 1 ws 0) + nth 6 ws 0 + sigma0 (nth 14 ws 0) + nth 15 ws 0) in
      schedule k (x :: ws)
  end.

Definition round (s : state) (kw : Z * Z) : state :=
  let '(k, x) := kw in
  let t1 := hh s + Sigma1 (he s) + Ch (he s) (hf s) (hg s) + k + x in
  let t2 := Sigma0 (ha s) + Maj (ha s) (hb s) (hc s) in
  {| ha := word (t1 + t2); hb := ha s; hc := hb s; hd := hc s;
     he := word (hd s + t1); hf := he s; hg := hf s; hh := hg s |}.

Definition compress (s : state) (block : list Z) : state :=
  let ws := rev (schedule 48 (rev (be_words 16 block))) in
  let r := fold_left round (combine K ws) s in
  {| ha := word (ha s + ha r); hb := word (hb s + hb r); hc := word (hc s + hc r);
     hd := word (hd s + hd r); he := word (he s + he r); hf := word (hf s + hf r);
     hg := word (hg s + hg r); hh := word (hh s + hh r) |}.

Fixpoint blocks (n : nat) (s : state) (bytes : list Z) : state :=
  match n, bytes with
  | S k, _ :: _ => blocks k (compress s (firstn 64 bytes)) (skipn 64 bytes)
  | _, _ => s
  end.

Definition hash (msg : list Z) : state :=
  let p := pad msg in blocks (List.length p) H0 p.

Definition digest (msg : list Z) : list Z :=
  let s := hash msg in
  flat_map (be_bytes 4) [ha s; hb s; hc s; hd s; he s; hf s; hg s; hh s].

Definition hex_lower (n : Z) : ascii :=
  if (n <? 10)%Z then ascii_of_nat (48 + Z.to_nat n) else ascii_of_nat (87 + Z.to_nat n).

Fixpoint hex (bytes : list Z) : string :=
  match bytes with
  | [] => EmptyString
  | b :: r => String (hex_lower (b / 16 mod 16)) (String (hex_lower (b mod 16)) (hex r))
  end.

(** The bytes of a list of bytes kept as a text. *)
Fixpoint bytes_of (s : string) : list Z :=
  match s with
  | EmptyString => []
  | String c s' => Z.of_nat (nat_of_ascii c) :: bytes_of s'
  end.

(** [s.encode()] *)
Definition encode (s : string) : list Z := bytes_of (Str.encode s).

(** A key longer than a block is hashed first; the key is then filled with
    zeros to 64 bytes. *)
Definition hmac (key msg : list Z) : list Z :=
  let key := if (64 <? Z.of_nat (List.length key))%Z then digest key else key in
  let key := (key ++ repeat 0 (64 - List.length key))%list in
  let ipad := map (Z.lxor 0x36) key in
  let opad := map (Z.lxor 0x5c) key in
  digest (opad ++ digest (ipad ++ msg)).

Definition hexdigest (key msg : string) : string :=
  hex (hmac (encode key) (encode msg)).

End Sha256.

Lemma hex_length (bytes : list Z) :
  String.length (Sha256.hex bytes) = (2 * List.length bytes)%nat.
Proof.
  induction bytes as [|b r IH]; cbn [Sha256.hex String.length List.length]; [reflexivity|].
  rewrite IH. lia.
Qed.

Lemma digest_length (msg : list Z) : List.length (Sha256.digest msg) = 32%nat.
Proof. reflexivity. Qed.

Lemma hex_lower_is_lower_hex (n : Z) :
  0 <= n < 16 -> Str.is_lower_hex (Sha256.hex_lower n) = true.
Proof.
  intros Hn.
  rewrite <- (Z2Nat.id n) by lia.
  assert (H : (Z.to_nat n < 16)%nat) by lia.
  generalize dependent (Z.to_nat n). clear Hn n. intros k Hk.
  do 16 (destruct k as [|k]; [reflexivity|]). lia.
Qed.

Lemma hex_all_lower_hex (bytes : list Z) :
  Str.all_chars Str.is_lower_hex (Sha256.hex bytes) = true.
Proof.
  induction bytes as [|b r IH]; [reflexivity|].
  cbn [Sha256.hex Str.all_chars].
  rewrite !hex_lower_is_lower_hex, IH by (apply Z.mod_pos_bound; lia).
  reflexivity.
Qed.

(** The keyed hash of the source. *)
#[export] Instance hmac_sha256 : Hmac := {|
  hmac_sha256_hexdigest := Sha256.hexdigest;
  hexdigest_length := fun key msg =>
    eq_trans (hex_length _) (f_equal (Nat.mul 2) (digest_length _));
  hexdigest_lower_hex := fun key msg => hex_all_lower_hex _
|}.

(* ================================================================== *)
(** * Part IX. Vocabulary of the statements and a world to run them   *)
(* ================================================================== *)

(** ** Requests *)

(** The text a signature is made over, [{bucket}:{key}:{expires}]. *)
Definition signed_message (bucket key expires : string) : string :=
  bucket ++ ":" ++ key ++ ":" ++ expires.

(** A Function URL request for [/voicemail/{bucket}/{key_encoded}] with the
    given query parameters. *)
Definition url_event (bucket key_encoded : string) (query : list (string * string)) : UrlEvent :=
  {| rawPath := Some ("/voicemail/" ++ bucket ++ "/" ++ key_encoded);
     queryStringParameters := Some query |}.

(** The request made by following a link that [generate_signed_url] issued
    for [bucket] and [key]. *)
Definition link_request (bucket key expires signature : string) : UrlEvent :=
  url_event bucket (Url.quote key) [("expires", expires); ("signature", signature)].

(** Exactly one of the three signed fields differs. *)
Definition one_field_changed (bucket key expires bucket' key' expires' : string) : Prop :=
  (bucket <> bucket' /\ key = key' /\ expires = expires')
  \/ (bucket = bucket' /\ key <> key' /\ expires = expires')
  \/ (bucket = bucket' /\ key = key' /\ expires <> expires').

(** Two worlds that differ at most in what the object store answers. *)
Definition same_but_store {FL : PyFloat} (w1 w2 : World) : Prop :=
  (forall name, environ w1 name = environ w2 name)
  /\ (forall h, clock w1 h = clock w2 h).

(** ** Token streams *)

Inductive token_type : Type := WORD | PUNCTUATION.

Record token : Type := {
  kind : token_type;
  content : string
}.

Definition type_name (k : token_type) : string :=
  match k with
  | WORD => "pronunciation"
  | PUNCTUATION => "punctuation"
  end.

Section Streams.
Context {FL : PyFloat}.

(** [item] is the JSON item of the token [t]: a dict whose ["type"] names
    the kind of [t] and whose first alternative has the content of [t].
    Other entries (times, confidence) may be present. *)
Definition item_is (item : pyval) (t : token) : Prop :=
  exists d first others,
    item = PDict d
    /\ dict_lookup "type" d = Some (PStr (type_name (kind t)))
    /\ dict_lookup "alternatives" d = Some (PList (PDict first :: others))
    /\ dict_lookup "content" first = Some (PStr (content t)).

(** [channel] is the JSON channel with the tokens [ts]. *)
Definition channel_is (channel : pyval) (ts : list token) : Prop :=
  exists d items,
    channel = PDict d
    /\ dict_lookup "items" d = Some (PList items)
    /\ Forall2 item_is items ts.

(** [results] is a channel-partitioned transcription result with the given
    token streams. *)
Definition channels_are (results : pyval) (streams : list (list token)) : Prop :=
  exists d labels channels,
    results = PDict d
    /\ dict_lookup "channel_labels" d = Some (PDict labels)
    /\ dict_lookup "channels" labels = Some (PList channels)
    /\ Forall2 channel_is channels streams.

(** The plainest JSON with these token streams. *)
Definition item_of_token (t : token) : pyval :=
  PDict [("type", PStr (type_name (kind t)));
         ("alternatives", PList [PDict [("content", PStr (content t))]])].

Definition results_of_channels (streams : list (list token)) : pyval :=
  PDict [("channel_labels",
          PDict [("channels",
                  PList (map (fun ts => PDict [("items", PList (map item_of_token ts))])
                             streams))])].

(** The end-time a token has: the value of ["end_time"] when it is there
    and true. *)
Definition end_time (item : pyval) : option pyval :=
  match item with
  | PDict d => match dict_lookup "end_time" d with
               | Some v => if truthy v then Some v else None
               | None => None
               end
  | _ => None
  end.

Definition is_dict (v : pyval) : bool :=
  match v with
  | PDict _ => true
  | _ => false
  end.

(** A token that is well formed and has no end-time. *)
Definition untimed (item : pyval) : Prop := is_dict item = true /\ end_time item = None.

(** The status source never reports a terminal state for [job_name]:
    whenever it is asked it answers with a job whose status is neither
    [COMPLETED] nor [FAILED]. *)
Definition never_terminal (w : World) (job_name : string) : Prop :=
  forall h, exists response job status,
    get_transcription_job w h job_name = Ok response
    /\ py_getitem response "TranscriptionJob" = Ok job
    /\ py_getitem job "TranscriptionJobStatus" = Ok status
    /\ py_eq_str status "COMPLETED" = false
    /\ py_eq_str status "FAILED" = false.

(** The attributes of the event, when it has contact data. *)
Definition attributes_of (event : ConnectEvent) : list (string * string) :=
  match Details event with
  | Some details =>
      match ContactData details with
      | Some contact_data =>
          match Attributes contact_data with Some a => a | None => [] end
      | None => []
      end
  | None => []
  end.

End Streams.

(** ** The preview, in the words of the specification *)

Module PreviewSpec.

(** A WORD token starts a new word; a PUNCTUATION token is appended to the
    word being accumulated.  [current] is that word. *)
Fixpoint words_from (current : string) (ts : list token) : list string :=
  match ts with
  | [] => [current]
  | t :: rest =>
      match kind t with
      | WORD => current :: words_from (content t) rest
      | PUNCTUATION => words_from (current ++ content t) rest
      end
  end.

(** The first token starts the first word, a punctuation token with no
    word before it standing alone. *)
Definition words (ts : list token) : list string :=
  match ts with
  | [] => []
  | t :: rest => words_from (content t) rest
  end.

(** The text without the space in front of a comma or a period. *)
Definition starts_with_mark (s : string) : bool :=
  match s with
  | String c _ => Str.is_char c "," || Str.is_char c "."
  | EmptyString => false
  end.

Fixpoint close_up (s : string) : string :=
  match s with
  | EmptyString => EmptyString
  | String c rest =>
      if Str.is_char c " " && starts_with_mark rest then close_up rest
      else String c (close_up rest)
  end.

(** The words of a channel joined by single spaces, then closed up. *)
Definition channel (ts : list token) : string :=
  close_up (Str.join " " (words ts)).

(** The texts of all channels joined by single spaces, cut to [limit]
    characters. *)
Definition preview (streams : list (list token)) (limit : Z) : string :=
  Str.slice_to limit (Str.join " " (map channel streams)).

End PreviewSpec.

(** ** The preview, with what the code adds to these words *)

(** The text of a channel loses the white space around it; a channel whose
    text is then empty is left out; the joined text loses the white space
    around it before it is cut. *)
Module PreviewAmended.

Definition channel (ts : list token) : string := Str.strip (PreviewSpec.channel ts).

Definition preview (streams : list (list token)) (limit : Z) : string :=
  Str.slice_to limit
    (Str.strip (Str.join " " (filter (fun s => negb (s =? "")%string) (map channel streams)))).

End PreviewAmended.

(** A text that is not empty and neither begins nor ends with white
    space. *)
Definition tidy (s : string) : Prop := s <> "" /\ Str.strip s = s.

(** ** A world to run examples in *)

(** Exact decimal numbers in the place of binary floating point:
    [mantissa / 10 ^ places]. *)
Record decimal : Type := {
  mantissa : Z;
  places : nat
}.

Fixpoint read_decimal (point any : bool) (m : Z) (p : nat) (s : string) : option decimal :=
  match s with
  | EmptyString => if any then Some {| mantissa := m; places := p |} else None
  | String c r =>
      match Str.digit_value c with
      | Some d => read_decimal point true (10 * m + d) (if point then S p else p) r
      | None => if Str.is_char c "." && negb point then read_decimal true any m p r else None
      end
  end.

Definition decimal_of_str (s : string) : option decimal :=
  match Str.strip s with
  | String "-" r =>
      match read_decimal false false 0 0 r with
      | Some d => Some {| mantissa := - mantissa d; places := places d |}
      | None => None
      end
  | t => read_decimal false false 0 0 t
  end.

Definition decimal_add (a b : decimal) : decimal :=
  {| mantissa := mantissa a * 10 ^ Z.of_nat (places b) + mantissa b * 10 ^ Z.of_nat (places a);
     places := places a + places b |}.

#[export] Instance decimal_floats : PyFloat := {|
  float := decimal;
  float_zero := {| mantissa := 0; places := 1 |};
  float_of_str := decimal_of_str;
  float_of_int := fun n => Some {| mantissa := n; places := 0 |};
  float_truth := fun d => negb (mantissa d =? 0)%Z;
  float_add := decimal_add
|}.

(** Stand-ins for the three functions left open. *)
#[export] Instance plain_templates : Templates := {|
  _build_preview_diarization := fun _ _ => Raise (OtherException "diarization");
  create_html_email := fun caller preview link _ _ =>
    Ok ("<p>" ++ caller ++ "</p><p>" ++ preview ++ "</p><a href='" ++ link ++ "'>listen</a>");
  create_text_email := fun caller preview link _ _ =>
    Ok (caller ++ ": " ++ preview ++ " " ++ link)
|}.

(** The milliseconds slept so far. *)
Definition slept (h : history) : Z :=
  fold_left (fun acc c => match c with Sleep ms => acc + ms | _ => acc end) h 0.

Definition not_found : exn :=
  ClientError (Some "404")
    "An error occurred (404) when calling the HeadObject operation: Not Found".

(** A world with the given environment, in which time starts at [start]
    and passes while the process sleeps, the store holds the objects
    [stored], the status source answers [job], and the transcript and the
    mail service answer as given. *)
Definition world_of (env : list (string * string)) (start : Z)
  (stored : string -> string -> bool) (job : history -> pyval) (transcript : pyval) : World :=
  {| environ := fun name => query_get name env;
     clock := fun h => start + slept h / 1000;
     new_client := fun _ _ region => Ok region;
     session_region := fun _ => Ok None;
     head_object := fun _ bucket key => if stored bucket key then Ok tt else Raise not_found;
     generate_presigned_url := fun _ bucket key ttl =>
       Ok ("https://" ++ bucket ++ ".s3.amazonaws.com/" ++ key
           ++ "?X-Amz-Expires=" ++ Str.of_Z ttl);
     start_transcription_job_api := fun _ _ => Ok tt;
     get_transcription_job := fun h _ => Ok (job h);
     get_object_json := fun _ _ _ => Ok transcript;
     urlopen_json := fun _ _ => Ok transcript;
     send_email := fun _ _ => Ok (PDict [("MessageId", PStr "0100018c-0001")]) |}.

Definition demo_environment : list (string * string) :=
  [("BASE_PATH", "connect-bucket/recordings");
   ("EMAIL_SENDER", "voicemail@example.com");
   ("URL_EXPIRATION", "604800");
   ("RECORDING_WAIT_TIME", "70");
   ("SIGNING_SECRET", "k7vM3nQ9pL2xR8wT5yH1bN6mJ4cV0gF3sA7dE9uI2oP=");
   ("REDIRECT_API_URL", "https://abc123.lambda-url.us-east-1.on.aws/")].

Definition demo_secret : string := "k7vM3nQ9pL2xR8wT5yH1bN6mJ4cV0gF3sA7dE9uI2oP=".

(** Friday 5 January 2024, 10:05:00 UTC *)
Definition demo_start : Z := 1704449100.

Definition job_in_state (status : string) : pyval :=
  PDict [("TranscriptionJob",
          PDict [("TranscriptionJobName", PStr "voicemail-transcribe");
                 ("TranscriptionJobStatus", PStr status);
                 ("Transcript",
                  PDict [("TranscriptFileUri", PStr "s3://transcripts/job.json")])])].

Definition demo_key : string := "recordings/ivr/2024/01/05/abc-123_20240105T10:07_UTC.wav".

Definition demo_transcript : pyval :=
  PDict [("results",
          PDict [("channel_labels",
                  PDict [("channels",
                          PList [PDict [("items",
                                         PList [item_of_token {| kind := WORD; content := "hello" |};
                                                item_of_token {| kind := PUNCTUATION; content := "," |}])];
                                 PDict [("items",
                                         PList [item_of_token {| kind := WORD; content := "bye" |}])]])]);
                 ("items",
                  PList [PDict [("type", PStr "pronunciation"); ("end_time", PStr "12.4")];
                         PDict [("type", PStr "punctuation")]])])].

(** The store holds one recording, uploaded two minutes after [demo_start];
    the transcription is done when it is first asked for. *)
Definition demo_world : World :=
  world_of demo_environment demo_start
    (fun bucket key => (bucket =? "connect-bucket")%string && (key =? demo_key)%string)
    (fun _ => job_in_state "COMPLETED") demo_transcript.

(** The same, with a job that stays in progress for ever. *)
Definition stuck_world : World :=
  world_of demo_environment demo_start
    (fun bucket key => (bucket =? "connect-bucket")%string && (key =? demo_key)%string)
    (fun _ => job_in_state "IN_PROGRESS") demo_transcript.

Definition demo_event (attributes : list (string * string)) : ConnectEvent :=
  {| Details := Some {| ContactData := Some {|
       InitialContactId := Some "abc-123";
       ContactId := Some "abc-123";
       InstanceARN := Some "arn:aws:connect:us-east-1:123456789012:instance/i-1";
       Attributes := Some attributes;
       CustomerEndpoint := Some {| Address := Some "+18607866359" |} |} |} |}.

(** ** More worlds and events *)


(** [demo_world] with an empty object store. *)
Definition emptied_world : World :=
  world_of demo_environment demo_start (fun _ _ => false)
    (fun _ => job_in_state "COMPLETED") demo_transcript.

(** The event of the documentation: every field it lists, and no
    [ContactId]. *)
Definition documented_event : ConnectEvent :=
  {| Details := Some {| ContactData := Some {|
       InitialContactId := Some "abc-123";
       ContactId := None;
       InstanceARN := Some "arn:aws:connect:us-east-1:123456789012:instance/i-1";
       Attributes := Some [("emailRecipient", "user@example.com");
                           ("RecipientName", "John Smith")];
       CustomerEndpoint := Some {| Address := Some "+18607866359" |} |} |} |}.

(** ** Answers *)

(** The status code of an answer; [None] for an exception. *)
Definition answered {FL : PyFloat} (r : result Response * history) : option Z :=
  match fst r with
  | Ok response => Some (status_of response)
  | Raise _ => None
  end.

(** The answer to a request whose [expires] is the integer [n], once the
    clock has passed [n]: 403 with the date when [datetime] accepts [n]; the
    [ValueError] of [datetime] is answered like an [expires] that is no
    integer, any other exception of it by the last [except] of the
    handler. *)
Definition passed_answer {FL : PyFloat} (n : Z) : Response :=
  match Datetime.fromtimestamp n with
  | Ok dt => resp_expired (Datetime.strftime_utc dt)
  | Raise (ValueError _) => resp_invalid_expiration
  | Raise _ => resp_failed
  end.

(** ** Numerals *)

(** The value of a numeral read from the left, [acc] being the value of the
    digits already read. *)
Fixpoint uint_value (acc : Z) (d : Decimal.uint) : Z :=
  match d with
  | Decimal.Nil => acc
  | Decimal.D0 l => uint_value (10 * acc + 0) l
  | Decimal.D1 l => uint_value (10 * acc + 1) l
  | Decimal.D2 l => uint_value (10 * acc + 2) l
  | Decimal.D3 l => uint_value (10 * acc + 3) l
  | Decimal.D4 l => uint_value (10 * acc + 4) l
  | Decimal.D5 l => uint_value (10 * acc + 5) l
  | Decimal.D6 l => uint_value (10 * acc + 6) l
  | Decimal.D7 l => uint_value (10 * acc + 7) l
  | Decimal.D8 l => uint_value (10 * acc + 8) l
  | Decimal.D9 l => uint_value (10 * acc + 9) l
  end.

(** ** Closing up a text *)

Definition starts_with (m : ascii) (s : string) : bool :=
  match s with
  | String c _ => Str.is_char c m
  | EmptyString => false
  end.

(** The text without the spaces that stand directly in front of [m]. *)
Fixpoint unspace_before (m : ascii) (s : string) : string :=
  match s with
  | EmptyString => EmptyString
  | String c rest =>
      if Str.is_char c " " && starts_with m rest then unspace_before m rest
      else String c (unspace_before m rest)
  end.

Definition has_text (s : string) : bool := negb (s =? "")%string.

(** ** Histories of a wait *)

(** [n] polls of a job that stays in progress: each asks for the status
    and sleeps for [TRANSCRIBE_POLL_SECS]. *)
Fixpoint polls (job_name : string) (n : nat) : history :=
  match n with
  | O => []
  | S k => GetTranscriptionJob job_name :: Sleep (1000 * TRANSCRIBE_POLL_SECS) :: polls job_name k
  end.

Definition is_poll (c : Call) : bool :=
  match c with
  | GetTranscriptionJob _ => true
  | _ => false
  end.

(** The number of status requests in a history. *)
Definition count_polls (h : history) : nat := List.length (filter is_poll h).

Definition timed_out (job_name : string) : exn :=
  TimeoutError ("Transcription job '" ++ job_name ++ "' timed out").

(** ** Candidates and their checks *)

(** The order of a sort key. *)
Definition key_le {A : Type} (key : A -> Z) (a b : A) : Prop := key a <= key b.

Definition by_distance (a b : Location) : Prop :=
  Z.abs (offset_minutes a) <= Z.abs (offset_minutes b).

Definition distance (x : Location) : Z := Z.abs (offset_minutes x).

(** The existence check of a candidate, as it appears in the history. *)
Definition check_of (bucket : string) (x : Location) : Call := HeadObject bucket (loc_key x).

Definition is_check (c : Call) : bool :=
  match c with
  | HeadObject _ _ => true
  | _ => false
  end.

(** The candidate [offset] minutes from [now]. *)
Definition location_at (bucket prefix initial_contact_id : string) (now offset : Z) : Location :=
  location_of bucket prefix initial_contact_id (now + 60 * offset) offset.

(** The checks of the window [W]: a front part of the candidates of the
    window, sorted by distance. *)
Definition window_checks (bucket prefix initial_contact_id : string) (now W : Z)
  (probed : list Location) : Prop :=
  exists s3_uris rest,
    generate_s3_uris_with_time_window bucket prefix initial_contact_id now W = Ok s3_uris
    /\ sort_by distance s3_uris = (probed ++ rest)%list.

(** ** Calls, answers and bounds *)

(** [m] extends the history, and only by calls that satisfy [P]. *)
Definition calls_only {A} (P : Call -> Prop) (m : M A) : Prop :=
  forall h, exists calls, snd (m h) = (h ++ calls)%list /\ Forall P calls.

(** The three calls of a redirect. *)
Definition redirect_calls {FL : PyFloat} (w : World) (bucket key : string) : history :=
  [NewClient "s3" (Some (getenv w "AWS_REGION" "us-east-1"));
   HeadObject bucket key; GeneratePresignedUrl bucket key 3600].

(** The answers of [answer_link] under the catch-all of the handler, with
    the history they leave. *)
Inductive link_answer {FL : PyFloat} (w : World) (bucket key : string) (h : history)
  : Response -> history -> Prop :=
| answer_invalid_expiration : link_answer w bucket key h resp_invalid_expiration h
| answer_expired (date : string) : link_answer w bucket key h (resp_expired date) h
| answer_configuration_error :
    getenv w "SIGNING_SECRET" "" = "" ->
    link_answer w bucket key h resp_configuration_error h
| answer_invalid_signature : link_answer w bucket key h resp_invalid_signature h
| answer_failed_before_store : link_answer w bucket key h resp_failed h
| answer_store (r : Response) (calls rest : history) :
    getenv w "SIGNING_SECRET" "" <> "" ->
    (calls ++ rest)%list = redirect_calls w bucket key ->
    calls <> [] ->
    r = resp_failed \/ r = resp_recording_not_found \/ (exists url, r = resp_redirect url) ->
    link_answer w bucket key h r (h ++ calls)%list.

(** A region that is there and not empty. *)
Definition filled (o : option string) : bool :=
  match o with
  | Some (String _ _) => true
  | _ => false
  end.

(** The offsets of a window of [n] minutes in the order of the search:
    0, -1, 1, -2, 2, ..., -n, n. *)
Definition nearest_first (n : nat) : list Z :=
  0 :: flat_map (fun k => [- k; k]) (map Z.of_nat (seq 1 n)).

(** The calls of a search: existence checks in the bucket and pauses of
    half a second. *)
Definition search_call (bucket : string) (c : Call) : Prop :=
  c = Sleep 500 \/ exists key, c = HeadObject bucket key.

(** The number of existence checks in a history. *)
Definition count_checks (h : history) : nat := List.length (filter is_check h).

(** The most a search over [windows] can cost. *)
Fixpoint checks_bound (windows : list Z) : nat :=
  match windows with
  | [] => 0
  | W :: rest => Z.to_nat (2 * W + 1) + checks_bound rest
  end.

Fixpoint pause_bound (windows : list Z) : Z :=
  match windows with
  | [] => 0
  | W :: rest => (if (W >? 1)%Z then 500 else 0) + pause_bound rest
  end.

(** The calls of a search that finds nothing: the candidates of each
    window in turn, nearest first, and half a second of pause after every
    window but the last. *)
Fixpoint miss_trace (bucket prefix initial_contact_id : string) (now : Z) (windows : list Z)
  : history :=
  match windows with
  | [] => []
  | W :: rest =>
      (map (check_of bucket)
           (map (location_at bucket prefix initial_contact_id now)
                (nearest_first (Z.to_nat W)))
       ++ (if (W >? 1)%Z then [Sleep 500] else [])
       ++ miss_trace bucket prefix initial_contact_id now rest)%list
  end.

(** The store has no object: every existence check is answered 404. *)
Definition store_is_empty {FL : PyFloat} (w : World) : Prop :=
  forall h bucket key,
    exists e, head_object w h bucket key = Raise e /\ has_code e "404" = true.

(** The request that [start_transcription_job] builds. *)
Definition transcribe_request (job_name media_s3_uri mode language : string)
  : TranscribeRequest :=
  let extension := Str.lower (Str.after_last "." media_s3_uri) in
  {| TranscriptionJobName := job_name;
     MediaFileUri := media_s3_uri;
     LanguageCode := language;
     MediaFormat := if existsb (String.eqb extension) supported_formats
                    then Some extension else None;
     Settings := if (mode =? "channel")%string then ChannelIdentification
                 else ShowSpeakerLabels 2 |}.

(** [w] with another transcription service. *)
Definition with_transcribe_service {FL : PyFloat} (w : World)
  (start : history -> TranscribeRequest -> result unit)
  (status : history -> string -> result pyval) : World :=
  {| environ := environ w;
     clock := clock w;
     new_client := new_client w;
     session_region := session_region w;
     head_object := head_object w;
     generate_presigned_url := generate_presigned_url w;
     start_transcription_job_api := start;
     get_transcription_job := status;
     get_object_json := get_object_json w;
     urlopen_json := urlopen_json w;
     send_email := send_email w |}.

Definition conflict : exn :=
  ClientError (Some "ConflictException")
    "An error occurred (ConflictException) when calling the StartTranscriptionJob operation".

(** Asked after the history [h], the service reports the job in
    progress. *)
Definition in_progress_at {FL : PyFloat} (w : World) (job_name : string) (h : history) : Prop :=
  exists response job status,
    get_transcription_job w h job_name = Ok response
    /\ py_getitem response "TranscriptionJob" = Ok job
    /\ py_getitem job "TranscriptionJobStatus" = Ok status
    /\ py_eq_str status "COMPLETED" = false
    /\ py_eq_str status "FAILED" = false.

(** Asked after the history [h], the service reports [job], which has
    ended. *)
Definition ended_at {FL : PyFloat} (w : World) (job_name : string) (h : history)
  (job : pyval) : Prop :=
  exists response status,
    get_transcription_job w h job_name = Ok response
    /\ py_getitem response "TranscriptionJob" = Ok job
    /\ py_getitem job "TranscriptionJobStatus" = Ok status
    /\ py_eq_str status "COMPLETED" || py_eq_str status "FAILED" = true.

(** A call that is neither a mail nor the presigning of a URL. *)
Definition quiet (c : Call) : Prop :=
  match c with
  | SendEmail _ | GeneratePresignedUrl _ _ _ => False
  | _ => True
  end.

(** A block that returns in every case, calls nothing but quiet calls, and
    whose responses have a status of [statuses]. *)
Definition block_reports {FL : PyFloat} {A : Type} (statuses : list Z) (b : Block A) : Prop :=
  forall h, exists r calls,
    b h = (Ok r, (h ++ calls)%list)
    /\ Forall quiet calls
    /\ match r with
       | inl response => In (status_of response) statuses
       | inr _ => True
       end.

(** The mail that the handler sends for the validated request [v]. *)
Definition mail_of (v : Validated) (email : Email) : Prop :=
  FromEmailAddress email = v_email_sender v
  /\ ToAddress email = v_email_recipient v
  /\ Subject email = "Voicemail message from: " ++ v_caller_number v.

(** A character that [quote] leaves in its output: unreserved, or the
    [%] and the hexadecimal digits of an escape. *)
Definition path_safe (c : ascii) : bool := Url.unreserved c || Str.is_char c "%".

(* ================================================================== *)
(** * Part X. Properties of the primitives                            *)
(* ================================================================== *)

(** ** The hash on the test vectors of FIPS 180-4 and RFC 4231 *)

Example sha256_abc :
  Sha256.hex (Sha256.digest (Sha256.encode "abc"))
  = "ba7816bf8f01cfea414140de5dae2223b00361a396177a9cb410ff61f20015ad".
Proof. vm_compute. reflexivity. Qed.

Example sha256_two_blocks :
  Sha256.hex (Sha256.digest
    (Sha256.encode "abcdbcdecdefdefgefghfghighijhijkijkljklmklmnlmnomnopnopq"))
  = "248d6a61d20638b8e5c026930c3e6039a33ce45964ff2167f6ecedd419db06c1".
Proof. vm_compute. reflexivity. Qed.

Example hmac_sha256_rfc4231_case2 :
  Sha256.hexdigest "Jefe" "what do ya want for nothing?"
  = "5bdcc146bf60754e6a042426089575c75a003f089d2739839dec58b964ec3843".
Proof. vm_compute. reflexivity. Qed.

Example hmac_sha256_rfc4231_case6 :
  Sha256.hex (Sha256.hmac (repeat 170 131)
    (Sha256.encode "Test Using Larger Than Block-Size Key - Hash Key First"))
  = "60e431591ee0b67f0d8a26aacbf5b77f8e0bc6213728c5140546040f0ee37f54".
Proof. vm_compute. reflexivity. Qed.

(** ** Strings *)

Lemma append_empty_r (s : string) : s ++ "" = s.
Proof. induction s as [|c s IH]; cbn; [reflexivity | now rewrite IH]. Qed.

Lemma append_assoc (a b c : string) : (a ++ b) ++ c = a ++ (b ++ c).
Proof. induction a as [|x a IH]; cbn; [reflexivity | now rewrite IH]. Qed.

Lemma append_length (a b : string) :
  String.length (a ++ b) = (String.length a + String.length b)%nat.
Proof. induction a as [|x a IH]; cbn; [reflexivity | now rewrite IH]. Qed.

Lemma append_cancel_l (a b c : string) : a ++ b = a ++ c -> b = c.
Proof. induction a as [|x a IH]; cbn; [trivial | intros [= H]; auto]. Qed.

Lemma append_cancel_r (a b c : string) : a ++ c = b ++ c -> a = b.
Proof.
  revert b. induction a as [|x a IH]; intros [|y b] H; cbn in H.
  - reflexivity.
  - apply (f_equal String.length) in H. cbn in H. rewrite append_length in H. lia.
  - apply (f_equal String.length) in H. cbn in H. rewrite append_length in H. lia.
  - injection H as -> H. f_equal. now apply IH.
Qed.

Lemma all_chars_app (p : ascii -> bool) (a b : string) :
  Str.all_chars p (a ++ b) = Str.all_chars p a && Str.all_chars p b.
Proof.
  induction a as [|x a IH]; cbn; [reflexivity|]. rewrite IH. now rewrite andb_assoc.
Qed.

Lemma rev_acc_spec (s acc : string) : Str.rev_acc s acc = Str.rev s ++ acc.
Proof.
  unfold Str.rev. revert acc. induction s as [|c s IH]; intros acc; cbn; [reflexivity|].
  rewrite (IH (String c acc)), (IH (String c "")), append_assoc. reflexivity.
Qed.

Lemma rev_cons (c : ascii) (s : string) : Str.rev (String c s) = Str.rev s ++ String c "".
Proof. unfold Str.rev at 1. cbn. apply rev_acc_spec. Qed.

Lemma rev_app (a b : string) : Str.rev (a ++ b) = Str.rev b ++ Str.rev a.
Proof.
  induction a as [|x a IH]; cbn [append].
  - now rewrite append_empty_r.
  - now rewrite !rev_cons, IH, append_assoc.
Qed.

Lemma rev_involutive (s : string) : Str.rev (Str.rev s) = s.
Proof.
  induction s as [|c s IH]; [reflexivity|].
  rewrite rev_cons, rev_app, IH. reflexivity.
Qed.

Lemma all_chars_rev (p : ascii -> bool) (s : string) :
  Str.all_chars p (Str.rev s) = Str.all_chars p s.
Proof.
  induction s as [|c s IH]; [reflexivity|].
  rewrite rev_cons, all_chars_app, IH. cbn. rewrite andb_true_r. apply andb_comm.
Qed.

Lemma lstrip_by_none (p : ascii -> bool) (s : string) :
  Str.all_chars (fun c => negb (p c)) s = true -> Str.lstrip_by p s = s.
Proof.
  destruct s as [|c s]; cbn; [reflexivity|].
  destruct (p c); cbn; [discriminate | reflexivity].
Qed.

(** What [lstrip] leaves does not start with a character to strip. *)
Lemma lstrip_by_head (p : ascii -> bool) (s : string) (c : ascii) (r : string) :
  Str.lstrip_by p s = String c r -> p c = false.
Proof.
  induction s as [|d s IH]; cbn; [discriminate|].
  destruct (p d) eqn:E; [exact IH | now intros [= <- <-]].
Qed.

(** [lstrip] removes a front part made of characters to strip. *)
Lemma lstrip_by_suffix (p : ascii -> bool) (s : string) :
  exists front, s = front ++ Str.lstrip_by p s /\ Str.all_chars p front = true.
Proof.
  induction s as [|d s IH]; cbn; [exists ""; auto|].
  destruct (p d) eqn:E.
  - destruct IH as (front & H & A). exists (String d front). cbn.
    rewrite E, A, <- H. auto.
  - exists "". auto.
Qed.

(** [rstrip] removes a back part made of characters to strip. *)
Lemma rstrip_by_prefix (p : ascii -> bool) (s : string) :
  exists back, s = Str.rstrip_by p s ++ back /\ Str.all_chars p back = true.
Proof.
  unfold Str.rstrip_by.
  destruct (lstrip_by_suffix p (Str.rev s)) as (front & H & A).
  exists (Str.rev front). rewrite all_chars_rev. split; [|exact A].
  rewrite <- rev_app, <- H. symmetry. apply rev_involutive.
Qed.

(** What [rstrip] leaves does not end with a character to strip. *)
Lemma rstrip_by_last (p : ascii -> bool) (s r : string) (c : ascii) :
  Str.rstrip_by p s = r ++ String c "" -> p c = false.
Proof.
  unfold Str.rstrip_by. intros H.
  apply (f_equal Str.rev) in H. rewrite rev_involutive, rev_app in H.
  cbn in H. now apply lstrip_by_head in H.
Qed.

(** What [strip] leaves has a character to strip neither in front nor at
    the end. *)
Lemma strip_by_ends (p : ascii -> bool) (s : string) :
  (forall c r, Str.strip_by p s = String c r -> p c = false)
  /\ (forall r c, Str.strip_by p s = r ++ String c "" -> p c = false).
Proof.
  unfold Str.strip_by. split.
  - intros c r H.
    destruct (rstrip_by_prefix p (Str.lstrip_by p s)) as (back & E & _).
    rewrite H in E. cbn in E. now apply lstrip_by_head in E.
  - intros r c. apply rstrip_by_last.
Qed.

Lemma startswith_app (p s : string) : Str.startswith p (p ++ s) = true.
Proof.
  unfold Str.startswith. induction p as [|c p IH]; cbn.
  - destruct s; reflexivity.
  - destruct (ascii_dec c c); [exact IH | contradiction].
Qed.

Lemma contains_app (c : ascii) (a b : string) :
  Str.contains c (a ++ b) = Str.contains c a || Str.contains c b.
Proof.
  induction a as [|x a IH]; cbn; [reflexivity|]. now rewrite IH, orb_assoc.
Qed.

Lemma split1_app (c : ascii) (a b : string) :
  Str.contains c a = false -> Str.split1 c (a ++ String c b) = (a, Some b).
Proof.
  induction a as [|x a IH]; cbn.
  - intros _. unfold Str.is_char. now rewrite Ascii.eqb_refl.
  - intros H. apply orb_false_elim in H as [Hx Ha].
    rewrite Hx, (IH Ha). reflexivity.
Qed.

Lemma split1_contains (c : ascii) (s : string) :
  Str.contains c s = true -> exists a b, Str.split1 c s = (a, Some b).
Proof.
  induction s as [|d s IH]; cbn; [discriminate|].
  destruct (Str.is_char c d); cbn; [eauto|].
  intros H. destruct (IH H) as (a & b & ->). eauto.
Qed.

(** ** Decimal numerals *)

Lemma uint_value_acc (d : Decimal.uint) (p : positive) :
  Z.pos (Pos.of_uint_acc d p) = uint_value (Z.pos p) d.
Proof.
  revert p. induction d; intros p; cbn [Pos.of_uint_acc uint_value];
    [reflexivity | rewrite IHd; f_equal; lia ..].
Qed.

Lemma uint_value_of_uint (d : Decimal.uint) : uint_value 0 d = Z.of_uint d.
Proof.
  unfold Z.of_uint.
  induction d; cbn [Pos.of_uint uint_value]; try exact IHd;
    try (cbn [Z.of_N]; rewrite uint_value_acc; reflexivity).
  reflexivity.
Qed.

Lemma parse_digits_numeral (d : Decimal.uint) (prev : bool) (acc : Z) :
  d <> Decimal.Nil \/ prev = true ->
  Str.parse_digits prev acc (DecimalString.NilEmpty.string_of_uint d)
  = Some (uint_value acc d).
Proof.
  revert prev acc. induction d; intros prev acc H;
    cbn [DecimalString.NilEmpty.string_of_uint Str.parse_digits uint_value];
    try (change (Str.digit_value _) with (Some 0)
         || change (Str.digit_value _) with (Some 1)
         || change (Str.digit_value _) with (Some 2)
         || change (Str.digit_value _) with (Some 3)
         || change (Str.digit_value _) with (Some 4)
         || change (Str.digit_value _) with (Some 5)
         || change (Str.digit_value _) with (Some 6)
         || change (Str.digit_value _) with (Some 7)
         || change (Str.digit_value _) with (Some 8)
         || change (Str.digit_value _) with (Some 9));
    try (apply IHd; now right).
  destruct H as [H | ->]; [congruence | reflexivity].
Qed.

Lemma numeral_int_form (d : Decimal.uint) :
  Str.int_form (DecimalString.NilEmpty.string_of_uint d)
  = DecimalString.NilEmpty.string_of_uint d.
Proof.
  induction d; cbn [DecimalString.NilEmpty.string_of_uint Str.int_form];
    [reflexivity | rewrite IHd; reflexivity ..].
Qed.

Lemma numeral_span (d : Decimal.uint) :
  Str.span_numeral (DecimalString.NilEmpty.string_of_uint d)
  = (DecimalString.NilEmpty.string_of_uint d, "").
Proof.
  induction d; cbn [DecimalString.NilEmpty.string_of_uint Str.span_numeral];
    [reflexivity | rewrite IHd; reflexivity ..].
Qed.

Lemma to_uint_nonnil (p : positive) : Pos.to_uint p <> Decimal.Nil.
Proof. apply DecimalPos.Unsigned.to_uint_nonnil. Qed.

(** The numeral of a positive number starts with a digit. *)
Lemma numeral_starts_with_digit (d : Decimal.uint) :
  d <> Decimal.Nil ->
  exists c r, DecimalString.NilEmpty.string_of_uint d = String c r
              /\ Str.is_c_space c = false
              /\ Str.is_char c "-" = false /\ Str.is_char c "+" = false.
Proof.
  destruct d; [congruence | intros _; eexists; eexists; cbn; repeat split ..].
Qed.

Lemma of_Z_pos (p : positive) :
  Str.of_Z (Z.pos p) = DecimalString.NilEmpty.string_of_uint (Pos.to_uint p).
Proof.
  unfold Str.of_Z. cbn [Z.to_int DecimalString.NilZero.string_of_int].
  unfold DecimalString.NilZero.string_of_uint.
  destruct (Pos.to_uint p) eqn:E; try reflexivity.
  exfalso. now apply (to_uint_nonnil p).
Qed.

Lemma of_Z_neg (p : positive) :
  Str.of_Z (Z.neg p) = String "-" (DecimalString.NilEmpty.string_of_uint (Pos.to_uint p)).
Proof.
  unfold Str.of_Z. cbn [Z.to_int DecimalString.NilZero.string_of_int].
  unfold DecimalString.NilZero.string_of_uint.
  destruct (Pos.to_uint p) eqn:E; try reflexivity.
  exfalso. now apply (to_uint_nonnil p).
Qed.

Lemma of_uint_to_uint (p : positive) : Z.of_uint (Pos.to_uint p) = Z.pos p.
Proof. exact (DecimalZ.of_to (Z.pos p)). Qed.

(** [int(str(n)) == n], for an integer Python writes *)
Lemma to_int_of_Z (n : Z) : Str.fits n = true -> Str.to_int (Str.of_Z n) = Ok n.
Proof.
  unfold Str.fits. intros Hfits. apply Nat.leb_le in Hfits.
  destruct n as [|p|p].
  - reflexivity.
  - rewrite of_Z_pos in *. unfold Str.to_int. rewrite numeral_int_form.
    destruct (numeral_starts_with_digit _ (to_uint_nonnil p)) as (c & r & E & Hd & Hm & Hp).
    rewrite E. cbn [Str.lstrip_by]. rewrite Hd, Hm, Hp, <- E.
    rewrite numeral_span.
    rewrite parse_digits_numeral by (left; apply to_uint_nonnil).
    destruct (Nat.ltb_spec Str.max_str_digits
                (Str.count_digits (DecimalString.NilEmpty.string_of_uint (Pos.to_uint p))));
      [lia|].
    cbn [Str.all_chars]. now rewrite uint_value_of_uint, of_uint_to_uint.
  - rewrite of_Z_neg in *. unfold Str.to_int.
    cbn [Str.int_form]. rewrite numeral_int_form.
    change (Str.int_char "-") with "-"%char.
    cbn [Str.lstrip_by]. change (Str.is_c_space "-") with false. cbn iota.
    change (Str.is_char "-" "-") with true. cbn iota.
    rewrite numeral_span.
    rewrite parse_digits_numeral by (left; apply to_uint_nonnil).
    change (Str.count_digits (String "-" ?x)) with (Str.count_digits x) in Hfits.
    destruct (Nat.ltb_spec Str.max_str_digits
                (Str.count_digits (DecimalString.NilEmpty.string_of_uint (Pos.to_uint p))));
      [cbn [Str.count_digits] in Hfits; change (Str.digit_value "-") with (@None Z) in Hfits; lia|].
    cbn [Str.all_chars]. now rewrite uint_value_of_uint, of_uint_to_uint.
Qed.

Lemma of_Z_nonempty (n : Z) : Str.of_Z n <> "".
Proof.
  destruct n as [|p|p]; [discriminate | | rewrite of_Z_neg; discriminate].
  rewrite of_Z_pos.
  destruct (numeral_starts_with_digit _ (to_uint_nonnil p)) as (c & r & E & _).
  rewrite E. discriminate.
Qed.

(** ** URL quoting *)

Lemma unquote_quote_step (c : ascii) (s : string) :
  Url.unquote (Url.quote (String c s)) = String c (Url.unquote (Url.quote s)).
Proof. destruct c as [[] [] [] [] [] [] [] []]; reflexivity. Qed.

(** [unquote(quote(s, safe='')) == s] *)
Lemma unquote_quote (s : string) : Url.unquote (Url.quote s) = s.
Proof.
  induction s as [|c s IH]; [reflexivity|].
  now rewrite unquote_quote_step, IH.
Qed.

(* ================================================================== *)
(** * Part XI. Signed links                                           *)
(* ================================================================== *)

Section SigningProperties.
Context {FL : PyFloat} {HM : Hmac}.

Lemma lower_hex_isascii (s : string) :
  Str.all_chars Str.is_lower_hex s = true -> Str.isascii s = true.
Proof.
  induction s as [|c s IH]; cbn [Str.all_chars Str.isascii]; [trivial|].
  intros H. apply andb_prop in H as [Hc Hs]. rewrite (IH Hs), andb_true_r.
  apply Nat.ltb_lt. unfold Str.is_lower_hex in Hc.
  apply orb_prop in Hc as [H | H]; apply andb_prop in H as [_ H];
    apply Nat.leb_le in H; lia.
Qed.

Lemma hexdigest_isascii (key msg : string) :
  Str.isascii (hmac_sha256_hexdigest key msg) = true.
Proof. apply lower_hex_isascii, hexdigest_lower_hex. Qed.

Lemma hexdigest_nonempty (key msg : string) : hmac_sha256_hexdigest key msg <> "".
Proof.
  intros H. pose proof (hexdigest_length key msg) as L. rewrite H in L. discriminate.
Qed.

Lemma compare_digest_same (s : string) :
  Str.isascii s = true -> compare_digest s s = Ok true.
Proof. intros H. unfold compare_digest. now rewrite H, String.eqb_refl. Qed.

Lemma compare_digest_different (a b : string) :
  Str.isascii a = true -> Str.isascii b = true -> a <> b -> compare_digest a b = Ok false.
Proof.
  intros Ha Hb Hab. unfold compare_digest. rewrite Ha, Hb. cbn.
  destruct (String.eqb_spec a b); [contradiction | reflexivity].
Qed.

(** The signature of a message verifies against the same fields and the
    same secret. *)
Lemma verify_own_signature (bucket key expires secret_key : string) :
  verify_signature bucket key expires
    (hmac_sha256_hexdigest secret_key (signed_message bucket key expires)) secret_key
  = Ok true.
Proof. apply compare_digest_same, hexdigest_isascii. Qed.

(** Changing one field of the triple changes the signed message. *)
Lemma signed_message_one_field (bucket key expires bucket' key' expires' : string) :
  one_field_changed bucket key expires bucket' key' expires' ->
  signed_message bucket key expires <> signed_message bucket' key' expires'.
Proof.
  unfold signed_message.
  intros [(Hb & <- & <-) | [(<- & Hk & <-) | (<- & <- & He)]] H.
  - apply append_cancel_r in H. contradiction.
  - apply append_cancel_l in H. injection H as H.
    apply append_cancel_r in H. contradiction.
  - apply append_cancel_l in H. injection H as H.
    apply append_cancel_l in H. injection H as H. contradiction.
Qed.

Lemma to_int_raises (s : string) (e : exn) :
  Str.to_int s = Raise e -> exists m, e = ValueError m.
Proof.
  unfold Str.to_int.
  repeat match goal with
         | |- context [match ?x with (_, _) => _ end] => destruct x
         end.
  destruct (Str.parse_digits _ _ _); [|intros [= <-]; eauto].
  destruct (_ <? _)%nat; [intros [= <-]; eauto|].
  destruct (Str.all_chars _ _); [discriminate | intros [= <-]; eauto].
Qed.

Lemma to_int_ok_nonempty (s : string) (n : Z) : Str.to_int s = Ok n -> s <> "".
Proof. intros H ->. discriminate. Qed.

Variable w : World.

(** ** The expiry check *)

Lemma check_expiration_malformed (expires : string) (e : exn) (h : history) :
  Str.to_int expires = Raise e ->
  check_expiration w expires h = (Ok (Some resp_invalid_expiration), h).
Proof.
  intros H. destruct (to_int_raises _ _ H) as [m ->].
  unfold check_expiration, try_except, bind, lift. now rewrite H.
Qed.

Lemma check_expiration_valid (expires : string) (n : Z) (h : history) :
  Str.to_int expires = Ok n -> clock w h <= n ->
  check_expiration w expires h = (Ok None, h).
Proof.
  intros H Hn. unfold check_expiration, try_except, bind, lift, now, ret. rewrite H.
  destruct (Z.gtb_spec (clock w h) n); [lia | reflexivity].
Qed.

(** ** The handler on a well-formed request *)

Lemma append_slash_nonempty (a b : string) : (a ++ String "/" b =? "")%string = false.
Proof. destruct a; reflexivity. Qed.

(** A request for [/voicemail/{bucket}/{key_encoded}] that carries both
    parameters is answered by [answer_link]. *)
Lemma handle_url_event (bucket key_encoded expires signature : string)
  (query : list (string * string)) (h : history) :
  Str.contains "/" bucket = false ->
  query_get "expires" query = Some expires -> expires <> "" ->
  query_get "signature" query = Some signature -> signature <> "" ->
  handle_url_generation w (url_event bucket key_encoded query) h
  = try_except (answer_link w bucket (Url.unquote key_encoded) expires signature)
      (fun _ => Some (ret resp_failed)) h.
Proof.
  intros Hb He He' Hs Hs'.
  unfold handle_url_generation, url_event. cbn [rawPath queryStringParameters].
  set (rest := bucket ++ "/" ++ key_encoded).
  rewrite startswith_app.
  change (Str.drop 11 ("/voicemail/" ++ rest)) with rest.
  cbn [negb]. subst rest.
  change (bucket ++ "/" ++ key_encoded) with (bucket ++ String "/" key_encoded).
  rewrite append_slash_nonempty, contains_app, Hb.
  change (Str.contains "/" (String "/" key_encoded)) with true.
  cbn [orb negb]. rewrite split1_app by exact Hb.
  rewrite He, Hs. unfold falsy.
  destruct (String.eqb_spec expires ""); [contradiction|].
  destruct (String.eqb_spec signature ""); [contradiction|].
  reflexivity.
Qed.

(** The same for a bucket of any shape: the handler takes the text before
    the first [/] for the bucket. *)
Lemma handle_url_request (bucket key_encoded expires signature : string)
  (query : list (string * string)) (h : history) :
  query_get "expires" query = Some expires -> expires <> "" ->
  query_get "signature" query = Some signature -> signature <> "" ->
  exists bucket' key',
    handle_url_generation w (url_event bucket key_encoded query) h
    = try_except (answer_link w bucket' key' expires signature)
        (fun _ => Some (ret resp_failed)) h.
Proof.
  intros He He' Hs Hs'.
  unfold handle_url_generation, url_event. cbn [rawPath queryStringParameters].
  set (rest := bucket ++ "/" ++ key_encoded).
  rewrite startswith_app.
  change (Str.drop 11 ("/voicemail/" ++ rest)) with rest.
  cbn [negb]. subst rest.
  change (bucket ++ "/" ++ key_encoded) with (bucket ++ String "/" key_encoded).
  assert (Hc : Str.contains "/" (bucket ++ String "/" key_encoded) = true).
  { rewrite contains_app. change (Str.contains "/" (String "/" key_encoded)) with true.
    apply orb_true_r. }
  rewrite append_slash_nonempty, Hc. cbn [orb negb].
  destruct (split1_contains _ _ Hc) as (a & b & ->).
  rewrite He, Hs. unfold falsy.
  destruct (String.eqb_spec expires ""); [contradiction|].
  destruct (String.eqb_spec signature ""); [contradiction|].
  cbn [orb]. eauto.
Qed.

(** ** What [answer_link] answers *)

Lemma answer_link_malformed (bucket key expires signature : string) (e : exn) (h : history) :
  Str.to_int expires = Raise e ->
  answer_link w bucket key expires signature h = (Ok resp_invalid_expiration, h).
Proof.
  intros H. unfold answer_link, bind. now rewrite (check_expiration_malformed _ _ _ H).
Qed.

Lemma fromtimestamp_shown (n : Z) :
  Datetime.shown n = true -> Datetime.fromtimestamp n = Ok n.
Proof. intros H. unfold Datetime.fromtimestamp. now rewrite H. Qed.

Lemma passed_answer_shown (n : Z) :
  Datetime.shown n = true -> passed_answer n = resp_expired (Datetime.strftime_utc n).
Proof. intros H. unfold passed_answer. now rewrite (fromtimestamp_shown n H). Qed.


(** The handler on an [expires] the clock has passed. *)
Lemma answer_link_passed (bucket key expires signature : string) (n : Z) (h : history) :
  Str.to_int expires = Ok n -> n < clock w h ->
  try_except (answer_link w bucket key expires signature) (fun _ => Some (ret resp_failed)) h
  = (Ok (passed_answer n), h).
Proof.
  intros H Hn.
  unfold answer_link, check_expiration, try_except, bind, lift, now, ret, passed_answer.
  rewrite H. destruct (Z.gtb_spec (clock w h) n); [|lia].
  destruct (Datetime.fromtimestamp n) as [dt|[]]; reflexivity.
Qed.

Lemma answer_link_mismatch (bucket key expires signature : string) (n : Z) (h : history) :
  Str.to_int expires = Ok n -> clock w h <= n ->
  getenv w "SIGNING_SECRET" "" <> "" ->
  verify_signature bucket key expires signature (getenv w "SIGNING_SECRET" "") = Ok false ->
  answer_link w bucket key expires signature h = (Ok resp_invalid_signature, h).
Proof.
  intros H Hn Hsecret Hv. unfold answer_link, bind.
  rewrite (check_expiration_valid _ _ _ H Hn).
  destruct (String.eqb_spec (getenv w "SIGNING_SECRET" "") ""); [contradiction|].
  unfold lift. now rewrite Hv.
Qed.

Lemma answer_link_verified (bucket key expires signature : string) (n : Z) (h : history) :
  Str.to_int expires = Ok n -> clock w h <= n ->
  getenv w "SIGNING_SECRET" "" <> "" ->
  verify_signature bucket key expires signature (getenv w "SIGNING_SECRET" "") = Ok true ->
  answer_link w bucket key expires signature h = redirect_to_object w bucket key h.
Proof.
  intros H Hn Hsecret Hv. unfold answer_link, bind.
  rewrite (check_expiration_valid _ _ _ H Hn).
  destruct (String.eqb_spec (getenv w "SIGNING_SECRET" "") ""); [contradiction|].
  unfold lift. rewrite Hv. cbn [negb].
  destruct (redirect_to_object w bucket key h) as [[r|e] h']; reflexivity.
Qed.

End SigningProperties.

(** The object store part answers with a redirect, with a 404 or with an
    exception; never with a 403. *)
Lemma redirect_to_object_answers {FL : PyFloat} (w : World) (bucket key : string) (h : history) :
  (exists h', redirect_to_object w bucket key h = (Ok resp_recording_not_found, h'))
  \/ (exists url h', redirect_to_object w bucket key h = (Ok (resp_redirect url), h'))
  \/ (exists e h', redirect_to_object w bucket key h = (Raise e, h')).
Proof.
  unfold redirect_to_object, bind, call, try_except, ret.
  destruct (new_client w h "s3" _) as [r|e]; [|eauto 6].
  destruct (head_object w _ bucket key) as [[]|e].
  - destruct (generate_presigned_url w _ bucket key 3600) as [url|e]; eauto 6.
  - destruct (has_code e "404"); eauto 6.
Qed.

Section NonInterference.
Context {FL : PyFloat} {HM : Hmac}.
Variables w1 w2 : World.
Hypothesis same : same_but_store w1 w2.

Lemma same_getenv (name default : string) : getenv w1 name default = getenv w2 name default.
Proof. unfold getenv. destruct same as [E _]. now rewrite E. Qed.

Lemma same_check_expiration (expires : string) (h : history) :
  check_expiration w1 expires h = check_expiration w2 expires h.
Proof.
  unfold check_expiration, try_except, bind, lift, now, ret.
  destruct same as [_ C]. now rewrite C.
Qed.

Lemma check_expiration_history (w : World) (expires : string) (h : history) :
  snd (check_expiration w expires h) = h.
Proof.
  unfold check_expiration, try_except, bind, lift, now, ret.
  destruct (Str.to_int expires) as [n|[]]; try reflexivity.
  destruct (clock w h >? n)%Z; [|reflexivity].
  destruct (Datetime.fromtimestamp n) as [t|[]]; reflexivity.
Qed.

(** Either the answer is settled without the store, and is the same in the
    two worlds, or the signature has verified and the store is asked. *)
Lemma answer_link_dichotomy (bucket key expires signature : string) (h : history) :
  (exists r, answer_link w1 bucket key expires signature h = (r, h)
             /\ answer_link w2 bucket key expires signature h = (r, h))
  \/ (verify_signature bucket key expires signature (getenv w1 "SIGNING_SECRET" "") = Ok true
      /\ answer_link w1 bucket key expires signature h = redirect_to_object w1 bucket key h
      /\ answer_link w2 bucket key expires signature h = redirect_to_object w2 bucket key h).
Proof.
  unfold answer_link, bind.
  rewrite <- same_check_expiration, <- same_getenv.
  pose proof (check_expiration_history w1 expires h) as Hh.
  destruct (check_expiration w1 expires h) as [[[response|]|e] h0]; cbn in Hh; subst h0.
  - left. eexists. split; reflexivity.
  - destruct (getenv w1 "SIGNING_SECRET" "" =? "")%string; [left; eexists; split; reflexivity|].
    unfold lift.
    destruct (verify_signature bucket key expires signature _) as [[|]|e].
    + right. cbn [negb]. split; [reflexivity|]. split.
      * now destruct (redirect_to_object w1 bucket key h) as [[|] ?].
      * now destruct (redirect_to_object w2 bucket key h) as [[|] ?].
    + left. eexists. split; reflexivity.
    + left. eexists. split; reflexivity.
  - left. eexists. split; reflexivity.
Qed.

(** The same for the whole handler. *)
Lemma handle_url_generation_dichotomy (event : UrlEvent) (h : history) :
  (exists r, handle_url_generation w1 event h = (Ok r, h)
             /\ handle_url_generation w2 event h = (Ok r, h))
  \/ (exists bucket key expires signature,
        verify_signature bucket key expires signature (getenv w1 "SIGNING_SECRET" "") = Ok true
        /\ handle_url_generation w1 event h
           = try_except (redirect_to_object w1 bucket key) (fun _ => Some (ret resp_failed)) h
        /\ handle_url_generation w2 event h
           = try_except (redirect_to_object w2 bucket key) (fun _ => Some (ret resp_failed)) h).
Proof.
  unfold handle_url_generation.
  destruct (negb (Str.startswith "/voicemail/" _)); [left; eexists; split; reflexivity|].
  destruct (_ || _); [left; eexists; split; reflexivity|].
  destruct (Str.split1 "/" _) as [bucket rest].
  destruct (falsy _ || falsy _); [left; eexists; split; reflexivity|].
  match goal with
  | |- context [answer_link w1 ?b ?k ?e ?s] =>
      destruct (answer_link_dichotomy b k e s h) as [(r & H1 & H2) | (V & H1 & H2)];
      [left | right; exists b, k, e, s]
  end.
  - unfold try_except. rewrite H1, H2. destruct r as [r|e]; eexists; split; reflexivity.
  - unfold try_except in *. rewrite H1, H2. auto.
Qed.

(** An answer with status 403 was settled without the store. *)
Lemma forbidden_without_store (event : UrlEvent) (h : history) :
  answered (handle_url_generation w1 event h) = Some 403 ->
  handle_url_generation w2 event h = handle_url_generation w1 event h
  /\ snd (handle_url_generation w1 event h) = h.
Proof.
  intros H.
  destruct (handle_url_generation_dichotomy event h)
    as [(r & H1 & H2) | (b & k & e & s & _ & H1 & _)].
  - rewrite H1, H2. auto.
  - exfalso. rewrite H1 in H. unfold answered, try_except, ret in H.
    destruct (redirect_to_object_answers w1 b k h)
      as [(h' & E) | [(url & h' & E) | (x & h' & E)]]; rewrite E in H; discriminate.
Qed.

End NonInterference.



Example issued_link_redirects :
  fst (handle_url_generation demo_world
         (link_request "connect-bucket" demo_key "1705053900"
            (hmac_sha256_hexdigest demo_secret
               (signed_message "connect-bucket" demo_key "1705053900"))) [])
  = Ok (resp_redirect
          ("https://connect-bucket.s3.amazonaws.com/" ++ demo_key ++ "?X-Amz-Expires=3600")).
Proof. vm_compute. reflexivity. Qed.

(** C2, as stated, fails: the expiry of an issued link is changed to a
    time in the past and the signature kept; the handler answers 403
    "expired", not 403 "Invalid signature", because it looks at the expiry
    first. *)
Lemma tampered_expiry_reported_expired :
  let signature :=
    hmac_sha256_hexdigest demo_secret
      (signed_message "connect-bucket" demo_key "1705053900") in
  one_field_changed "connect-bucket" demo_key "1705053900" "connect-bucket" demo_key "5"
  /\ handle_url_generation demo_world
       (link_request "connect-bucket" demo_key "5" signature) []
     = (Ok (resp_expired "1970-01-01 00:00:05 UTC"), [])
  /\ resp_expired "1970-01-01 00:00:05 UTC" <> resp_invalid_signature.
Proof.
  intros signature. split; [|split].
  - right. right. repeat split. discriminate.
  - vm_compute. reflexivity.
  - discriminate.
Qed.

(** C2, amended.  One of bucket, key and expires of an issued link is
    changed and the signature kept.  Unless HMAC-SHA256 gives the changed
    text [{bucket}:{key}:{expires}] the value it gave the text that was
    signed, [verify_signature] returns false.  The handler, which looks at
    [expires] first, answers the changed request without a call to the
    object store: with 400 "Invalid expiration timestamp" when [expires]
    is no integer for [int]; when it is an integer the clock has passed,
    with 403 "expired" and its date (400 or 500 where [datetime] does not
    accept it); with 500 when no secret is configured; and with
    403 "Invalid signature" in every other case.  The key of the request
    is what [unquote] reads in the path, within the characters of the
    model. *)
Theorem tampered_link_is_refused {FL : PyFloat} {HM : Hmac}
  (w : World) (bucket key expires bucket' key' expires' secret_key : string) :
  let signature :=
    hmac_sha256_hexdigest secret_key (bucket ++ ":" ++ key ++ ":" ++ expires) in
  one_field_changed bucket key expires bucket' key' expires' ->
  (bucket' ++ ":" ++ key' ++ ":" ++ expires' <> bucket ++ ":" ++ key ++ ":" ++ expires ->
   hmac_sha256_hexdigest secret_key (bucket' ++ ":" ++ key' ++ ":" ++ expires') <> signature) ->
  bucket' ++ ":" ++ key' ++ ":" ++ expires' <> bucket ++ ":" ++ key ++ ":" ++ expires
  /\ verify_signature bucket' key' expires' signature secret_key = Ok false
  /\ forall (key_encoded : string) (query : list (string * string)) (h : history),
       Url.in_range key_encoded = true -> Url.unquote key_encoded = key' ->
       Str.contains "/" bucket' = false ->
       query_get "expires" query = Some expires' -> expires' <> "" ->
       query_get "signature" query = Some signature ->
       getenv w "SIGNING_SECRET" "" = secret_key ->
       handle_url_generation w (url_event bucket' key_encoded query) h
       = (Ok match Str.to_int expires' with
             | Raise _ => resp_invalid_expiration
             | Ok n =>
                 if (clock w h >? n)%Z then passed_answer n
                 else if (secret_key =? "")%string then resp_configuration_error
                 else resp_invalid_signature
             end, h).
Proof.
  intros signature Hchanged Hcollision.
  assert (Hm : bucket' ++ ":" ++ key' ++ ":" ++ expires'
               <> bucket ++ ":" ++ key ++ ":" ++ expires).
  { intros E. symmetry in E. revert E. now apply signed_message_one_field. }
  assert (Hv : verify_signature bucket' key' expires' signature secret_key = Ok false).
  { unfold verify_signature. apply compare_digest_different; try apply hexdigest_isascii.
    intros E. apply (Hcollision Hm). now symmetry. }
  split; [exact Hm|]. split; [exact Hv|].
  intros key_encoded query h _ Hk Hb He He' Hs Henv.
  rewrite (handle_url_event w bucket' key_encoded expires' signature query h Hb He He'
             Hs (hexdigest_nonempty _ _)).
  destruct (Str.to_int expires') as [n|e] eqn:Hn.
  - destruct (Z.gtb_spec (clock w h) n) as [Hp | Hp].
    + apply (answer_link_passed w bucket' _ expires' signature n h Hn). lia.
    + unfold try_except, answer_link, bind.
      rewrite (check_expiration_valid w expires' n h Hn Hp), Henv.
      destruct (secret_key =? "")%string; [reflexivity|].
      unfold lift. now rewrite Hk, Hv.
  - unfold try_except. now rewrite (answer_link_malformed w bucket' _ expires' signature e h Hn).
Qed.

(** C2 amended, at work: the bucket of a link is changed. *)
Lemma tampered_link_is_refused_witness :
  let signature :=
    hmac_sha256_hexdigest demo_secret
      ("connect-bucket" ++ ":" ++ demo_key ++ ":" ++ "1705053900") in
  one_field_changed "connect-bucket" demo_key "1705053900" "other-bucket" demo_key "1705053900"
  /\ hmac_sha256_hexdigest demo_secret ("other-bucket" ++ ":" ++ demo_key ++ ":" ++ "1705053900")
     <> signature
  /\ verify_signature "other-bucket" demo_key "1705053900" signature demo_secret = Ok false
  /\ handle_url_generation demo_world
       (link_request "other-bucket" demo_key "1705053900" signature) []
     = (Ok resp_invalid_signature, []).
Proof.
  intros signature.
  assert (Hc : one_field_changed "connect-bucket" demo_key "1705053900"
                 "other-bucket" demo_key "1705053900")
    by (left; repeat split; discriminate).
  assert (Hd : hmac_sha256_hexdigest demo_secret
                 ("other-bucket" ++ ":" ++ demo_key ++ ":" ++ "1705053900") <> signature)
    by (vm_compute; discriminate).
  split; [exact Hc|]. split; [exact Hd|].
  destruct (@tampered_link_is_refused decimal_floats hmac_sha256 demo_world
              "connect-bucket" demo_key "1705053900"
              "other-bucket" demo_key "1705053900" demo_secret Hc (fun _ => Hd))
    as (_ & Hv & Hh).
  split; [exact Hv|].
  exact (Hh (Url.quote demo_key) [("expires", "1705053900"); ("signature", signature)] []
            eq_refl (unquote_quote demo_key) eq_refl eq_refl
            ltac:(discriminate) eq_refl eq_refl).
Defined.

(** C3, as stated, fails: a negative integer is a timestamp for the
    handler; it lies before the current time and the answer is
    403 "expired", not 400 "Invalid expiration timestamp". *)
Lemma negative_expiry_reported_expired :
  let signature :=
    hmac_sha256_hexdigest demo_secret (signed_message "connect-bucket" demo_key "-5") in
  Str.to_int "-5" = Ok (-5)
  /\ handle_url_generation demo_world
       (link_request "connect-bucket" demo_key "-5" signature) []
     = (Ok (resp_expired "1969-12-31 23:59:55 UTC"), [])
  /\ resp_expired "1969-12-31 23:59:55 UTC" <> resp_invalid_expiration.
Proof.
  intros signature. split; [reflexivity|]. split; [vm_compute; reflexivity | discriminate].
Qed.

(** C3, amended.  On a request for [/voicemail/{bucket}/{key}] that
    carries both parameters: when [expires] is no integer for [int]
    ([int(expires)] raises [ValueError]), the answer is 400 "Invalid
    expiration timestamp", before the signature is looked at and without a
    call to the object store.  A negative integer is an integer for
    [int]: with a clock that is not negative it lies in the past, and the
    answer is 403 "expired" with the date it stands for when [datetime]
    accepts it, which it does from -62135510400 (0001-01-02) on; below
    that the answer is 400 "Invalid expiration timestamp" when [datetime]
    raises [ValueError] and 500 when it raises another exception. *)
Theorem malformed_expiry_is_bad_request {FL : PyFloat} {HM : Hmac}
  (w : World) (bucket key_encoded expires signature : string)
  (query : list (string * string)) (h : history) :
  query_get "expires" query = Some expires -> expires <> "" ->
  query_get "signature" query = Some signature -> signature <> "" ->
  let answer := handle_url_generation w (url_event bucket key_encoded query) h in
  (forall e, Str.to_int expires = Raise e -> answer = (Ok resp_invalid_expiration, h))
  /\ (forall n, Str.to_int expires = Ok n -> n < 0 -> 0 <= clock w h ->
        answer = (Ok (passed_answer n), h)
        /\ (-62135510400 <= n -> passed_answer n = resp_expired (Datetime.strftime_utc n))
        /\ (n < -62135510400 ->
            exists e,
              Datetime.fromtimestamp n = Raise e
              /\ passed_answer n
                 = match e with
                   | ValueError _ => resp_invalid_expiration
                   | _ => resp_failed
                   end))
  /\ (forall n, n < 0 -> Str.fits n = true -> Str.to_int (Str.of_Z n) = Ok n).
Proof.
  intros He He' Hs Hs' answer. unfold answer.
  destruct (handle_url_request w bucket key_encoded expires signature query h He He' Hs Hs')
    as (b & k & ->).
  split; [|split].
  - intros e H. unfold try_except.
    now rewrite (answer_link_malformed w b k expires signature e h H).
  - intros n H Hn Hc. split; [|split].
    + apply (answer_link_passed w b k expires signature n h H). lia.
    + intros Hlow. apply passed_answer_shown.
      unfold Datetime.shown, Datetime.min_timestamp, Datetime.max_timestamp,
        Datetime.max_fold_seconds.
      apply andb_true_intro. split; apply Z.leb_le; lia.
    + intros Hlow. unfold passed_answer.
      assert (Hh : Datetime.shown n = false).
      { unfold Datetime.shown, Datetime.min_timestamp, Datetime.max_fold_seconds.
        apply andb_false_intro1. apply Z.leb_gt. lia. }
      unfold Datetime.fromtimestamp. rewrite Hh.
      destruct (negb _); [eexists; split; reflexivity|].
      destruct (negb _); [eexists; split; reflexivity|].
      destruct (negb _); eexists; split; reflexivity.
  - intros n _ Hfits. now apply to_int_of_Z.
Qed.

(** C3 amended, at work: ["12.5"] is no integer, ["-5"] is one. *)
Lemma malformed_expiry_is_bad_request_witness :
  (exists e, Str.to_int "12.5" = Raise e)
  /\ handle_url_generation demo_world
       (url_event "connect-bucket" "k.wav" [("expires", "12.5"); ("signature", "00")]) []
     = (Ok resp_invalid_expiration, [])
  /\ handle_url_generation demo_world
       (url_event "connect-bucket" "k.wav" [("expires", "-5"); ("signature", "00")]) []
     = (Ok (resp_expired "1969-12-31 23:59:55 UTC"), []).
Proof.
  split; [eexists; reflexivity|]. split.
  - refine (proj1 (@malformed_expiry_is_bad_request decimal_floats hmac_sha256
                     demo_world "connect-bucket" "k.wav"
                     "12.5" "00" [("expires", "12.5"); ("signature", "00")] []
                     eq_refl _ eq_refl _) _ eq_refl); discriminate.
  - assert (H0 : 0 <= clock demo_world []) by (vm_compute; discriminate).
    destruct (proj1 (proj2 (@malformed_expiry_is_bad_request decimal_floats hmac_sha256
                              demo_world "connect-bucket" "k.wav"
                              "-5" "00" [("expires", "-5"); ("signature", "00")] []
                              eq_refl ltac:(discriminate) eq_refl ltac:(discriminate)))
                (-5) eq_refl ltac:(lia) H0) as (E & Hshown & _).
    rewrite (Hshown ltac:(lia)) in E. exact E.
Defined.

(** C9. A request whose signature does not verify is answered the same
    whether or not the object exists.  For two worlds that differ only in
    their object store: an answer with status 403 (signature mismatch or
    expiry) is the same in both and is given without any call (the history
    is unchanged); a request that gets as far as the signature check
    with a signature that does not verify is answered 403 "Invalid
    signature" in both; and on every request, the store is asked only
    after the signature has verified: before that the two worlds give the
    same answer without a call. *)
Theorem rejection_hides_the_object {FL : PyFloat} {HM : Hmac}
  (w1 w2 : World) (event : UrlEvent) (h : history) :
  same_but_store w1 w2 ->
  (answered (handle_url_generation w1 event h) = Some 403 ->
   handle_url_generation w2 event h = handle_url_generation w1 event h
   /\ snd (handle_url_generation w1 event h) = h)
  /\ (forall (bucket key_encoded expires signature : string)
        (query : list (string * string)) (n : Z),
        event = url_event bucket key_encoded query ->
        Str.contains "/" bucket = false ->
        query_get "expires" query = Some expires ->
        query_get "signature" query = Some signature -> signature <> "" ->
        Str.to_int expires = Ok n -> clock w1 h <= n ->
        getenv w1 "SIGNING_SECRET" "" <> "" ->
        verify_signature bucket (Url.unquote key_encoded) expires signature
          (getenv w1 "SIGNING_SECRET" "") = Ok false ->
        handle_url_generation w1 event h = (Ok resp_invalid_signature, h)
        /\ handle_url_generation w2 event h = (Ok resp_invalid_signature, h))
  /\ ((exists r, handle_url_generation w1 event h = (Ok r, h)
                 /\ handle_url_generation w2 event h = (Ok r, h))
      \/ (exists bucket key expires signature,
            verify_signature bucket key expires signature
              (getenv w1 "SIGNING_SECRET" "") = Ok true
            /\ handle_url_generation w1 event h
               = try_except (redirect_to_object w1 bucket key)
                   (fun _ => Some (ret resp_failed)) h)).
Proof.
  intros Hsame. split; [apply forbidden_without_store; exact Hsame|].
  split;
    [| destruct (handle_url_generation_dichotomy w1 w2 Hsame event h)
         as [H | (b & k & e & s & V & H1 & _)]; [left; exact H | right; exists b, k, e, s; split; assumption]].
  intros bucket key_encoded expires signature query n -> Hb He Hs Hs' Hn Hc Hsecret Hv.
  assert (H1 : handle_url_generation w1 (url_event bucket key_encoded query) h
               = (Ok resp_invalid_signature, h)).
  { rewrite (handle_url_event w1 bucket key_encoded expires signature query h Hb He
               (to_int_ok_nonempty _ _ Hn) Hs Hs').
    unfold try_except.
    now rewrite (answer_link_mismatch w1 bucket _ expires signature n h Hn Hc Hsecret Hv). }
  split; [exact H1|].
  destruct (forbidden_without_store w1 w2 Hsame (url_event bucket key_encoded query) h)
    as [E _]; [now rewrite H1|].
  now rewrite E.
Qed.

(** C9 at work: a forged signature, with the object in the store and with
    the store empty. *)
Lemma rejection_hides_the_object_witness :
  let event := link_request "connect-bucket" demo_key "1705053900"
                 "0000000000000000000000000000000000000000000000000000000000000000" in
  same_but_store demo_world emptied_world
  /\ handle_url_generation demo_world event [] = (Ok resp_invalid_signature, [])
  /\ handle_url_generation emptied_world event [] = (Ok resp_invalid_signature, []).
Proof.
  intros event.
  assert (Hsame : same_but_store demo_world emptied_world) by (split; reflexivity).
  split; [exact Hsame|].
  set (forged := "0000000000000000000000000000000000000000000000000000000000000000").
  assert (Hc : clock demo_world [] <= 1705053900) by (vm_compute; discriminate).
  assert (Hv : verify_signature "connect-bucket" (Url.unquote (Url.quote demo_key))
                 "1705053900" forged (getenv demo_world "SIGNING_SECRET" "") = Ok false)
    by (vm_compute; reflexivity).
  assert (Hs : getenv demo_world "SIGNING_SECRET" "" <> "") by discriminate.
  assert (Hf : forged <> "") by discriminate.
  exact (proj1 (proj2 (rejection_hides_the_object demo_world emptied_world event [] Hsame))
           "connect-bucket" (Url.quote demo_key) "1705053900" forged
           [("expires", "1705053900"); ("signature", forged)] 1705053900
           eq_refl eq_refl eq_refl eq_refl Hf eq_refl Hc Hs Hv).
Defined.

(* ================================================================== *)
(** * Part XII. The transcript preview                                *)
(* ================================================================== *)

(** ** Replacing [" ,"] and [" ."] closes the text up *)

Lemma is_char_eq (c d : ascii) : Str.is_char c d = true <-> c = d.
Proof. unfold Str.is_char. apply Ascii.eqb_eq. Qed.

Lemma prefix_space_mark (m c : ascii) (rest : string) :
  String.prefix (String " " (String m "")) (String c rest)
  = Str.is_char c " " && starts_with m rest.
Proof.
  cbn [String.prefix]. unfold Str.is_char.
  destruct (ascii_dec " " c) as [<-|Hc].
  - rewrite Ascii.eqb_refl. cbn [andb].
    destruct rest as [|d rest]; [reflexivity|].
    cbn [String.prefix starts_with]. unfold Str.is_char.
    destruct (ascii_dec m d) as [<-|Hd].
    + rewrite Ascii.eqb_refl. now destruct rest.
    + symmetry. apply Ascii.eqb_neq. congruence.
  - replace (Ascii.eqb c " ") with false; [reflexivity|].
    symmetry. apply Ascii.eqb_neq. congruence.
Qed.

Lemma replace_space_mark (m : ascii) (s : string) :
  Str.is_char m " " = false ->
  Str.replace (String " " (String m "")) (String m "") s = unspace_before m s.
Proof.
  intros Hm. unfold Str.replace.
  induction s as [|c rest IH]; [reflexivity|].
  cbn [Str.replace_from unspace_before]. rewrite prefix_space_mark.
  destruct (Str.is_char c " " && starts_with m rest) eqn:E.
  - apply andb_prop in E as [_ E]. destruct rest as [|d rest]; [discriminate|].
    cbn [starts_with] in E. apply is_char_eq in E. subst d.
    cbn [String.length Nat.sub Str.replace_from append].
    cbn [Str.replace_from unspace_before] in IH. rewrite prefix_space_mark in IH.
    rewrite Hm in IH. cbn [andb] in IH.
    cbn [unspace_before]. rewrite Hm. cbn [andb]. exact IH.
  - now rewrite IH.
Qed.

Lemma starts_with_unspace (m x : ascii) (s : string) :
  Str.is_char x " " = false -> Str.is_char m " " = false -> Str.is_char m x = false ->
  starts_with x (unspace_before m s) = starts_with x s.
Proof.
  intros Hx Hm Hmx. destruct s as [|c rest]; [reflexivity|].
  cbn [unspace_before starts_with].
  destruct (Str.is_char c " " && starts_with m rest) eqn:E; [|reflexivity].
  apply andb_prop in E as [Ec E]. apply is_char_eq in Ec. subst c.
  destruct rest as [|d rest]; [discriminate|].
  cbn [starts_with] in E. apply is_char_eq in E. subst d.
  cbn [unspace_before starts_with]. rewrite Hm. cbn [andb starts_with].
  rewrite Hmx. symmetry. apply Ascii.eqb_neq. intros <-. discriminate.
Qed.

Lemma unspace_twice (s : string) :
  unspace_before "." (unspace_before "," s) = PreviewSpec.close_up s.
Proof.
  induction s as [|c rest IH]; [reflexivity|].
  cbn [unspace_before PreviewSpec.close_up].
  destruct (Str.is_char c " ") eqn:Ec; cbn [andb].
  - destruct (starts_with "," rest) eqn:Ecomma.
    + replace (PreviewSpec.starts_with_mark rest) with true; [exact IH|].
      destruct rest; [discriminate|]. cbn in *. now rewrite Ecomma.
    + cbn [unspace_before]. rewrite Ec. cbn [andb].
      rewrite starts_with_unspace by reflexivity.
      replace (PreviewSpec.starts_with_mark rest) with (starts_with "." rest).
      * destruct (starts_with "." rest); [exact IH | now rewrite IH].
      * destruct rest; [reflexivity|]. cbn in *. now rewrite Ecomma.
  - cbn [unspace_before]. rewrite Ec. cbn [andb]. now rewrite IH.
Qed.

(** [s.replace(" ,", ",").replace(" .", ".")] removes the space in front
    of every comma and period. *)
Lemma replace_closes_up (s : string) :
  Str.replace " ." "." (Str.replace " ," "," s) = PreviewSpec.close_up s.
Proof.
  rewrite !replace_space_mark by reflexivity. apply unspace_twice.
Qed.

Example close_up_example : PreviewSpec.close_up "hello , world . bye" = "hello, world. bye".
Proof. reflexivity. Qed.

(** ** The channel loop computes the words of the specification *)

Section PreviewProperties.
Context {FL : PyFloat} {TP : Templates}.

Lemma as_strs_map (l : list string) : as_strs (map PStr l) = Ok l.
Proof. induction l as [|s l IH]; cbn; [reflexivity | now rewrite IH]. Qed.

Lemma last_map_PStr (l : list string) (s : string) :
  last (map PStr (l ++ [s])) PNone = @PStr float s.
Proof. rewrite map_app. cbn [map]. apply last_last. Qed.

Lemma removelast_map_PStr (l : list string) (s : string) :
  removelast (map (@PStr float) (l ++ [s])) = map PStr l.
Proof. rewrite map_app. cbn [map]. apply removelast_last. Qed.

(** One token: a word is appended to the list, a punctuation mark to the
    last entry of the list, or to the list when it is empty. *)
Lemma channel_item_word (words : list string) (item : pyval) (t : token) :
  item_is item t -> kind t = WORD ->
  channel_item (map PStr words) item = Ok (map PStr (words ++ [content t])).
Proof.
  intros (d & first & others & -> & Ht & Ha & Hc) Hk. rewrite Hk in Ht.
  unfold channel_item. cbn [py_get py_getitem py_getitem0 rbind].
  rewrite Ht, Ha. cbn [rbind py_getitem0 py_get]. rewrite Hc. cbn [rbind type_name].
  change (py_eq_str (PStr "pronunciation") "pronunciation") with true. cbn iota.
  now rewrite map_app.
Qed.

Lemma channel_item_first_mark (item : pyval) (t : token) :
  item_is item t -> kind t = PUNCTUATION ->
  channel_item [] item = Ok [PStr (content t)].
Proof.
  intros (d & first & others & -> & Ht & Ha & Hc) Hk. rewrite Hk in Ht.
  unfold channel_item. cbn [py_get py_getitem py_getitem0 rbind].
  rewrite Ht, Ha. cbn [rbind py_getitem0 py_get]. rewrite Hc. reflexivity.
Qed.

Lemma channel_item_mark (words : list string) (current : string) (item : pyval) (t : token) :
  item_is item t -> kind t = PUNCTUATION ->
  channel_item (map PStr (words ++ [current])) item
  = Ok (map PStr (words ++ [current ++ content t])).
Proof.
  intros (d & first & others & -> & Ht & Ha & Hc) Hk. rewrite Hk in Ht.
  unfold channel_item. cbn [py_get py_getitem py_getitem0 rbind].
  rewrite Ht, Ha. cbn [rbind py_getitem0 py_get]. rewrite Hc. cbn [rbind type_name].
  change (py_eq_str (PStr "punctuation") "pronunciation") with false.
  change (py_eq_str (PStr "punctuation") "punctuation") with true.
  replace (truthy (PList (map PStr (words ++ [current])))) with true
    by (destruct words; reflexivity).
  cbn [andb]. cbn iota.
  rewrite last_map_PStr, removelast_map_PStr. cbn [py_iadd rbind].
  now rewrite map_app.
Qed.

Lemma channel_loop (items : list pyval) (ts : list token) :
  Forall2 item_is items ts ->
  forall (words : list string) (current : string),
    for_each channel_item (map PStr (words ++ [current])) items
    = Ok (map PStr (words ++ PreviewSpec.words_from current ts)).
Proof.
  induction 1 as [|item t items ts Hitem _ IH]; intros words current; [reflexivity|].
  cbn [for_each PreviewSpec.words_from]. destruct (kind t) eqn:Hk.
  - rewrite (channel_item_word _ _ _ Hitem Hk). cbn [rbind].
    rewrite IH, <- app_assoc. reflexivity.
  - rewrite (channel_item_mark _ _ _ _ Hitem Hk). cbn [rbind]. apply IH.
Qed.

Lemma channel_words (items : list pyval) (ts : list token) :
  Forall2 item_is items ts ->
  for_each channel_item [] items = Ok (map PStr (PreviewSpec.words ts)).
Proof.
  intros H. destruct H as [|item t items ts Hitem Hrest]; [reflexivity|].
  cbn [for_each PreviewSpec.words].
  assert (E : channel_item [] item = Ok (map PStr ([] ++ [content t]))).
  { destruct (kind t) eqn:Hk.
    - exact (channel_item_word [] _ _ Hitem Hk).
    - exact (channel_item_first_mark _ _ Hitem Hk). }
  rewrite E. cbn [rbind]. apply (channel_loop _ _ Hrest []).
Qed.

Lemma normalize_spec (words : list string) :
  normalize words = Str.strip (PreviewSpec.close_up (Str.join " " words)).
Proof. unfold normalize. now rewrite replace_closes_up. Qed.

Lemma channel_text_spec (all_words : list string) (channel : pyval) (ts : list token) :
  channel_is channel ts ->
  channel_text all_words channel
  = Ok (all_words ++ filter has_text [PreviewAmended.channel ts])%list.
Proof.
  intros (d & items & -> & Hitems & Hts).
  unfold channel_text. cbn [py_get]. rewrite Hitems. cbn [rbind py_iter].
  rewrite (channel_words _ _ Hts). cbn [rbind]. rewrite as_strs_map. cbn [rbind].
  rewrite normalize_spec.
  change (Str.strip (PreviewSpec.close_up (Str.join " " (PreviewSpec.words ts))))
    with (PreviewAmended.channel ts).
  cbn [filter]. unfold has_text.
  destruct (negb (PreviewAmended.channel ts =? "")%string); [reflexivity|].
  now rewrite app_nil_r.
Qed.

Lemma channels_loop (channels : list pyval) (streams : list (list token)) :
  Forall2 channel_is channels streams ->
  forall all_words : list string,
    for_each channel_text all_words channels
    = Ok (all_words ++ filter has_text (map PreviewAmended.channel streams))%list.
Proof.
  induction 1 as [|channel ts channels streams Hc _ IH]; intros all_words.
  - cbn. now rewrite app_nil_r.
  - cbn [for_each map]. rewrite (channel_text_spec _ _ _ Hc). cbn [rbind].
    rewrite IH, <- app_assoc. f_equal. f_equal.
    cbn [filter]. now destruct (has_text (PreviewAmended.channel ts)).
Qed.

Lemma build_preview_channel_spec (results : pyval) (streams : list (list token)) (limit : Z) :
  channels_are results streams ->
  _build_preview_channel results limit = Ok (PreviewAmended.preview streams limit).
Proof.
  intros (d & labels & channels & -> & Hl & Hc & Hs).
  unfold _build_preview_channel. cbn [py_get]. rewrite Hl. cbn [rbind py_get].
  rewrite Hc. cbn [rbind py_iter]. rewrite (channels_loop _ _ Hs []). reflexivity.
Qed.

Lemma build_transcription_preview_channel (results : pyval) (streams : list (list token))
  (limit : Z) :
  channels_are results streams ->
  build_transcription_preview results "channel" limit
  = Ok (PreviewAmended.preview streams limit).
Proof.
  intros H. pose proof (build_preview_channel_spec _ _ limit H) as E.
  destruct H as (d & labels & channels & -> & Hl & Hc & Hs).
  unfold build_transcription_preview.
  change ("channel" =? "channel")%string with true. cbn [py_get andb]. rewrite Hl.
  cbn [rbind]. replace (truthy (PDict labels)) with true; [exact E|].
  destruct labels; [discriminate | reflexivity].
Qed.

(** The plainest JSON of token streams is a channel-partitioned result. *)
Lemma results_of_channels_are (streams : list (list token)) :
  channels_are (results_of_channels streams) streams.
Proof.
  unfold results_of_channels. eexists. eexists. eexists.
  split; [reflexivity|]. split; [reflexivity|]. split; [reflexivity|].
  induction streams as [|ts streams IH]; constructor; [|exact IH].
  eexists. eexists. split; [reflexivity|]. split; [reflexivity|].
  clear IH. induction ts as [|t ts IH]; constructor; [|exact IH].
  unfold item_of_token, item_is. eexists. eexists. eexists.
  repeat split; reflexivity.
Qed.

End PreviewProperties.

(** ** Where the code and the words of the specification agree *)

Lemma strip_fixed (s r r' : string) (c c' : ascii) :
  s = String c r -> s = r' ++ String c' "" ->
  Str.isspace c = false -> Str.isspace c' = false -> Str.strip s = s.
Proof.
  intros Hfront Hback Hc Hc'. unfold Str.strip, Str.strip_by.
  assert (Hl : Str.lstrip_by Str.isspace s = s)
    by (rewrite Hfront; cbn [Str.lstrip_by]; now rewrite Hc).
  rewrite Hl. unfold Str.rstrip_by.
  assert (Hr : Str.rev s = String c' (Str.rev r')).
  { rewrite Hback, rev_app. reflexivity. }
  rewrite Hr. cbn [Str.lstrip_by]. rewrite Hc', <- Hr. apply rev_involutive.
Qed.

Lemma last_char (s : string) : s <> "" -> exists r c, s = r ++ String c "".
Proof.
  induction s as [|d s IH]; [congruence|]. intros _.
  destruct s as [|e s].
  - exists "", d. reflexivity.
  - destruct IH as (r & c & E); [discriminate|]. exists (String d r), c. cbn. now rewrite E.
Qed.

(** A tidy text begins and ends with a character that is no white space. *)
Lemma tidy_ends (s : string) :
  tidy s ->
  (exists c r, s = String c r /\ Str.isspace c = false)
  /\ (exists r c, s = r ++ String c "" /\ Str.isspace c = false).
Proof.
  intros [Hne Hs]. destruct (strip_by_ends Str.isspace s) as [Hfront Hback].
  fold (Str.strip s) in Hfront, Hback. rewrite Hs in Hfront, Hback. split.
  - destruct s as [|c r]; [congruence|]. exists c, r. split; [reflexivity | eauto].
  - destruct (last_char s Hne) as (r & c & E). exists r, c. split; [exact E | eauto].
Qed.

Lemma join_tidy (x : string) (l : list string) :
  tidy x -> Forall tidy l -> tidy (Str.join " " (x :: l)).
Proof.
  revert x. induction l as [|y l IH]; intros x Hx Hl; [exact Hx|].
  inversion Hl as [|y' l' Hy Hl']; subst.
  specialize (IH y Hy Hl').
  destruct (tidy_ends x Hx) as [(c & r & Ex & Hc) _].
  destruct (tidy_ends _ IH) as [_ (r' & c' & Ej & Hc')].
  unfold Str.join in *.
  change (String.concat " " (x :: y :: l)) with (x ++ " " ++ String.concat " " (y :: l)).
  set (rest := String.concat " " (y :: l)) in *.
  assert (E1 : x ++ " " ++ rest = String c (r ++ " " ++ rest))
    by (rewrite Ex; reflexivity).
  assert (E2 : x ++ " " ++ rest = (x ++ " " ++ r') ++ String c' "")
    by (rewrite Ej; now rewrite !append_assoc).
  split; [rewrite E1; discriminate|].
  exact (strip_fixed _ _ _ _ _ E1 E2 Hc Hc').
Qed.

Lemma filter_tidy (l : list string) : Forall tidy l -> filter has_text l = l.
Proof.
  induction 1 as [|x l [Hx _] _ IH]; [reflexivity|]. cbn [filter]. unfold has_text at 1.
  destruct (String.eqb_spec x ""); [contradiction|]. cbn [negb]. now rewrite IH.
Qed.

(** On channels whose texts are tidy the code adds nothing to the words of
    the specification. *)
Lemma amended_preview_of_tidy (streams : list (list token)) (limit : Z) :
  Forall (fun ts => tidy (PreviewSpec.channel ts)) streams ->
  PreviewAmended.preview streams limit = PreviewSpec.preview streams limit.
Proof.
  intros H. unfold PreviewAmended.preview, PreviewSpec.preview.
  assert (Hmap : map PreviewAmended.channel streams = map PreviewSpec.channel streams).
  { induction H as [|ts streams [_ Hts] _ IH]; [reflexivity|].
    cbn [map]. unfold PreviewAmended.channel at 1. now rewrite Hts, IH. }
  assert (Htidy : Forall tidy (map PreviewSpec.channel streams)).
  { clear Hmap. induction H as [|ts l Ht _ IH]; cbn [map]; constructor; [exact Ht | exact IH]. }
  rewrite Hmap. change (fun s => negb (s =? "")%string) with has_text.
  rewrite (filter_tidy _ Htidy). f_equal.
  destruct (map PreviewSpec.channel streams) as [|x l]; [reflexivity|].
  inversion Htidy; subst. now apply join_tidy.
Qed.

Abbreviation hello_comma :=
  [ {| kind := WORD; content := "hello" |}; {| kind := PUNCTUATION; content := "," |} ].
Abbreviation bye := [ {| kind := WORD; content := "bye" |} ].

(** C5, as stated, fails: a channel without tokens lies between the two
    channels of the example.  Joined by single spaces, the three texts
    ["hello,"], [""] and ["bye"] have two spaces between them; the code
    leaves the empty text out and has one. *)
Lemma silent_channel_is_left_out :
  build_transcription_preview (results_of_channels [hello_comma; []; bye]) DEFAULT_MODE
    DEFAULT_PREVIEW_LEN
  = Ok "hello, bye"
  /\ PreviewSpec.preview [hello_comma; []; bye] DEFAULT_PREVIEW_LEN = "hello,  bye"
  /\ "hello, bye" <> "hello,  bye".
Proof.
  split; [|split; [reflexivity | discriminate]].
  rewrite (build_transcription_preview_channel _ _ DEFAULT_PREVIEW_LEN
             (results_of_channels_are _)).
  reflexivity.
Qed.

(** C5, amended.  In channel mode the preview is, for every
    channel-partitioned token stream: in each channel a WORD token starts a
    word and a PUNCTUATION token is appended to the word before it
    (standing alone when there is none), the words are joined by single
    spaces and the space in front of a comma or a period is removed; the
    text of a channel then loses the white space around it, the channels
    without text are left out, the others are joined by single spaces,
    and the whole loses the white space around it and is cut to the limit.
    Where every channel has a text that neither begins nor ends with
    white space, this is the text of the channels joined by single spaces,
    cut to the limit.  For the channels [WORD "hello", PUNCTUATION ","]
    and [WORD "bye"] the text is ["hello, bye"]. *)
Theorem channel_preview_follows_spec {FL : PyFloat} {TP : Templates} :
  (forall (results : pyval) (streams : list (list token)) (limit : Z),
      channels_are results streams ->
      _build_preview_channel results limit = Ok (PreviewAmended.preview streams limit)
      /\ build_transcription_preview results DEFAULT_MODE limit
         = Ok (PreviewAmended.preview streams limit)
      /\ (Forall (fun ts => tidy (PreviewSpec.channel ts)) streams ->
          build_transcription_preview results DEFAULT_MODE limit
          = Ok (PreviewSpec.preview streams limit)))
  /\ (forall limit : Z,
        10 <= limit ->
        build_transcription_preview (results_of_channels [hello_comma; bye]) DEFAULT_MODE limit
        = Ok "hello, bye").
Proof.
  split.
  - intros results streams limit H. split; [|split].
    + now apply build_preview_channel_spec.
    + now apply build_transcription_preview_channel.
    + intros Ht. rewrite <- (amended_preview_of_tidy streams limit Ht).
      now apply build_transcription_preview_channel.
  - intros limit Hl.
    rewrite (build_transcription_preview_channel _ _ limit (results_of_channels_are _)).
    unfold PreviewAmended.preview.
    change (Str.strip _) with "hello, bye".
    unfold Str.slice_to. destruct (Z.leb_spec 0 limit); [|lia].
    f_equal.
    assert (E : exists k, Z.to_nat limit = (10 + k)%nat) by (exists (Z.to_nat limit - 10)%nat; lia).
    destruct E as [k ->]. cbn. now destruct k.
Qed.

(** C5 amended, at work, with the default limit. *)
Lemma channel_preview_follows_spec_witness :
  channels_are (results_of_channels [hello_comma; bye]) [hello_comma; bye]
  /\ 10 <= DEFAULT_PREVIEW_LEN
  /\ build_transcription_preview (results_of_channels [hello_comma; bye]) DEFAULT_MODE
       DEFAULT_PREVIEW_LEN
     = Ok "hello, bye".
Proof.
  split; [apply (@results_of_channels_are decimal_floats)|].
  assert (H : 10 <= DEFAULT_PREVIEW_LEN) by (vm_compute; discriminate).
  split; [exact H|].
  exact (proj2 (@channel_preview_follows_spec decimal_floats plain_templates)
           DEFAULT_PREVIEW_LEN H).
Defined.

Example words_example :
  PreviewSpec.words
    [ {| kind := PUNCTUATION; content := "-" |}; {| kind := WORD; content := "so" |};
      {| kind := PUNCTUATION; content := "." |}; {| kind := PUNCTUATION; content := "." |};
      {| kind := WORD; content := "yes" |} ]
  = ["-"; "so.."; "yes"].
Proof. reflexivity. Qed.

(* ================================================================== *)
(** * Part XIII. The duration                                         *)
(* ================================================================== *)

Section DurationProperties.
Context {FL : PyFloat}.

Lemma untimed_get (item : pyval) :
  untimed item -> exists v, py_get item "end_time" PNone = Ok v /\ truthy v = false.
Proof.
  intros [Hd He]. destruct item; try discriminate. cbn in *.
  destruct (dict_lookup "end_time" d) as [v|]; [|now exists PNone].
  exists v. split; [reflexivity|]. now destruct (truthy v).
Qed.

Lemma timed_get (item v : pyval) :
  end_time item = Some v -> py_get item "end_time" PNone = Ok v /\ truthy v = true.
Proof.
  destruct item; try discriminate. cbn.
  destruct (dict_lookup "end_time" d) as [x|]; [|discriminate].
  destruct (truthy x) eqn:E; [|discriminate]. intros [= <-]. auto.
Qed.

(** The scan passes over tokens without an end-time. *)
Lemma last_end_time_skip (skipped rest : list pyval) :
  Forall untimed skipped -> last_end_time (skipped ++ rest) = last_end_time rest.
Proof.
  induction 1 as [|item skipped Hitem _ IH]; [reflexivity|].
  cbn [app last_end_time]. destruct (untimed_get _ Hitem) as (v & -> & Hv).
  cbn [rbind]. now rewrite Hv.
Qed.

(** It stops at the first token that has one. *)
Lemma last_end_time_hit (item v : pyval) (rest : list pyval) :
  end_time item = Some v -> last_end_time (item :: rest) = py_float v.
Proof.
  intros H. destruct (timed_get _ _ H) as [E Hv].
  cbn [last_end_time]. rewrite E. cbn [rbind]. now rewrite Hv.
Qed.

Lemma last_end_time_none (items : list pyval) :
  Forall untimed items -> last_end_time items = Ok float_zero.
Proof.
  intros H. rewrite <- (app_nil_r items). now rewrite last_end_time_skip.
Qed.

(** Whatever the scan returns is zero or the end-time it stopped at. *)
Lemma last_end_time_inv (items : list pyval) (x : float) :
  last_end_time items = Ok x ->
  x = float_zero
  \/ exists skipped token rest v,
       items = (skipped ++ token :: rest)%list /\ Forall untimed skipped
       /\ end_time token = Some v /\ py_float v = Ok x.
Proof.
  induction items as [|item items IH]; cbn [last_end_time].
  - intros [= <-]. now left.
  - destruct item as [| | | | | |d]; try discriminate.
    cbn [py_get rbind].
    destruct (dict_lookup "end_time" d) as [v|] eqn:El; cbn [rbind].
    + destruct (truthy v) eqn:Ev.
      * intros H. right. exists [], (PDict d), items, v.
        repeat split; [constructor | cbn; now rewrite El, Ev | exact H].
      * intros H. destruct (IH H) as [->|(s & t & r & v' & -> & Hs & Ht & Hf)]; [now left|].
        right. exists (PDict d :: s), t, r, v'. repeat split; auto.
        constructor; [|exact Hs]. split; [reflexivity|]. cbn. now rewrite El, Ev.
    + cbn [truthy]. intros H.
      destruct (IH H) as [->|(s & t & r & v' & -> & Hs & Ht & Hf)]; [now left|].
      right. exists (PDict d :: s), t, r, v'. repeat split; auto.
      constructor; [|exact Hs]. split; [reflexivity|]. cbn. now rewrite El.
Qed.

Lemma Forall_untimed_rev (l : list pyval) : Forall untimed l -> Forall untimed (rev l).
Proof. apply Forall_rev. Qed.

Lemma duration_last (d : list (string * pyval)) (before after : list pyval) (token v : pyval) :
  dict_lookup "items" d = Some (PList (before ++ token :: after)) ->
  end_time token = Some v -> Forall untimed after ->
  duration_of_items (PDict d) = py_float v.
Proof.
  intros Hi Ht Ha. unfold duration_of_items. cbn [py_get]. rewrite Hi. cbn [rbind].
  replace (truthy (PList (before ++ token :: after))) with true
    by (destruct before; reflexivity).
  cbn [negb py_reversed py_iter rbind].
  rewrite rev_app_distr. cbn [rev]. rewrite <- app_assoc. cbn [app].
  rewrite last_end_time_skip by now apply Forall_untimed_rev.
  now apply last_end_time_hit.
Qed.

Lemma duration_none (d : list (string * pyval)) (items : list pyval) :
  dict_lookup "items" d = Some (PList items) -> Forall untimed items ->
  duration_of_items (PDict d) = Ok float_zero.
Proof.
  intros Hi Ha. unfold duration_of_items. cbn [py_get]. rewrite Hi. cbn [rbind].
  destruct (truthy (PList items)); cbn [negb]; [|reflexivity].
  cbn [py_reversed py_iter rbind]. now apply last_end_time_none, Forall_untimed_rev.
Qed.

Lemma end_time_is_dict (token v : pyval) : end_time token = Some v -> is_dict token = true.
Proof. destruct token; cbn; congruence. Qed.

Lemma chars_not_dict (s : string) (x : pyval) : In x (chars s) -> is_dict x = false.
Proof.
  induction s as [|c s IH]; cbn; [tauto|]. intros [<-|H]; [reflexivity | auto].
Qed.

Lemma keys_not_dict (d : list (string * pyval)) (x : pyval) :
  In x (map (fun kv => PStr (fst kv)) d) -> is_dict x = false.
Proof.
  induction d as [|kv d IH]; cbn; [tauto|]. intros [<-|H]; [reflexivity | auto].
Qed.

(** Whatever the [try] block returns is zero or the end-time of the last
    token that has one. *)
Lemma duration_inv (results : pyval) (x : float) :
  duration_of_items results = Ok x ->
  x = float_zero
  \/ exists d before token after v,
       results = PDict d
       /\ dict_lookup "items" d = Some (PList (before ++ token :: after))
       /\ end_time token = Some v /\ Forall untimed after /\ py_float v = Ok x.
Proof.
  unfold duration_of_items. destruct results as [| | | | | |d]; try discriminate.
  cbn [py_get]. destruct (dict_lookup "items" d) as [items|] eqn:Hi; cbn [rbind].
  - destruct (truthy items) eqn:Ht; cbn [negb]; [|intros [= <-]; now left].
    unfold py_reversed. destruct (py_iter items) as [l|e] eqn:Hiter; [|discriminate].
    cbn [rbind]. intros H.
    destruct (last_end_time_inv _ _ H) as [->|(s & t & r & v & E & Hs & Hv & Hf)];
      [now left|].
    assert (Hin : In t l).
    { apply in_rev. rewrite E. apply in_or_app. right. now left. }
    destruct items as [| | | |str|items|dict]; try discriminate; cbn in Hiter;
      injection Hiter as <-.
    + apply chars_not_dict in Hin. rewrite (end_time_is_dict _ _ Hv) in Hin. discriminate.
    + right. exists d, (rev r), t, (rev s), v. repeat split; auto.
      * rewrite Hi. f_equal. f_equal.
        rewrite <- (List.rev_involutive items), E, rev_app_distr.
        cbn [rev]. now rewrite <- app_assoc.
      * now apply Forall_untimed_rev.
    + apply keys_not_dict in Hin. rewrite (end_time_is_dict _ _ Hv) in Hin. discriminate.
  - cbn. intros [= <-]. now left.
Qed.

End DurationProperties.

(** C6. [get_actual_recording_duration] returns the end-time of the last
    token that has one: with the items [before ++ token :: after], where
    [token] has the end-time [v] and no token of [after] has one, it
    returns [float(v)].  It returns 0.0 when no token has an end-time or
    there are no items.  It never raises: it is a total function, every
    failure of its body (a result that is no dict, items that are no
    tokens, an end-time that is no number) gives 0.0, and whatever it
    returns is 0.0 or the end-time of that last token. *)
Theorem duration_is_last_end_time {FL : PyFloat} :
  (forall (d : list (string * pyval)) (before after : list pyval) (token v : pyval) (x : float),
      dict_lookup "items" d = Some (PList (before ++ token :: after)) ->
      end_time token = Some v -> Forall untimed after -> py_float v = Ok x ->
      get_actual_recording_duration (PDict d) = x)
  /\ (forall (d : list (string * pyval)) (items : list pyval),
        dict_lookup "items" d = Some (PList items) -> Forall untimed items ->
        get_actual_recording_duration (PDict d) = float_zero)
  /\ (forall d : list (string * pyval),
        dict_lookup "items" d = None -> get_actual_recording_duration (PDict d) = float_zero)
  /\ (forall (results : pyval) (e : exn),
        duration_of_items results = Raise e ->
        get_actual_recording_duration results = float_zero)
  /\ (forall results : pyval,
        get_actual_recording_duration results = float_zero
        \/ exists d before token after v,
             results = PDict d
             /\ dict_lookup "items" d = Some (PList (before ++ token :: after))
             /\ end_time token = Some v /\ Forall untimed after
             /\ py_float v = Ok (get_actual_recording_duration results)).
Proof.
  unfold get_actual_recording_duration. repeat split.
  - intros d before after token v x Hi Ht Ha Hf.
    now rewrite (duration_last d before after token v Hi Ht Ha), Hf.
  - intros d items Hi Ha. now rewrite (duration_none d items Hi Ha).
  - intros d Hi. unfold duration_of_items. cbn [py_get]. now rewrite Hi.
  - intros results e ->. reflexivity.
  - intros results. destruct (duration_of_items results) as [x|e] eqn:E; [|now left].
    destruct (duration_inv _ _ E) as [->|H]; [now left | now right].
Qed.

(** C6 at work, with decimal numbers for floats: the last token with an
    end-time is at 12.4 and is followed by tokens without one. *)
Lemma duration_is_last_end_time_witness :
  let spoken := PDict [("type", PStr "pronunciation"); ("end_time", PStr "12.4")] in
  let early := PDict [("type", PStr "pronunciation"); ("end_time", PStr "3.1")] in
  let mark := PDict [("type", PStr "punctuation")] in
  let results := [("items", PList [early; spoken; mark; mark])] in
  (end_time spoken = Some (PStr "12.4") /\ Forall untimed [mark; mark]
   /\ py_float (PStr "12.4") = Ok {| mantissa := 124; places := 1 |})
  /\ get_actual_recording_duration (PDict results) = {| mantissa := 124; places := 1 |}
  /\ get_actual_recording_duration (PDict [("items", PList [mark; mark])]) = float_zero.
Proof.
  intros spoken early mark results.
  assert (H1 : end_time spoken = Some (PStr "12.4")) by reflexivity.
  assert (H2 : Forall untimed [mark; mark]) by (repeat constructor).
  assert (H3 : py_float (PStr "12.4") = Ok {| mantissa := 124; places := 1 |}) by reflexivity.
  split; [auto|]. split.
  - exact (proj1 duration_is_last_end_time results [early] [mark; mark] spoken
             (PStr "12.4") _ eq_refl H1 H2 H3).
  - exact (proj1 (proj2 duration_is_last_end_time) [("items", PList [mark; mark])]
             [mark; mark] eq_refl H2).
Defined.

Example duration_of_malformed_results :
  get_actual_recording_duration (PList [PInt 3]) = float_zero
  /\ get_actual_recording_duration (PDict [("items", PStr "abc")]) = float_zero
  /\ get_actual_recording_duration (PDict [("items", PList [PInt 7])]) = float_zero
  /\ get_actual_recording_duration
       (PDict [("items", PList [PDict [("end_time", PStr "soon")]])]) = float_zero.
Proof. repeat split; reflexivity. Qed.

(* ================================================================== *)
(** * Part XIV. Waiting for the transcription                         *)
(* ================================================================== *)

Section SupervisorProperties.
Context {FL : PyFloat}.
Variable w : World.

(** The loop is its body followed by the loop. *)
Lemma wait_loop_unfold_body (job_name : string) (waited : Z) (h : history) :
  wait_loop w job_name waited h
  = match poll_once w job_name waited h with
    | (Ok (inl job), h') => (Ok job, h')
    | (Ok (inr waited'), h') => wait_loop w job_name waited' h'
    | (Raise e, h') => (Raise e, h')
    end.
Proof.
  rewrite wait_loop_unfold_eq. unfold wait_loop_unfold.
  assert (H : forall x : {y | poll_once w job_name waited h = y},
             wait_loop_unfold_clause_1 w job_name waited h x
             = match proj1_sig x with
               | (Ok (inl job), h') => (Ok job, h')
               | (Ok (inr waited'), h') => wait_loop w job_name waited' h'
               | (Raise e, h') => (Raise e, h')
               end)
    by (intros [[[[job|waited']|e] h'] E]; reflexivity).
  apply H.
Qed.

(** One turn with a job that is in progress. *)
Lemma poll_once_pending (job_name : string) (waited : Z) (h : history) :
  never_terminal w job_name ->
  poll_once w job_name waited h
  = (if (waited + TRANSCRIBE_POLL_SECS >=? TRANSCRIBE_MAX_WAIT_SECS)%Z
     then Raise (timed_out job_name) else Ok (inr (waited + TRANSCRIBE_POLL_SECS)),
     h ++ polls job_name 1)%list.
Proof.
  intros Hn. destruct (Hn h) as (response & job & status & Hr & Hj & Hs & Hc & Hf).
  unfold poll_once, bind, call, lift, sleep, ret, raise.
  rewrite Hr, Hj, Hs, Hc, Hf. cbn [orb].
  change (1000 * TRANSCRIBE_POLL_SECS <? 0)%Z with false. cbn iota.
  unfold call, timed_out.
  destruct (waited + TRANSCRIBE_POLL_SECS >=? TRANSCRIBE_MAX_WAIT_SECS)%Z;
    now rewrite <- app_assoc.
Qed.

Lemma polls_succ (job_name : string) (n : nat) :
  (polls job_name 1 ++ polls job_name n)%list = polls job_name (S n).
Proof. reflexivity. Qed.

(** With [k + 1] turns left before the maximum wait, the loop makes
    [k + 1] polls and raises [TimeoutError]. *)
Lemma wait_loop_times_out (job_name : string) :
  never_terminal w job_name ->
  forall (k : nat) (waited : Z) (h : history),
    waited + TRANSCRIBE_POLL_SECS * Z.of_nat k < TRANSCRIBE_MAX_WAIT_SECS ->
    TRANSCRIBE_MAX_WAIT_SECS <= waited + TRANSCRIBE_POLL_SECS * Z.of_nat (S k) ->
    wait_loop w job_name waited h
    = (Raise (timed_out job_name), h ++ polls job_name (S k))%list.
Proof.
  intros Hn. induction k as [|k IH]; intros waited h Hlt Hge;
    rewrite wait_loop_unfold_body, (poll_once_pending _ _ _ Hn);
    destruct (Z.geb_spec (waited + TRANSCRIBE_POLL_SECS) TRANSCRIBE_MAX_WAIT_SECS)
      as [Hdone|Hdone];
    unfold TRANSCRIBE_POLL_SECS, TRANSCRIBE_MAX_WAIT_SECS in Hlt, Hge, Hdone;
    try reflexivity; try lia.
  rewrite IH by (unfold TRANSCRIBE_POLL_SECS, TRANSCRIBE_MAX_WAIT_SECS; lia).
  now rewrite <- app_assoc, polls_succ.
Qed.

(** Every turn asks for the status once. *)
Lemma poll_once_counts (job_name : string) (waited : Z) (h : history) :
  count_polls (snd (poll_once w job_name waited h)) = S (count_polls h).
Proof.
  assert (E : forall rest, forallb (fun c => negb (is_poll c)) rest = true ->
              count_polls ((h ++ [GetTranscriptionJob job_name]) ++ rest)%list
              = S (count_polls h)).
  { intros rest Hrest. unfold count_polls. rewrite !filter_app, !length_app.
    cbn [filter is_poll List.length].
    replace (filter is_poll rest) with (@nil Call); [cbn; lia|].
    induction rest as [|c rest IH]; [reflexivity|]. cbn in *.
    apply andb_prop in Hrest as [Hc Hrest]. destruct (is_poll c); [discriminate | auto]. }
  unfold poll_once, bind, call, lift, sleep, ret, raise.
  destruct (get_transcription_job w h job_name) as [response|e];
    [|rewrite <- (app_nil_r (h ++ _)%list); now apply E].
  destruct (py_getitem response "TranscriptionJob") as [job|e];
    [|rewrite <- (app_nil_r (h ++ _)%list); now apply E].
  destruct (py_getitem job "TranscriptionJobStatus") as [status|e];
    [|rewrite <- (app_nil_r (h ++ _)%list); now apply E].
  destruct (py_eq_str status "COMPLETED" || py_eq_str status "FAILED");
    [rewrite <- (app_nil_r (h ++ _)%list); now apply E|].
  change (1000 * TRANSCRIBE_POLL_SECS <? 0)%Z with false. cbn iota. unfold call.
  destruct (waited + TRANSCRIBE_POLL_SECS >=? TRANSCRIBE_MAX_WAIT_SECS)%Z; now apply E.
Qed.

(** Whatever the status source answers, the loop asks at most
    [k + 1] times when [k + 1] turns reach the maximum wait. *)
Lemma wait_loop_bounded (job_name : string) :
  forall (k : nat) (waited : Z) (h : history),
    TRANSCRIBE_MAX_WAIT_SECS <= waited + TRANSCRIBE_POLL_SECS * Z.of_nat (S k) ->
    (count_polls (snd (wait_loop w job_name waited h)) <= count_polls h + S k)%nat.
Proof.
  induction k as [|k IH]; intros waited h Hge; rewrite wait_loop_unfold_body;
    pose proof (poll_once_counts job_name waited h) as Hc;
    destruct (poll_once w job_name waited h) as [[[job|waited']|e] h'] eqn:E;
    cbn [snd] in *; try lia;
    destruct (poll_once_continues _ _ _ _ _ _ E) as [-> Hlt].
  - unfold TRANSCRIBE_POLL_SECS, TRANSCRIBE_MAX_WAIT_SECS in *. lia.
  - specialize (IH (waited + TRANSCRIBE_POLL_SECS) h').
    unfold TRANSCRIBE_POLL_SECS, TRANSCRIBE_MAX_WAIT_SECS in *. lia.
Qed.

End SupervisorProperties.

Section SupervisorOutcome.
Context {FL : PyFloat} {HM : Hmac} {TP : Templates}.
Variable w : World.

Lemma wait_for_transcription_times_out (job_name region : string) (h : history)
  (r : option string) :
  never_terminal w job_name ->
  new_client w h "transcribe" (Some region) = Ok r ->
  wait_for_transcription w job_name region h
  = (Raise (timed_out job_name),
     h ++ NewClient "transcribe" (Some region) :: polls job_name 200)%list.
Proof.
  intros Hn Hc. unfold wait_for_transcription, bind, call. rewrite Hc.
  rewrite (wait_loop_times_out w job_name Hn 199) by (vm_compute; congruence).
  now rewrite <- app_assoc.
Qed.

(** The transcription block of the handler returns in every world: each
    exception of its body is turned into an outcome. *)
Lemma transcription_block_returns (bucket key region : string) (h : history) :
  exists r h', transcription_block w bucket key region h = (Ok r, h').
Proof.
  unfold transcription_block, try_except.
  match goal with
  | |- context [match ?m h with _ => _ end] => destruct (m h) as [[r|e] h']
  end.
  - eauto.
  - destruct e; unfold ret; eauto.
Qed.

Lemma transcription_block_times_out (bucket key region job_name : string)
  (h h1 : history) (r : option string) :
  never_terminal w job_name ->
  start_transcription_job w ("s3://" ++ bucket ++ "/" ++ key) region
    DEFAULT_MODE DEFAULT_LANGUAGE h = (Ok job_name, h1) ->
  new_client w h1 "transcribe" (Some region) = Ok r ->
  transcription_block w bucket key region h
  = (Ok (inl (Outcome 500 "Transcription processing error" None)),
     h1 ++ NewClient "transcribe" (Some region) :: polls job_name 200)%list.
Proof.
  intros Hn Hs Hc. unfold transcription_block, try_except, bind.
  rewrite Hs, (wait_for_transcription_times_out job_name region h1 r Hn Hc).
  reflexivity.
Qed.

End SupervisorOutcome.

Lemma slept_polls (job_name : string) (n : nat) (acc : Z) :
  fold_left (fun a c => match c with Sleep ms => a + ms | _ => a end) (polls job_name n) acc
  = acc + 1000 * TRANSCRIBE_POLL_SECS * Z.of_nat n.
Proof.
  revert acc. induction n as [|n IH]; intros acc.
  - cbn. lia.
  - cbn [polls fold_left]. rewrite IH. lia.
Qed.

(** C7. With a status source that never reports [COMPLETED] or [FAILED],
    [wait_for_transcription] ends: it asks for the status 200 times, sleeps
    [TRANSCRIBE_POLL_SECS] after each answer, 600 seconds in all, and raises
    [TimeoutError], an outcome of its own that no answer of the status
    source produces.  In the handler the exception is caught by the
    transcription block, which returns the outcome 500 "Transcription
    processing error"; that block returns in every world.  Whatever the
    status source answers, the loop asks at most 200 times. *)
Theorem polling_times_out {FL : PyFloat} {HM : Hmac} {TP : Templates}
  (w : World) (job_name region : string) (h : history) :
  never_terminal w job_name ->
  wait_loop w job_name 0 h = (Raise (timed_out job_name), h ++ polls job_name 200)%list
  /\ slept (polls job_name 200) = 1000 * TRANSCRIBE_MAX_WAIT_SECS
  /\ (forall r : option string,
        new_client w h "transcribe" (Some region) = Ok r ->
        wait_for_transcription w job_name region h
        = (Raise (timed_out job_name),
           h ++ NewClient "transcribe" (Some region) :: polls job_name 200)%list)
  /\ (forall (bucket key : string) (h0 : history) (r : option string),
        start_transcription_job w ("s3://" ++ bucket ++ "/" ++ key) region
          DEFAULT_MODE DEFAULT_LANGUAGE h0 = (Ok job_name, h) ->
        new_client w h "transcribe" (Some region) = Ok r ->
        transcription_block w bucket key region h0
        = (Ok (inl (Outcome 500 "Transcription processing error" None)),
           h ++ NewClient "transcribe" (Some region) :: polls job_name 200)%list)
  /\ (forall (w' : World) (bucket key : string) (h' : history),
        (exists r h'', transcription_block w' bucket key region h' = (Ok r, h''))
        /\ (count_polls (snd (wait_loop w' job_name 0 h')) <= count_polls h' + 200)%nat).
Proof.
  intros Hn. split; [|split; [|split; [|split]]].
  - apply (wait_loop_times_out w job_name Hn 199); vm_compute; congruence.
  - unfold slept. rewrite slept_polls. reflexivity.
  - intros r Hc. now apply wait_for_transcription_times_out with (r := r).
  - intros bucket key h0 r Hs Hc. now apply transcription_block_times_out with (r := r).
  - intros w' bucket key h'. split.
    + apply transcription_block_returns.
    + apply (wait_loop_bounded w' job_name 199). vm_compute. congruence.
Qed.

(** C7 at work: the job of [stuck_world] stays in progress. *)
Lemma polling_times_out_witness :
  never_terminal stuck_world "voicemail-transcribe-1704449170"
  /\ wait_for_transcription stuck_world "voicemail-transcribe-1704449170" "us-east-1" []
     = (Raise (timed_out "voicemail-transcribe-1704449170"),
        NewClient "transcribe" (Some "us-east-1")
          :: polls "voicemail-transcribe-1704449170" 200).
Proof.
  assert (Hn : never_terminal stuck_world "voicemail-transcribe-1704449170").
  { intros h. eexists. eexists. eexists. repeat split; reflexivity. }
  split; [exact Hn|].
  exact (proj1 (proj2 (proj2 (polling_times_out stuck_world _ "us-east-1" [] Hn)))
           (Some "us-east-1") eq_refl).
Defined.

Example stuck_job_is_reported :
  fst (handle_voicemail_processing stuck_world
         (demo_event [("emailRecipient", "user@example.com")]) [])
  = Ok (Outcome 500 "Transcription processing error" None).
Proof. vm_compute. reflexivity. Qed.

Example failed_job_is_reported :
  fst (handle_voicemail_processing
         (world_of demo_environment demo_start
            (fun bucket key => (bucket =? "connect-bucket")%string && (key =? demo_key)%string)
            (fun _ => job_in_state "FAILED") demo_transcript)
         (demo_event [("emailRecipient", "user@example.com")]) [])
  = Ok (Outcome 502 "Transcription failed: FAILED" None).
Proof. vm_compute. reflexivity. Qed.

(* ================================================================== *)
(** * Part XV. The search for the recording                           *)
(* ================================================================== *)

(** ** The stable sort *)

Section Sorting.
Context {A : Type}.
Variable key : A -> Z.

Lemma insert_by_in (x y : A) (l : list A) :
  In y (insert_by key x l) -> y = x \/ In y l.
Proof.
  induction l as [|z l IH]; cbn.
  - intros [<-|[]]. now left.
  - destruct (key x <=? key z)%Z; cbn; intuition.
Qed.

Lemma insert_by_sorted (x : A) (l : list A) :
  StronglySorted (key_le key) l -> StronglySorted (key_le key) (insert_by key x l).
Proof.
  induction 1 as [|z l Hs IH Hz]; cbn.
  - repeat constructor.
  - destruct (Z.leb_spec (key x) (key z)) as [Hle|Hgt].
    + constructor; [now constructor|]. constructor; [exact Hle|].
      eapply Forall_impl; [|exact Hz]. unfold key_le. intros a Ha. lia.
    + constructor; [exact IH|]. apply Forall_forall. intros y Hy.
      apply insert_by_in in Hy as [->|Hy]; [unfold key_le; lia|].
      now apply (proj1 (Forall_forall _ _) Hz).
Qed.

(** The result of the sort is in the order of the keys. *)
Lemma sort_by_sorted (l : list A) : StronglySorted (key_le key) (sort_by key l).
Proof.
  induction l as [|x l IH]; cbn; [constructor | now apply insert_by_sorted].
Qed.

Lemma insert_by_perm (x : A) (l : list A) : Permutation (x :: l) (insert_by key x l).
Proof.
  induction l as [|z l IH]; cbn; [reflexivity|].
  destruct (key x <=? key z)%Z; [reflexivity|].
  rewrite perm_swap. now constructor.
Qed.

(** It has the elements it was given. *)
Lemma sort_by_perm (l : list A) : Permutation l (sort_by key l).
Proof.
  induction l as [|x l IH]; cbn; [constructor|].
  rewrite <- insert_by_perm. now constructor.
Qed.

Lemma insert_by_stable (k : Z) (x : A) (l : list A) :
  filter (fun a => key a =? k)%Z (insert_by key x l)
  = filter (fun a => key a =? k)%Z (x :: l).
Proof.
  induction l as [|z l IH]; [reflexivity|]. cbn [insert_by].
  destruct (Z.leb_spec (key x) (key z)) as [Hle|Hgt]; [reflexivity|].
  cbn [filter] in *. rewrite IH.
  destruct (Z.eqb_spec (key z) k), (Z.eqb_spec (key x) k); try reflexivity. lia.
Qed.

(** Elements with the same key keep their order. *)
Lemma sort_by_stable (k : Z) (l : list A) :
  filter (fun a => key a =? k)%Z (sort_by key l) = filter (fun a => key a =? k)%Z l.
Proof.
  induction l as [|x l IH]; [reflexivity|]. cbn [sort_by].
  rewrite insert_by_stable. cbn [filter]. now rewrite IH.
Qed.

Lemma sorted_prefix (l r : list A) :
  StronglySorted (key_le key) (l ++ r) -> StronglySorted (key_le key) l.
Proof.
  induction l as [|x l IH]; cbn; [constructor|].
  intros H. apply StronglySorted_inv in H as [Hs Hx]. constructor; [auto|].
  apply Forall_app in Hx. tauto.
Qed.

End Sorting.

Lemma insert_by_map {A B} (key : B -> Z) (f : A -> B) (x : A) (l : list A) :
  insert_by key (f x) (map f l) = map f (insert_by (fun a => key (f a)) x l).
Proof.
  induction l as [|y l IH]; [reflexivity|]. cbn.
  destruct (key (f x) <=? key (f y))%Z; [reflexivity|]. cbn. now rewrite IH.
Qed.

Lemma sort_by_map {A B} (key : B -> Z) (f : A -> B) (l : list A) :
  sort_by key (map f l) = map f (sort_by (fun a => key (f a)) l).
Proof.
  induction l as [|x l IH]; [reflexivity|]. cbn. now rewrite IH, insert_by_map.
Qed.

Lemma sort_by_ext {A} (key key' : A -> Z) (l : list A) :
  (forall a, key a = key' a) -> sort_by key l = sort_by key' l.
Proof.
  intros E. induction l as [|x l IH]; [reflexivity|]. cbn. rewrite IH.
  generalize (sort_by key' l). intros m. induction m as [|y m IHm]; [reflexivity|].
  cbn. now rewrite !E, IHm.
Qed.

(** The offsets of a window of 5 minutes, nearest first. *)
Example sorted_offsets :
  sort_by Z.abs (range (- 5) (5 + 1)) = [0; -1; 1; -2; 2; -3; 3; -4; 4; -5; 5].
Proof. reflexivity. Qed.

Lemma in_range (lo hi x : Z) : In x (range lo hi) <-> lo <= x < hi.
Proof.
  unfold range. rewrite in_map_iff. split.
  - intros (i & <- & Hi). apply in_seq in Hi. lia.
  - intros H. exists (Z.to_nat (x - lo)). split; [lia|]. apply in_seq. lia.
Qed.

(** ** The candidates of a window *)

Lemma collect_map {A B} (f : A -> result B) (g : A -> B) (l : list A) (acc : list B) :
  (forall x, In x l -> f x = Ok (g x)) ->
  for_each (fun acc x => y <~ f x ;; Ok (acc ++ [y])%list) acc l = Ok (acc ++ map g l)%list.
Proof.
  revert acc. induction l as [|x l IH]; intros acc H; cbn [for_each map].
  - now rewrite app_nil_r.
  - rewrite (H x) by now left. cbn [rbind]. rewrite IH by (intros; apply H; now right).
    now rewrite <- app_assoc.
Qed.

(** With the anchor far enough from the ends of the calendar, a window has
    one candidate for each offset, in the order of [range]. *)
Lemma generate_representable (bucket prefix initial_contact_id : string) (now W : Z) :
  (forall o, - W <= o <= W -> Datetime.representable (now + 60 * o) = true) ->
  generate_s3_uris_with_time_window bucket prefix initial_contact_id now W
  = Ok (map (location_at bucket prefix initial_contact_id now) (range (- W) (W + 1))).
Proof.
  intros H. unfold generate_s3_uris_with_time_window.
  rewrite (collect_map _ (location_at bucket prefix initial_contact_id now)); [reflexivity|].
  intros o Ho. apply in_range in Ho. unfold candidate, Datetime.add_minutes.
  now rewrite H by lia.
Qed.

Section LocatorProperties.
Context {FL : PyFloat}.
Variable w : World.

Lemma probe_hit (bucket : string) (x : Location) (rest : list Location) (h : history) :
  head_object w h bucket (loc_key x) = Ok tt ->
  probe w bucket (x :: rest) h = (Ok (Some x), h ++ [check_of bucket x])%list.
Proof.
  intros H. cbn [probe]. unfold bind, try_except, call, ret. now rewrite H.
Qed.

Lemma probe_miss (bucket : string) (x : Location) (rest : list Location) (h : history)
  (e : exn) :
  head_object w h bucket (loc_key x) = Raise e -> has_code e "404" = true ->
  probe w bucket (x :: rest) h = probe w bucket rest (h ++ [check_of bucket x])%list.
Proof.
  intros H He. cbn [probe]. unfold bind, try_except, call, ret. rewrite H, He.
  now destruct (probe w bucket rest _) as [[|] ?].
Qed.

Lemma probe_error (bucket : string) (x : Location) (rest : list Location) (h : history)
  (e : exn) :
  head_object w h bucket (loc_key x) = Raise e -> has_code e "404" = false ->
  probe w bucket (x :: rest) h = (Raise e, h ++ [check_of bucket x])%list.
Proof.
  intros H He. cbn [probe]. unfold bind, try_except, call, ret. now rewrite H, He.
Qed.

(** The checks of one run of the inner loop are those of a front part of
    the list it is given, in the order of the list. *)
Lemma probe_checks (bucket : string) (l : list Location) (h : history) :
  exists probed rest,
    l = (probed ++ rest)%list
    /\ snd (probe w bucket l h) = (h ++ map (check_of bucket) probed)%list
    /\ (fst (probe w bucket l h) = Ok None -> rest = []).
Proof.
  revert h. induction l as [|x l IH]; intros h.
  - exists [], []. cbn. now rewrite app_nil_r.
  - destruct (head_object w h bucket (loc_key x)) as [[]|e] eqn:E.
    + rewrite (probe_hit _ _ _ _ E). exists [x], l. cbn. repeat split. discriminate.
    + destruct (has_code e "404") eqn:He.
      * rewrite (probe_miss _ _ _ _ _ E He).
        destruct (IH (h ++ [check_of bucket x])%list) as (p & r & -> & Hs & Hn).
        exists (x :: p), r. rewrite Hs, <- app_assoc. cbn. auto.
      * rewrite (probe_error _ _ _ _ _ E He). exists [x], l. cbn. repeat split. discriminate.
Qed.

Lemma window_checks_sorted (bucket prefix initial_contact_id : string) (now W : Z)
  (probed : list Location) :
  window_checks bucket prefix initial_contact_id now W probed ->
  StronglySorted by_distance probed.
Proof.
  intros (s3_uris & rest & _ & E).
  apply (sorted_prefix distance probed rest). rewrite <- E. apply sort_by_sorted.
Qed.

Lemma filter_checks (bucket : string) (l : list Location) :
  filter is_check (map (check_of bucket) l) = map (check_of bucket) l.
Proof. induction l as [|x l IH]; cbn; [reflexivity | now rewrite IH]. Qed.

(** The existence checks of a search: window after window, in each window
    a front part of its sorted candidates. *)
Lemma search_windows_checks (bucket prefix initial_contact_id : string) (now : Z)
  (windows : list Z) (h : history) :
  exists groups : list (list Location),
    (List.length groups <= List.length windows)%nat
    /\ Forall2 (window_checks bucket prefix initial_contact_id now)
         (firstn (List.length groups) windows) groups
    /\ filter is_check (snd (search_windows w bucket prefix initial_contact_id now windows h))
       = (filter is_check h ++ map (check_of bucket) (List.concat groups))%list.
Proof.
  revert h. induction windows as [|W windows IH]; intros h.
  - exists []. cbn. rewrite app_nil_r. repeat split; constructor.
  - cbn [search_windows]. unfold bind at 1. unfold lift.
    destruct (generate_s3_uris_with_time_window bucket prefix initial_contact_id now W)
      as [s3_uris|e] eqn:G.
    + unfold bind at 1.
      destruct (probe_checks bucket (sort_by (fun x => Z.abs (offset_minutes x)) s3_uris) h)
        as (probed & rest & E & Hs & _).
      assert (Hw : window_checks bucket prefix initial_contact_id now W probed)
        by (exists s3_uris, rest; auto).
      destruct (probe w bucket _ h) as [[[l|]|e] h1]; cbn [snd] in Hs; subst h1.
      * exists [probed]. cbn. rewrite filter_app, filter_checks, app_nil_r.
        repeat split; [lia | repeat constructor; exact Hw].
      * unfold bind. set (h2 := snd ((if (W >? 1)%Z then sleep 500 else ret tt)
                                       (h ++ map (check_of bucket) probed)%list)).
        assert (Hh2 : filter is_check h2
                      = (filter is_check h ++ map (check_of bucket) probed)%list).
        { subst h2. unfold sleep, call, ret. cbn.
          destruct (W >? 1)%Z; cbn [snd]; rewrite ?filter_app, filter_checks; cbn;
            now rewrite ?app_nil_r. }
        assert (Hgo : (if (W >? 1)%Z then sleep 500 else ret tt)
                        (h ++ map (check_of bucket) probed)%list = (Ok tt, h2)).
        { subst h2. unfold sleep, call, ret. cbn. now destruct (W >? 1)%Z. }
        rewrite Hgo. destruct (IH h2) as (groups & Hlen & Hall & Hf).
        exists (probed :: groups). cbn [List.length firstn List.concat].
        rewrite Hf, Hh2, map_app, <- app_assoc.
        repeat split; [lia | constructor; auto].
      * exists [probed]. cbn. rewrite filter_app, filter_checks, app_nil_r.
        repeat split; [lia | repeat constructor; exact Hw].
    + exists []. cbn. rewrite app_nil_r. repeat split; [lia | constructor].
Qed.

Lemma utcnow_representable (h : history) :
  Datetime.representable (clock w h) = true -> utcnow w h = (Ok (clock w h), h).
Proof.
  intros H. unfold utcnow, bind, now, lift, Datetime.utcfromtimestamp. now rewrite H.
Qed.

End LocatorProperties.

Lemma window_representable (now o : Z) :
  Datetime.min_timestamp + 300 <= now <= Datetime.max_timestamp - 300 ->
  - 5 <= o <= 5 -> Datetime.representable (now + 60 * o) = true.
Proof.
  unfold Datetime.representable, Datetime.min_timestamp, Datetime.max_timestamp.
  intros H Ho. apply andb_true_intro. split; apply Z.leb_le; lia.
Qed.

(** The candidates of the widest window, nearest first. *)
Lemma widest_window_sorted (bucket prefix initial_contact_id : string) (now : Z) :
  Datetime.min_timestamp + 300 <= now <= Datetime.max_timestamp - 300 ->
  exists s3_uris,
    generate_s3_uris_with_time_window bucket prefix initial_contact_id now
      MAX_TIME_WINDOW_MINUTES = Ok s3_uris
    /\ sort_by (fun x => Z.abs (offset_minutes x)) s3_uris
       = map (location_at bucket prefix initial_contact_id now)
           [0; -1; 1; -2; 2; -3; 3; -4; 4; -5; 5].
Proof.
  intros H. eexists. split.
  - apply generate_representable. intros o Ho. apply window_representable; [exact H|].
    unfold MAX_TIME_WINDOW_MINUTES in Ho. lia.
  - rewrite sort_by_map.
    change (fun a => Z.abs (offset_minutes (location_at bucket prefix initial_contact_id now a)))
      with Z.abs.
    f_equal.
Qed.

(** C4. Within every window [find_recording_in_s3] passes the candidates
    to the existence check in the order of their distance from the anchor:
    the checks of a search are, window after window, a front part of the
    candidates of the window sorted by the absolute value of their offset,
    so no offset is checked before a nearer one.  When the check succeeds
    only at offset +2 of the 5-minute window, the checks made are those of
    the offsets 0, -1, 1, -2, 2, in this order, and the search returns the
    candidate of offset +2. *)
Theorem nearest_offset_first {FL : PyFloat}
  (w : World) (bucket prefix initial_contact_id : string) (h : history) :
  (exists groups : list (list Location),
      (List.length groups <= 5)%nat
      /\ Forall2 (window_checks bucket prefix initial_contact_id (clock w h))
           (firstn (List.length groups) [5; 4; 3; 2; 1]) groups
      /\ Forall (StronglySorted by_distance) groups
      /\ filter is_check (snd (find_recording_in_s3 w bucket prefix initial_contact_id h))
         = (filter is_check h ++ map (check_of bucket) (List.concat groups))%list)
  /\ (let at_offset := location_at bucket prefix initial_contact_id (clock w h) in
      Datetime.min_timestamp + 300 <= clock w h <= Datetime.max_timestamp - 300 ->
      (forall h', head_object w h' bucket (loc_key (at_offset 2)) = Ok tt) ->
      (forall h' o, - 5 <= o <= 5 -> o <> 2 ->
         exists e, head_object w h' bucket (loc_key (at_offset o)) = Raise e
                   /\ has_code e "404" = true) ->
      find_recording_in_s3 w bucket prefix initial_contact_id h
      = (Ok (Some (at_offset 2)),
         h ++ map (fun o => check_of bucket (at_offset o)) [0; -1; 1; -2; 2])%list).
Proof.
  split.
  - unfold find_recording_in_s3, utcnow, now, lift, bind.
    destruct (Datetime.utcfromtimestamp (clock w h)) as [t|e] eqn:E.
    + assert (t = clock w h) as ->.
      { unfold Datetime.utcfromtimestamp in E.
        destruct (Datetime.representable (clock w h)); [congruence|].
        destruct (negb _); [discriminate|]. destruct (negb _); discriminate. }
      change (range_down MAX_TIME_WINDOW_MINUTES) with [5; 4; 3; 2; 1].
      destruct (search_windows_checks w bucket prefix initial_contact_id (clock w h)
                  [5; 4; 3; 2; 1] h) as (groups & Hlen & Hall & Hf).
      exists groups. repeat split; auto.
      clear Hf Hlen. remember (firstn _ _) as ws eqn:Hws. clear Hws.
      induction Hall as [|W g ws gs Hg _ IH]; constructor; auto.
      now apply window_checks_sorted in Hg.
    + exists []. cbn. rewrite app_nil_r. repeat split; try lia; constructor.
  - intros at_offset Hclock Hhit Hmiss.
    assert (Hr : Datetime.representable (clock w h) = true).
    { rewrite <- (Z.add_0_r (clock w h)). change 0 with (60 * 0).
      apply window_representable; [exact Hclock | lia]. }
    unfold find_recording_in_s3, bind. rewrite (utcnow_representable w h Hr).
    change (range_down MAX_TIME_WINDOW_MINUTES) with [5; 4; 3; 2; 1].
    cbn [search_windows]. unfold bind at 1. unfold lift.
    destruct (widest_window_sorted bucket prefix initial_contact_id (clock w h) Hclock)
      as (s3_uris & G & S).
    change MAX_TIME_WINDOW_MINUTES with 5 in G. rewrite G, S.
    fold at_offset. cbn [map]. unfold bind at 1.
    destruct (Hmiss h 0) as (e0 & E0 & C0); [lia | lia |].
    rewrite (probe_miss w bucket _ _ _ _ E0 C0).
    destruct (Hmiss (h ++ [check_of bucket (at_offset 0)])%list (-1))
      as (e1 & E1 & C1); [lia | lia |].
    rewrite (probe_miss w bucket _ _ _ _ E1 C1).
    destruct (Hmiss ((h ++ [check_of bucket (at_offset 0)])
                       ++ [check_of bucket (at_offset (-1))])%list 1)
      as (e2 & E2 & C2); [lia | lia |].
    rewrite (probe_miss w bucket _ _ _ _ E2 C2).
    destruct (Hmiss (((h ++ [check_of bucket (at_offset 0)])
                        ++ [check_of bucket (at_offset (-1))])
                       ++ [check_of bucket (at_offset 1)])%list (-2))
      as (e3 & E3 & C3); [lia | lia |].
    rewrite (probe_miss w bucket _ _ _ _ E3 C3).
    rewrite (probe_hit w bucket _ _ _ (Hhit _)).
    now rewrite <- !app_assoc.
Qed.

(** C4 at work: in [demo_world] the recording lies two minutes after the
    anchor. *)
Lemma nearest_offset_first_witness :
  let at_offset :=
    location_at "connect-bucket" "recordings" "abc-123" (clock demo_world []) in
  (Datetime.min_timestamp + 300 <= clock demo_world [] <= Datetime.max_timestamp - 300
   /\ loc_key (at_offset 2) = demo_key)
  /\ find_recording_in_s3 demo_world "connect-bucket" "recordings" "abc-123" []
     = (Ok (Some (at_offset 2)),
        map (fun o => check_of "connect-bucket" (at_offset o)) [0; -1; 1; -2; 2]).
Proof.
  intros at_offset.
  assert (Hclock : Datetime.min_timestamp + 300 <= clock demo_world []
                   <= Datetime.max_timestamp - 300)
    by (split; vm_compute; discriminate).
  assert (Hkey : loc_key (at_offset 2) = demo_key) by (vm_compute; reflexivity).
  split; [auto|].
  assert (Hhit : forall h', head_object demo_world h' "connect-bucket"
                              (loc_key (at_offset 2)) = Ok tt).
  { intros h'. rewrite Hkey. reflexivity. }
  assert (Hmiss : forall h' o, - 5 <= o <= 5 -> o <> 2 ->
            exists e, head_object demo_world h' "connect-bucket"
                        (loc_key (at_offset o)) = Raise e
                      /\ has_code e "404" = true).
  { intros h' o Ho Hne. exists not_found. split; [|reflexivity].
    assert (Hin : In o (range (- 5) 6)) by (apply in_range; lia).
    change (range (- 5) 6) with [-5; -4; -3; -2; -1; 0; 1; 2; 3; 4; 5] in Hin.
    cbn [In] in Hin.
    repeat (destruct Hin as [<-|Hin]; [try (vm_compute; reflexivity); congruence|]).
    contradiction. }
  exact (proj2 (nearest_offset_first demo_world "connect-bucket" "recordings" "abc-123" [])
           Hclock Hhit Hmiss).
Defined.

(* ================================================================== *)
(** * Part XVI. The first block of the recording-processing handler   *)
(* ================================================================== *)

Section ValidationProperties.
Context {FL : PyFloat} {HM : Hmac} {TP : Templates}.
Variable w : World.

Lemma validate_environment_raises (e : exn) :
  validate_environment w = Raise e -> exists m, e = ValueError m.
Proof.
  unfold validate_environment.
  destruct (_ =? "")%string; [intros [= <-]; eauto|].
  destruct (_ =? "")%string; [intros [= <-]; eauto|].
  destruct (Str.to_int (getenv w "URL_EXPIRATION" "604800")) as [a|x] eqn:Ea; cbn [rbind].
  - destruct (Str.to_int (getenv w "RECORDING_WAIT_TIME" "70")) as [b|x] eqn:Eb; cbn [rbind].
    + discriminate.
    + intros [= <-]. exact (to_int_raises _ _ Eb).
  - intros [= <-]. exact (to_int_raises _ _ Ea).
Qed.

(** When the first block returns a response, the handler returns it and
    has called nothing. *)
Lemma rejected_by_validation (event : ConnectEvent) (h : history) (response : Response) :
  read_request w event = Ok (inl response) ->
  handle_voicemail_processing w event h = (Ok response, h).
Proof.
  intros H. unfold handle_voicemail_processing, and_then, validation_block,
    try_except, bind, lift. now rewrite H.
Qed.

Lemma rejected_for_missing_key (event : ConnectEvent) (h : history) (key_repr : string) :
  read_request w event = Raise (KeyError key_repr) ->
  handle_voicemail_processing w event h
  = (Ok (Outcome 400 ("Missing contact data: " ++ key_repr) None), h).
Proof.
  intros H. unfold handle_voicemail_processing, and_then, validation_block,
    try_except, bind, lift. now rewrite H.
Qed.

Lemma rejected_for_configuration (event : ConnectEvent) (h : history) (m : string) :
  read_request w event = Raise (ValueError m) ->
  handle_voicemail_processing w event h = (Ok (Outcome 500 m None), h).
Proof.
  intros H. unfold handle_voicemail_processing, and_then, validation_block,
    try_except, bind, lift. now rewrite H.
Qed.

(** With a valid configuration and no recipient, the first block ends in
    the rejection of the missing recipient or in a [KeyError]. *)
Lemma read_request_without_recipient (event : ConnectEvent)
  (configuration : string * Z * string * Z) :
  validate_environment w = Ok configuration ->
  falsy (query_get "emailRecipient" (attributes_of event)) = true ->
  read_request w event = Ok (inl (Outcome 400 "Missing emailRecipient attribute" None))
  \/ exists key_repr, read_request w event = Raise (KeyError key_repr).
Proof.
  intros Hc Hr. unfold read_request. rewrite Hc. cbn [rbind].
  destruct configuration as [[[base_path url_expiration] email_sender] recording_wait_time].
  unfold attributes_of in Hr. unfold require.
  destruct (Details event) as [details|]; cbn [rbind]; [|right; eauto].
  destruct (ContactData details) as [contact_data|]; cbn [rbind]; [|right; eauto].
  destruct (InitialContactId contact_data); cbn [rbind]; [|right; eauto].
  destruct (ContactId contact_data); cbn [rbind]; [|right; eauto].
  destruct (InstanceARN contact_data); cbn [rbind]; [|right; eauto].
  left. destruct (query_get "emailRecipient" _) as [[|c r]|]; try reflexivity.
  discriminate.
Qed.

End ValidationProperties.

(** C8. An event whose attributes lack the recipient address (or give an
    empty one) is answered with status 400 and nothing is called before
    the answer: the history of calls, which records the object store, the
    transcription service, the mail service, the construction of clients
    and every sleep, is unchanged.  The configuration is read first: the
    status is 400 when [validate_environment] succeeds, and 500, also
    without a call, when it does not. *)
Theorem missing_recipient_is_rejected {FL : PyFloat} {HM : Hmac} {TP : Templates}
  (w : World) (event : ConnectEvent) (h : history) :
  falsy (query_get "emailRecipient" (attributes_of event)) = true ->
  ((exists configuration, validate_environment w = Ok configuration) ->
   exists message, handle_voicemail_processing w event h = (Ok (Outcome 400 message None), h))
  /\ (exists status message,
        handle_voicemail_processing w event h = (Ok (Outcome status message None), h)
        /\ (status = 400 \/ status = 500)).
Proof.
  intros Hr.
  assert (Hvalid : (exists configuration, validate_environment w = Ok configuration) ->
                   exists message,
                     handle_voicemail_processing w event h
                     = (Ok (Outcome 400 message None), h)).
  { intros [configuration Hc].
    destruct (read_request_without_recipient w event configuration Hc Hr) as [H|[k H]].
    - eexists. apply rejected_by_validation. exact H.
    - eexists. apply rejected_for_missing_key. exact H. }
  split; [exact Hvalid|].
  destruct (validate_environment w) as [configuration|e] eqn:Hc.
  - destruct Hvalid as [message H]; [eauto|]. exists 400, message. auto.
  - destruct (validate_environment_raises w e Hc) as [m ->].
    exists 500, m. split; [|now right].
    apply rejected_for_configuration. unfold read_request. now rewrite Hc.
Qed.

(** C8 at work: the event of [demo_world] with no attribute at all. *)
Lemma missing_recipient_is_rejected_witness :
  falsy (query_get "emailRecipient" (attributes_of (demo_event []))) = true
  /\ (exists configuration, validate_environment demo_world = Ok configuration)
  /\ exists message,
       handle_voicemail_processing demo_world (demo_event []) []
       = (Ok (Outcome 400 message None), []).
Proof.
  assert (H1 : falsy (query_get "emailRecipient" (attributes_of (demo_event []))) = true)
    by reflexivity.
  assert (H2 : exists configuration, validate_environment demo_world = Ok configuration)
    by (eexists; reflexivity).
  split; [exact H1|]. split; [exact H2|].
  exact (proj1 (missing_recipient_is_rejected demo_world (demo_event []) [] H1) H2).
Defined.

Example missing_recipient_message :
  handle_voicemail_processing demo_world (demo_event [("RecipientName", "Support")]) []
  = (Ok (Outcome 400 "Missing emailRecipient attribute" None), []).
Proof. vm_compute. reflexivity. Qed.

(** C10. The handler reads [ContactId] from the contact data, a field the
    documented event structure does not list.  With a valid configuration,
    an event that has [Details], [ContactData] and [InitialContactId] but
    no [ContactId] is answered 400 "Missing contact data: 'ContactId'",
    whatever its other fields are, and nothing is called before the
    answer. *)
Theorem missing_contact_id_is_rejected {FL : PyFloat} {HM : Hmac} {TP : Templates}
  (w : World) (event : ConnectEvent) (h : history)
  (details : ConnectDetails) (contact_data : ConnectContactData)
  (initial_contact_id : string) :
  (exists configuration, validate_environment w = Ok configuration) ->
  Details event = Some details ->
  ContactData details = Some contact_data ->
  InitialContactId contact_data = Some initial_contact_id ->
  ContactId contact_data = None ->
  handle_voicemail_processing w event h
  = (Ok (Outcome 400 "Missing contact data: 'ContactId'" None), h).
Proof.
  intros [configuration Hc] Hd Hcd Hi Hn.
  apply (rejected_for_missing_key w event h "'ContactId'").
  unfold read_request. rewrite Hc. cbn [rbind].
  destruct configuration as [[[base_path url_expiration] email_sender] recording_wait_time].
  unfold require. rewrite Hd. cbn [rbind]. rewrite Hcd. cbn [rbind].
  rewrite Hi. cbn [rbind]. rewrite Hn. reflexivity.
Qed.

(** C10 at work, on the event of the documentation. *)
Lemma missing_contact_id_is_rejected_witness :
  (exists configuration, validate_environment demo_world = Ok configuration)
  /\ handle_voicemail_processing demo_world documented_event []
     = (Ok (Outcome 400 "Missing contact data: 'ContactId'" None), []).
Proof.
  assert (H : exists configuration, validate_environment demo_world = Ok configuration)
    by (eexists; reflexivity).
  split; [exact H|].
  exact (missing_contact_id_is_rejected demo_world documented_event [] _ _ _ H
           eq_refl eq_refl eq_refl eq_refl).
Defined.

(* ================================================================== *)
(** * Part XVII. What a computation calls                             *)
(* ================================================================== *)

Section Traces.
Context {A B : Type}.
Variable P : Call -> Prop.

Lemma calls_only_ret (a : A) : calls_only P (ret a).
Proof. intros h. exists []. cbn. now rewrite app_nil_r. Qed.

Lemma calls_only_raise (e : exn) : calls_only P (@raise A e).
Proof. intros h. exists []. cbn. now rewrite app_nil_r. Qed.

Lemma calls_only_lift (r : result A) : calls_only P (lift r).
Proof. intros h. exists []. cbn. now rewrite app_nil_r. Qed.

Lemma calls_only_call (c : Call) (answer : history -> result A) :
  P c -> calls_only P (call c answer).
Proof. intros Hc h. exists [c]. cbn. auto. Qed.

Lemma calls_only_bind (m : M A) (k : A -> M B) :
  calls_only P m -> (forall a, calls_only P (k a)) -> calls_only P (bind m k).
Proof.
  intros Hm Hk h. unfold bind. destruct (Hm h) as (c1 & E1 & F1).
  destruct (m h) as [[a|e] h1]; cbn [snd] in E1; subst h1.
  - destruct (Hk a (h ++ c1)%list) as (c2 & E2 & F2).
    exists (c1 ++ c2)%list. rewrite E2, app_assoc. split; [reflexivity|].
    apply Forall_app. auto.
  - exists c1. auto.
Qed.

Lemma calls_only_try (m : M A) (handler : exn -> option (M A)) :
  calls_only P m -> (forall e k, handler e = Some k -> calls_only P k) ->
  calls_only P (try_except m handler).
Proof.
  intros Hm Hk h. unfold try_except. destruct (Hm h) as (c1 & E1 & F1).
  destruct (m h) as [[a|e] h1]; cbn [snd] in E1; subst h1.
  - exists c1. auto.
  - destruct (handler e) as [k|] eqn:Eh; [|exists c1; auto].
    destruct (Hk e k Eh (h ++ c1)%list) as (c2 & E2 & F2).
    exists (c1 ++ c2)%list. rewrite E2, app_assoc. split; [reflexivity|].
    apply Forall_app. auto.
Qed.

End Traces.

Lemma calls_only_weaken {A} (P Q : Call -> Prop) (m : M A) :
  (forall c, P c -> Q c) -> calls_only P m -> calls_only Q m.
Proof.
  intros H Hm h. destruct (Hm h) as (c & E & F). exists c. split; [exact E|].
  eapply Forall_impl; eauto.
Qed.

(** A catch-all that returns a value. *)
Lemma calls_only_catch_all {A} (P : Call -> Prop) (m : M A) (a : exn -> A) :
  calls_only P m -> calls_only P (try_except m (fun e => Some (ret (a e)))).
Proof.
  intros Hm. apply calls_only_try; [exact Hm|]. intros e k [= <-]. apply calls_only_ret.
Qed.

Lemma calls_only_now {FL : PyFloat} (P : Call -> Prop) (w : World) : calls_only P (now w).
Proof. intros h. exists []. cbn. now rewrite app_nil_r. Qed.

Ltac calls_step :=
  lazymatch goal with
  | |- calls_only _ (ret _) => apply calls_only_ret
  | |- calls_only _ (raise _) => apply calls_only_raise
  | |- calls_only _ (lift _) => apply calls_only_lift
  | |- calls_only _ (now _) => apply calls_only_now
  | |- calls_only _ (call _ _) => apply calls_only_call
  | |- calls_only _ (bind _ _) => apply calls_only_bind; [|intros]
  | |- calls_only _ (match ?x with _ => _ end) => destruct x
  end.

Ltac calls := repeat calls_step.

(* ================================================================== *)
(** * Part XVIII. Every answer of the Function URL handler            *)
(* ================================================================== *)

(** ** Reading a path back *)

Lemma prefix_inv (p s : string) :
  String.prefix p s = true -> s = p ++ Str.drop (String.length p) s.
Proof.
  revert s. induction p as [|c p IH]; intros s H; [reflexivity|].
  destruct s as [|d s]; [discriminate|]. cbn in H.
  destruct (Ascii.ascii_dec c d) as [->|]; [|discriminate].
  cbn. f_equal. now apply IH.
Qed.

Lemma split1_inv (c : ascii) (s a b : string) :
  Str.split1 c s = (a, Some b) -> s = a ++ String c b /\ Str.contains c a = false.
Proof.
  revert a. induction s as [|d s IH]; intros a; cbn; [discriminate|].
  destruct (Str.is_char c d) eqn:E.
  - intros [= <- <-]. apply is_char_eq in E as ->. split; reflexivity.
  - destruct (Str.split1 c s) as [a' b'] eqn:S. intros [= <- ->].
    destruct (IH a' eq_refl) as [-> Hc]. cbn. rewrite E, Hc. split; reflexivity.
Qed.

Lemma split1_none (c : ascii) (s a : string) :
  Str.split1 c s = (a, None) -> a = s /\ Str.contains c s = false.
Proof.
  revert a. induction s as [|d s IH]; intros a; cbn.
  - intros [= <-]. split; reflexivity.
  - destruct (Str.is_char c d) eqn:E; [discriminate|].
    destruct (Str.split1 c s) as [a' b'] eqn:S. intros [= <- ->].
    destruct (IH a' eq_refl) as [-> Hc]. rewrite Hc. split; reflexivity.
Qed.

Lemma falsy_false (o : option string) :
  falsy o = false -> exists s, o = Some s /\ s <> "".
Proof.
  destruct o as [s|]; [|discriminate]. cbn.
  destruct (String.eqb_spec s ""); [discriminate | eauto].
Qed.

Section UrlAnswers.
Context {FL : PyFloat} {HM : Hmac}.
Variable w : World.

(** What the object store part does, case by case. *)
Lemma redirect_to_object_cases (bucket key : string) (h : history) :
  let region := getenv w "AWS_REGION" "us-east-1" in
  let h1 := (h ++ [NewClient "s3" (Some region)])%list in
  let h2 := (h1 ++ [HeadObject bucket key])%list in
  let h3 := (h2 ++ [GeneratePresignedUrl bucket key 3600])%list in
  redirect_to_object w bucket key h
  = match new_client w h "s3" (Some region) with
    | Raise e => (Raise e, h1)
    | Ok _ =>
        match head_object w h1 bucket key with
        | Raise e => if has_code e "404" then (Ok resp_recording_not_found, h2)
                     else (Raise e, h2)
        | Ok _ =>
            match generate_presigned_url w h2 bucket key 3600 with
            | Ok url => (Ok (resp_redirect url), h3)
            | Raise e => (Raise e, h3)
            end
        end
    end.
Proof.
  cbv zeta. unfold redirect_to_object, bind, call, try_except, ret.
  destruct (new_client w h "s3" _) as [r|e]; [|reflexivity].
  destruct (head_object w _ bucket key) as [[]|e].
  - destruct (generate_presigned_url w _ bucket key 3600) as [url|e]; reflexivity.
  - destruct (has_code e "404"); reflexivity.
Qed.

(** The handler from the expiry check on, case by case. *)
Lemma answer_link_cases (bucket key expires signature : string) (h : history) :
  answer_link w bucket key expires signature h
  = match Str.to_int expires with
    | Raise _ => (Ok resp_invalid_expiration, h)
    | Ok n =>
        if (clock w h >? n)%Z then
          match Datetime.fromtimestamp n with
          | Ok dt => (Ok (resp_expired (Datetime.strftime_utc dt)), h)
          | Raise (ValueError _) => (Ok resp_invalid_expiration, h)
          | Raise e => (Raise e, h)
          end
        else if (getenv w "SIGNING_SECRET" "" =? "")%string
        then (Ok resp_configuration_error, h)
        else
          match verify_signature bucket key expires signature
                  (getenv w "SIGNING_SECRET" "") with
          | Ok true => redirect_to_object w bucket key h
          | Ok false => (Ok resp_invalid_signature, h)
          | Raise e => (Raise e, h)
          end
    end.
Proof.
  unfold answer_link, check_expiration, try_except, bind, lift, now, ret.
  destruct (Str.to_int expires) as [n|e] eqn:E.
  - destruct (clock w h >? n)%Z.
    + destruct (Datetime.fromtimestamp n) as [dt|[]]; reflexivity.
    + destruct (getenv w "SIGNING_SECRET" "" =? "")%string; [reflexivity|].
      destruct (verify_signature _ _ _ _ _) as [[|]|e]; reflexivity.
  - destruct (to_int_raises _ _ E) as [m ->]. reflexivity.
Qed.

(** The whole handler, case by case: the path, the parameters, then
    [answer_link] under the catch-all. *)
Lemma handle_url_generation_cases (event : UrlEvent) (h : history) :
  let raw_path := match rawPath event with Some p => p | None => "" end in
  let query := match queryStringParameters event with Some q => q | None => [] end in
  (Str.startswith "/voicemail/" raw_path = false
   /\ handle_url_generation w event h = (Ok resp_invalid_path, h))
  \/ (exists rest, raw_path = "/voicemail/" ++ rest /\ Str.contains "/" rest = false
      /\ handle_url_generation w event h = (Ok resp_missing_bucket_or_key, h))
  \/ (exists bucket key_encoded,
        raw_path = "/voicemail/" ++ bucket ++ "/" ++ key_encoded
        /\ Str.contains "/" bucket = false
        /\ ((falsy (query_get "expires" query) || falsy (query_get "signature" query) = true
             /\ handle_url_generation w event h = (Ok resp_missing_parameters, h))
            \/ (exists expires signature,
                  query_get "expires" query = Some expires /\ expires <> ""
                  /\ query_get "signature" query = Some signature /\ signature <> ""
                  /\ handle_url_generation w event h
                     = try_except
                         (answer_link w bucket (Url.unquote key_encoded) expires signature)
                         (fun _ => Some (ret resp_failed)) h))).
Proof.
  cbv zeta. unfold handle_url_generation.
  set (raw_path := match rawPath event with Some p => p | None => "" end).
  set (query := match queryStringParameters event with Some q => q | None => [] end).
  destruct (Str.startswith "/voicemail/" raw_path) eqn:P; cbn [negb];
    [|left; split; reflexivity].
  right. apply prefix_inv in P. cbn [String.length] in P.
  set (rest := Str.drop 11 raw_path) in *.
  destruct (Str.split1 "/" rest) as [bucket [key_encoded|]] eqn:S.
  - right. apply split1_inv in S as [Hrest Hb]. exists bucket, key_encoded.
    split; [rewrite P, Hrest; reflexivity|]. split; [exact Hb|].
    rewrite Hrest, append_slash_nonempty, contains_app.
    change (Str.contains "/" (String "/" key_encoded)) with true.
    rewrite orb_true_r. cbn [orb negb].
    destruct (falsy (query_get "expires" query) || falsy (query_get "signature" query)) eqn:F.
    + left. split; reflexivity.
    + right. apply orb_false_elim in F as [Fe Fs].
      destruct (falsy_false _ Fe) as (expires & -> & He).
      destruct (falsy_false _ Fs) as (signature & -> & Hs).
      exists expires, signature. repeat split; auto.
  - left. apply split1_none in S as [-> Hc]. exists rest. split; [exact P|]. split; [exact Hc|].
    rewrite Hc. cbn [negb]. now rewrite orb_true_r.
Qed.

End UrlAnswers.

Section UrlTheorems.
Context {FL : PyFloat} {HM : Hmac}.
Variable w : World.

Lemma link_answers (bucket key expires signature : string) (h : history) :
  exists r h',
    try_except (answer_link w bucket key expires signature)
      (fun _ => Some (ret resp_failed)) h = (Ok r, h')
    /\ link_answer w bucket key h r h'.
Proof.
  unfold try_except. rewrite answer_link_cases.
  destruct (Str.to_int expires) as [n|e]; [|eexists; eexists; split; [reflexivity|constructor]].
  destruct (clock w h >? n)%Z.
  { destruct (Datetime.fromtimestamp n) as [dt|[]];
      eexists; eexists; (split; [reflexivity|]); constructor. }
  destruct (String.eqb_spec (getenv w "SIGNING_SECRET" "") "") as [Hs|Hs];
    [eexists; eexists; split; [reflexivity | now constructor]|].
  destruct (verify_signature _ _ _ _ _) as [[|]|e];
    [| eexists; eexists; split; [reflexivity|constructor]
     | eexists; eexists; split; [reflexivity|constructor]].
  rewrite redirect_to_object_cases. cbv zeta. unfold redirect_calls.
  set (c1 := NewClient "s3" (Some (getenv w "AWS_REGION" "us-east-1"))).
  set (c2 := HeadObject bucket key). set (c3 := GeneratePresignedUrl bucket key 3600).
  destruct (new_client w h "s3" _) as [r0|e].
  - destruct (head_object w _ bucket key) as [[]|e].
    + rewrite <- !app_assoc. cbn [app].
      destruct (generate_presigned_url w _ bucket key 3600) as [url|e];
        eexists; eexists; (split; [reflexivity|]);
        apply (answer_store w bucket key h _ [c1; c2; c3] []); eauto; discriminate.
    + rewrite <- !app_assoc. cbn [app].
      destruct (has_code e "404"); eexists; eexists; (split; [reflexivity|]);
        apply (answer_store w bucket key h _ [c1; c2] [c3]); eauto; discriminate.
  - eexists; eexists; (split; [reflexivity|]).
    apply (answer_store w bucket key h _ [c1] [c2; c3]); eauto; discriminate.
Qed.

Lemma link_answer_status (bucket key : string) (h : history) (r : Response) (h' : history) :
  link_answer w bucket key h r h' -> In (status_of r) [302; 400; 403; 404; 500].
Proof.
  intros [| | | | |r' calls rest _ _ _ [->|[->|[url ->]]]]; cbn; auto 10.
Qed.

Lemma link_answer_calls (bucket key : string) (h : history) (r : Response) (h' : history) :
  link_answer w bucket key h r h' ->
  exists calls rest, h' = (h ++ calls)%list /\ (calls ++ rest)%list = redirect_calls w bucket key.
Proof.
  intros [| | | | |r' calls rest _ E _ _];
    try (exists [], (redirect_calls w bucket key); split; [now rewrite app_nil_r | reflexivity]).
  exists calls, rest. auto.
Qed.

End UrlTheorems.

(** X1. The Function URL handler answers every request: it never raises,
    the status of its answer is 302, 400, 403, 404 or 500, and the calls
    it makes are a front part of: build the S3 client, check that the
    object exists, presign its URL.  It never sleeps, sends mail or talks
    to the transcription service. *)
Theorem url_handler_always_answers {FL : PyFloat} {HM : Hmac}
  (w : World) (event : UrlEvent) (h : history) :
  exists (response : Response) (calls : history),
    handle_url_generation w event h = (Ok response, (h ++ calls)%list)
    /\ In (status_of response) [302; 400; 403; 404; 500]
    /\ exists bucket key rest,
         (calls ++ rest)%list
         = [NewClient "s3" (Some (getenv w "AWS_REGION" "us-east-1"));
            HeadObject bucket key; GeneratePresignedUrl bucket key 3600].
Proof.
  destruct (handle_url_generation_cases w event h)
    as [[_ E] | [(rest & _ & _ & E) | (bucket & key_encoded & _ & _ & [[_ E] | H])]].
  1-3: eexists; exists []; rewrite app_nil_r; split; [exact E|];
       split; [cbn; auto 10 | exists "", ""; eexists; reflexivity].
  destruct H as (expires & signature & _ & _ & _ & _ & E).
  destruct (link_answers w bucket (Url.unquote key_encoded) expires signature h)
    as (r & h' & E' & A).
  destruct (link_answer_calls w _ _ _ _ _ A) as (calls & rest & -> & C).
  exists r, calls. split; [now rewrite E|]. split; [eapply link_answer_status; eauto|].
  exists bucket, (Url.unquote key_encoded), rest. exact C.
Qed.

Lemma verify_signature_true {FL : PyFloat} {HM : Hmac}
  (bucket key expires signature secret_key : string) :
  verify_signature bucket key expires signature secret_key = Ok true ->
  signature = hmac_sha256_hexdigest secret_key (signed_message bucket key expires).
Proof.
  unfold verify_signature, compare_digest.
  destruct (Str.isascii signature && _); [|discriminate].
  intros [= H]. now apply String.eqb_eq.
Qed.

(** X2. A redirect is given only for a link that verifies.  When the
    handler answers 302, the request was for [/voicemail/{bucket}/{key}]
    with both parameters, [expires] an integer the clock has not passed,
    and the signing secret is configured.  Where the key that [unquote]
    reads in the path lies within the characters of the model,
    [signature] is the HMAC of the text [{bucket}:{key}:{expires}] for
    that key, the object store has confirmed the object, and the
    [Location] is the URL the store presigned for this bucket and key for
    3600 seconds; these three are the only calls made. *)
Theorem redirect_means_verified {FL : PyFloat} {HM : Hmac}
  (w : World) (event : UrlEvent) (h h' : history) (response : Response) :
  handle_url_generation w event h = (Ok response, h') ->
  status_of response = 302 ->
  exists bucket key_encoded query expires signature n,
    rawPath event = Some ("/voicemail/" ++ bucket ++ "/" ++ key_encoded)
    /\ Str.contains "/" bucket = false
    /\ queryStringParameters event = Some query
    /\ query_get "expires" query = Some expires
    /\ query_get "signature" query = Some signature
    /\ Str.to_int expires = Ok n /\ clock w h <= n
    /\ getenv w "SIGNING_SECRET" "" <> ""
    /\ (Url.in_range key_encoded = true ->
        let key := Url.unquote key_encoded in
        let h1 := (h ++ [NewClient "s3" (Some (getenv w "AWS_REGION" "us-east-1"))])%list in
        let h2 := (h1 ++ [HeadObject bucket key])%list in
        signature = hmac_sha256_hexdigest (getenv w "SIGNING_SECRET" "")
                      (bucket ++ ":" ++ key ++ ":" ++ expires)
        /\ head_object w h1 bucket key = Ok tt
        /\ exists url,
             generate_presigned_url w h2 bucket key 3600 = Ok url
             /\ h' = (h2 ++ [GeneratePresignedUrl bucket key 3600])%list
             /\ response = resp_redirect url).
Proof.
  intros E Hs.
  destruct (handle_url_generation_cases w event h)
    as [[_ E'] | [(rest & _ & _ & E') | (bucket & key_encoded & Hp & Hb & [[_ E'] | H])]];
    try (rewrite E' in E; injection E as <- <-; discriminate).
  destruct H as (expires & signature & He & _ & Hg & _ & E').
  rewrite E' in E. clear E'.
  unfold try_except in E. rewrite answer_link_cases in E.
  destruct (rawPath event) as [p|]; [|discriminate]. subst p.
  destruct (queryStringParameters event) as [query|]; [|discriminate].
  destruct (Str.to_int expires) as [n|e] eqn:En; [|injection E as <- <-; discriminate].
  destruct (Z.gtb_spec (clock w h) n) as [Hgt|Hle].
  { destruct (Datetime.fromtimestamp n) as [dt|[]]; injection E as <- <-; discriminate. }
  destruct (String.eqb_spec (getenv w "SIGNING_SECRET" "") "") as [Hsec|Hsec];
    [injection E as <- <-; discriminate|].
  destruct (verify_signature _ _ _ _ _) as [[|]|e] eqn:V;
    [| injection E as <- <-; discriminate | injection E as <- <-; discriminate].
  apply verify_signature_true in V.
  rewrite redirect_to_object_cases in E. cbv zeta in E.
  destruct (new_client w h "s3" _) as [r0|e]; [|injection E as <- <-; discriminate].
  destruct (head_object w _ bucket _) as [[]|e] eqn:Hh;
    [|destruct (has_code e "404"); injection E as <- <-; discriminate].
  destruct (generate_presigned_url w _ bucket _ 3600) as [url|e] eqn:Hu;
    [|injection E as <- <-; discriminate].
  injection E as <- <-.
  exists bucket, key_encoded, query, expires, signature, n.
  do 8 (split; [solve [auto]|]).
  intros _. cbv zeta. split; [exact V|]. split; [exact Hh|].
  exists url. auto.
Qed.

(** A link followed in [demo_world]. *)
Lemma redirect_means_verified_witness :
  let signature :=
    hmac_sha256_hexdigest demo_secret
      ("connect-bucket" ++ ":" ++ demo_key ++ ":" ++ "1705053900") in
  let request := link_request "connect-bucket" demo_key "1705053900" signature in
  let answer := handle_url_generation demo_world request [] in
  (exists response, fst answer = Ok response /\ status_of response = 302)
  /\ Url.in_range (Url.quote demo_key) = true
  /\ signature = hmac_sha256_hexdigest (getenv demo_world "SIGNING_SECRET" "")
                   ("connect-bucket" ++ ":" ++ Url.unquote (Url.quote demo_key)
                    ++ ":" ++ "1705053900")
  /\ head_object demo_world [NewClient "s3" (Some "us-east-1")] "connect-bucket"
       (Url.unquote (Url.quote demo_key)) = Ok tt.
Proof.
  intros signature request answer.
  assert (E : answer
              = (Ok (resp_redirect
                       ("https://connect-bucket.s3.amazonaws.com/" ++ demo_key
                        ++ "?X-Amz-Expires=3600")),
                 [NewClient "s3" (Some "us-east-1"); HeadObject "connect-bucket" demo_key;
                  GeneratePresignedUrl "connect-bucket" demo_key 3600]))
    by (vm_compute; reflexivity).
  split; [eexists; rewrite E; split; reflexivity|].
  assert (Hr : Url.in_range (Url.quote demo_key) = true) by (vm_compute; reflexivity).
  split; [exact Hr|].
  set (url0 := "https://connect-bucket.s3.amazonaws.com/" ++ demo_key
               ++ "?X-Amz-Expires=3600") in E.
  set (h0 := [NewClient "s3" (Some "us-east-1"); HeadObject "connect-bucket" demo_key;
              GeneratePresignedUrl "connect-bucket" demo_key 3600]) in E.
  destruct (@redirect_means_verified decimal_floats hmac_sha256 demo_world request []
              h0 (resp_redirect url0) E eq_refl)
    as (bucket & key_encoded & query & expires & sig & n
        & Hp & Hb & Hq & He & Hs & _ & _ & _ & Hkey).
  assert (Hsplit : (bucket, Some key_encoded)
                   = ("connect-bucket", Some (Url.quote demo_key))).
  { rewrite <- (split1_app "/" bucket key_encoded Hb).
    rewrite <- (split1_app "/" "connect-bucket" (Url.quote demo_key) eq_refl).
    f_equal.
    apply (f_equal (fun o => match o with Some p => Str.drop 11 p | None => "" end)) in Hp.
    symmetry. exact Hp. }
  injection Hsplit as -> ->.
  unfold request, link_request, url_event in Hq. cbn [queryStringParameters] in Hq.
  injection Hq as <-. injection He as <-. injection Hs as <-.
  destruct (Hkey Hr) as (Hsig & Hh & _). cbv zeta in Hsig, Hh. split; assumption.
Defined.

(** X3. [hmac.compare_digest] refuses a [str] with a character outside
    ASCII: a request that has passed the expiry check and carries such a
    signature is answered 500 "Failed to generate URL", not 403, and no
    call is made. *)
Theorem non_ascii_signature_is_server_error {FL : PyFloat} {HM : Hmac}
  (w : World) (bucket key_encoded expires signature : string)
  (query : list (string * string)) (n : Z) (h : history) :
  query_get "expires" query = Some expires ->
  query_get "signature" query = Some signature ->
  Str.to_int expires = Ok n -> clock w h <= n ->
  getenv w "SIGNING_SECRET" "" <> "" ->
  Str.isascii signature = false ->
  (forall key secret_key,
     verify_signature bucket key expires signature secret_key = Raise TypeError)
  /\ handle_url_generation w (url_event bucket key_encoded query) h = (Ok resp_failed, h).
Proof.
  intros He Hs Hn Hc Hsec Ha.
  assert (Hv : forall b key secret_key,
             verify_signature b key expires signature secret_key = Raise TypeError).
  { intros b key secret_key. unfold verify_signature, compare_digest. now rewrite Ha. }
  split; [apply Hv|].
  assert (Hne : signature <> "") by (intros ->; discriminate).
  destruct (handle_url_request w bucket key_encoded expires signature query h
              He (to_int_ok_nonempty _ _ Hn) Hs Hne) as (b & k & ->).
  unfold try_except. rewrite answer_link_cases, Hn.
  destruct (Z.gtb_spec (clock w h) n); [lia|].
  destruct (String.eqb_spec (getenv w "SIGNING_SECRET" "") ""); [contradiction|].
  now rewrite Hv.
Qed.

(** A signature with the character of code 233. *)
Lemma non_ascii_signature_is_server_error_witness :
  let signature := String (ascii_of_nat 233) "f00" in
  Str.isascii signature = false
  /\ handle_url_generation demo_world
       (url_event "connect-bucket" "k.wav"
          [("expires", "1705053900"); ("signature", signature)]) []
     = (Ok resp_failed, []).
Proof.
  intros signature. split; [reflexivity|].
  refine (proj2 (@non_ascii_signature_is_server_error decimal_floats hmac_sha256 demo_world
                   "connect-bucket" "k.wav" "1705053900" signature
                   [("expires", "1705053900"); ("signature", signature)] 1705053900 []
                   eq_refl eq_refl eq_refl _ _ eq_refl)).
  - vm_compute. discriminate.
  - discriminate.
Defined.

(** X4. The three answers to a request of the wrong shape, each given
    exactly in its case and without a call: 404 "Invalid path" when the
    path does not start with [/voicemail/] (or is missing); 400 "Missing
    bucket or key" when nothing or no [/] follows the prefix (an empty
    bucket or an empty key with the [/] present is let through); 400
    "Missing required parameters" when [expires] or [signature] is missing
    or empty. *)
Theorem shape_errors_of_a_request {FL : PyFloat} {HM : Hmac}
  (w : World) (event : UrlEvent) (h : history) :
  let raw_path := match rawPath event with Some p => p | None => "" end in
  let query := match queryStringParameters event with Some q => q | None => [] end in
  let rest := Str.drop 11 raw_path in
  let answer := handle_url_generation w event h in
  (answer = (Ok resp_invalid_path, h) <-> Str.startswith "/voicemail/" raw_path = false)
  /\ (answer = (Ok resp_missing_bucket_or_key, h)
      <-> Str.startswith "/voicemail/" raw_path = true /\ Str.contains "/" rest = false)
  /\ (answer = (Ok resp_missing_parameters, h)
      <-> Str.startswith "/voicemail/" raw_path = true /\ Str.contains "/" rest = true
          /\ falsy (query_get "expires" query) || falsy (query_get "signature" query) = true)
  /\ (fst answer = Ok resp_invalid_path \/ fst answer = Ok resp_missing_bucket_or_key
      \/ fst answer = Ok resp_missing_parameters -> snd answer = h).
Proof.
  cbv zeta.
  set (raw_path := match rawPath event with Some p => p | None => "" end).
  set (query := match queryStringParameters event with Some q => q | None => [] end).
  pose proof (handle_url_generation_cases w event h) as C. cbv zeta in C.
  fold raw_path query in C.
  assert (D : forall bucket key expires signature r h',
             try_except (answer_link w bucket key expires signature)
               (fun _ => Some (ret resp_failed)) h = (Ok r, h') ->
             r <> resp_invalid_path /\ r <> resp_missing_bucket_or_key
             /\ r <> resp_missing_parameters).
  { intros bucket key expires signature r h' E.
    destruct (link_answers w bucket key expires signature h) as (r' & h'' & E' & A).
    rewrite E' in E. injection E as <- <-.
    destruct A as [| | | | |r' calls rest' _ _ _ [->|[->|[url ->]]]];
      repeat split; discriminate. }
  destruct C as [[P E] | [(rest & Hp & Hc & E) | (bucket & key_encoded & Hp & Hb & C)]].
  - rewrite E, P. split; [tauto|]. split; [|split]; [split | split | reflexivity].
    + discriminate.
    + intros [? _]; discriminate.
    + discriminate.
    + intros [? _]; discriminate.
  - assert (P : Str.startswith "/voicemail/" raw_path = true)
      by (rewrite Hp; apply startswith_app).
    rewrite E, P, Hp. change (Str.drop 11 ("/voicemail/" ++ rest)) with rest. rewrite Hc.
    split; [|split; [|split]]; [split | tauto | split | reflexivity]; try discriminate.
    intros (_ & ? & _); discriminate.
  - assert (P : Str.startswith "/voicemail/" raw_path = true)
      by (rewrite Hp; apply startswith_app).
    assert (Hc : Str.contains "/" (Str.drop 11 raw_path) = true).
    { rewrite Hp. change (Str.drop 11 ("/voicemail/" ++ ?x)) with x.
      change (bucket ++ "/" ++ key_encoded) with (bucket ++ String "/" key_encoded).
      rewrite contains_app. change (Str.contains "/" (String "/" key_encoded)) with true.
      apply orb_true_r. }
    rewrite P, Hc.
    destruct C as [[F E] | (expires & signature & He & He' & Hs & Hs' & E)].
    + rewrite E, F.
      split; [|split; [|split]]; [split | split | tauto | reflexivity]; try discriminate.
      intros [_ ?]; discriminate.
    + assert (F : falsy (query_get "expires" query) || falsy (query_get "signature" query)
                  = false).
      { rewrite He, Hs. cbn.
        destruct (String.eqb_spec expires ""); [contradiction|].
        destruct (String.eqb_spec signature ""); [contradiction | reflexivity]. }
      rewrite F, E.
      destruct (try_except _ _ h) as [[r|e] h'] eqn:T.
      * destruct (D _ _ _ _ _ _ T) as (D1 & D2 & D3).
        split; [|split; [|split]]; [split | split | split |].
        -- intros [= ? ?]; contradiction.
        -- discriminate.
        -- intros [= ? ?]; contradiction.
        -- intros [_ ?]; discriminate.
        -- intros [= ? ?]; contradiction.
        -- intros (_ & _ & ?); discriminate.
        -- cbn. intros [[= ?] | [[= ?] | [= ?]]]; contradiction.
      * split; [|split; [|split]]; [split | split | split |]; try discriminate.
        -- intros [_ ?]; discriminate.
        -- intros (_ & _ & ?); discriminate.
        -- cbn. intros [? | [? | ?]]; discriminate.
Qed.

(** X5. Without [SIGNING_SECRET] no link is followed.  When the variable
    is unset or empty, every request is answered without a call and never
    with a redirect; a well-formed request whose [expires] the clock has
    not passed is answered 500 "Server configuration error", whatever its
    signature. *)
Theorem no_secret_no_redirect {FL : PyFloat} {HM : Hmac}
  (w : World) (event : UrlEvent) (h : history) :
  getenv w "SIGNING_SECRET" "" = "" ->
  (exists response,
     handle_url_generation w event h = (Ok response, h)
     /\ In (status_of response) [400; 403; 404; 500])
  /\ (forall bucket key_encoded query expires signature n,
        event = url_event bucket key_encoded query ->
        query_get "expires" query = Some expires ->
        query_get "signature" query = Some signature -> signature <> "" ->
        Str.to_int expires = Ok n -> clock w h <= n ->
        handle_url_generation w event h = (Ok resp_configuration_error, h)).
Proof.
  intros Hsec. split.
  - destruct (handle_url_generation_cases w event h)
      as [[_ E] | [(rest & _ & _ & E) | (bucket & key_encoded & _ & _ & [[_ E] | H])]].
    1-3: eexists; split; [exact E | cbn; auto 10].
    destruct H as (expires & signature & _ & _ & _ & _ & E).
    destruct (link_answers w bucket (Url.unquote key_encoded) expires signature h)
      as (r & h' & E' & A).
    rewrite E, E'.
    destruct A as [| | | | |r' calls rest' Hne _ _ _]; try contradiction;
      eexists; (split; [reflexivity | cbn; auto 10]).
  - intros bucket key_encoded query expires signature n -> He Hs Hs' Hn Hc.
    destruct (handle_url_request w bucket key_encoded expires signature query h
                He (to_int_ok_nonempty _ _ Hn) Hs Hs') as (b & k & ->).
    unfold try_except. rewrite answer_link_cases, Hn, Hsec.
    destruct (Z.gtb_spec (clock w h) n); [lia | reflexivity].
Qed.

(** [demo_world] without its environment: the link that [demo_world]
    follows is answered 500. *)
Lemma no_secret_no_redirect_witness :
  let w := world_of [] demo_start (fun _ _ => true)
             (fun _ => job_in_state "COMPLETED") demo_transcript in
  let signature :=
    hmac_sha256_hexdigest demo_secret
      (signed_message "connect-bucket" demo_key "1705053900") in
  getenv w "SIGNING_SECRET" "" = ""
  /\ handle_url_generation w
       (link_request "connect-bucket" demo_key "1705053900" signature) []
     = (Ok resp_configuration_error, []).
Proof.
  intros w signature. split; [reflexivity|].
  refine (proj2 (@no_secret_no_redirect decimal_floats hmac_sha256 w
                   (link_request "connect-bucket" demo_key "1705053900" signature) []
                   eq_refl)
            "connect-bucket" (Url.quote demo_key)
            [("expires", "1705053900"); ("signature", signature)]
            "1705053900" signature 1705053900 eq_refl eq_refl eq_refl _ eq_refl _).
  - apply (@hexdigest_nonempty hmac_sha256).
  - vm_compute. discriminate.
Defined.

(** X6. What the object store decides for a link that verifies.  For a
    link issued for a bucket without [/], with the secret configured and
    [expires] not passed ([expires] being an integer Python writes, of at
    most 4300 digits), the handler builds the S3 client and asks for the
    object under the decoded key.  A 404 of the store is answered
    404 "Recording not found" and no URL is presigned; any other failure
    of the check, or of the presigning, is answered 500; otherwise the
    answer is the redirect to the presigned URL. *)
Theorem store_decides_for_a_verified_link {FL : PyFloat} {HM : Hmac}
  (w : World) (bucket key : string) (expires : Z) (h : history) (client : option string) :
  let secret_key := getenv w "SIGNING_SECRET" "" in
  let signature :=
    hmac_sha256_hexdigest secret_key (signed_message bucket key (Str.of_Z expires)) in
  let request := link_request bucket key (Str.of_Z expires) signature in
  let region := getenv w "AWS_REGION" "us-east-1" in
  let h1 := (h ++ [NewClient "s3" (Some region)])%list in
  let h2 := (h1 ++ [HeadObject bucket key])%list in
  let h3 := (h2 ++ [GeneratePresignedUrl bucket key 3600])%list in
  Str.contains "/" bucket = false -> secret_key <> "" -> clock w h <= expires ->
  Str.fits expires = true ->
  new_client w h "s3" (Some region) = Ok client ->
  (forall e, head_object w h1 bucket key = Raise e ->
     handle_url_generation w request h
     = (Ok (if has_code e "404" then resp_recording_not_found else resp_failed), h2))
  /\ (head_object w h1 bucket key = Ok tt ->
      handle_url_generation w request h
      = (Ok match generate_presigned_url w h2 bucket key 3600 with
            | Ok url => resp_redirect url
            | Raise _ => resp_failed
            end, h3)).
Proof.
  intros secret_key signature request region h1 h2 h3 Hb Hsec Hc Hfits Hn.
  assert (E : handle_url_generation w request h
              = try_except (redirect_to_object w bucket key)
                  (fun _ => Some (ret resp_failed)) h).
  { unfold request, link_request.
    rewrite (handle_url_event w bucket (Url.quote key) (Str.of_Z expires) signature);
      [| exact Hb | reflexivity | apply of_Z_nonempty | reflexivity | apply hexdigest_nonempty].
    rewrite unquote_quote. unfold try_except.
    rewrite (answer_link_verified w bucket key _ signature expires h);
      [reflexivity | apply to_int_of_Z; exact Hfits | exact Hc | exact Hsec
      | apply verify_own_signature]. }
  rewrite E. unfold try_except. rewrite redirect_to_object_cases. cbv zeta.
  fold region. rewrite Hn. fold h1 h2 h3. split.
  - intros e ->. now destruct (has_code e "404").
  - intros ->. now destruct (generate_presigned_url w h2 bucket key 3600).
Qed.

(** The same link in [emptied_world], where the store has no object, and
    in [demo_world], where it has one. *)
Lemma store_decides_for_a_verified_link_witness :
  let signature :=
    hmac_sha256_hexdigest demo_secret
      (signed_message "connect-bucket" demo_key "1705053900") in
  let request := link_request "connect-bucket" demo_key "1705053900" signature in
  (Str.contains "/" "connect-bucket" = false /\ clock emptied_world [] <= 1705053900
   /\ Str.fits 1705053900 = true)
  /\ handle_url_generation emptied_world request []
     = (Ok resp_recording_not_found,
        [NewClient "s3" (Some "us-east-1"); HeadObject "connect-bucket" demo_key])
  /\ fst (handle_url_generation demo_world request [])
     = Ok (resp_redirect ("https://connect-bucket.s3.amazonaws.com/" ++ demo_key
                          ++ "?X-Amz-Expires=3600")).
Proof.
  intros signature request.
  assert (Hc : clock emptied_world [] <= 1705053900) by (vm_compute; discriminate).
  assert (Hs : getenv emptied_world "SIGNING_SECRET" "" <> "") by discriminate.
  assert (Hf : Str.fits 1705053900 = true) by (vm_compute; reflexivity).
  split; [split; [reflexivity | split; [exact Hc | exact Hf]]|]. split.
  - exact (proj1 (@store_decides_for_a_verified_link decimal_floats hmac_sha256
                    emptied_world "connect-bucket" demo_key 1705053900 [] (Some "us-east-1")
                    eq_refl Hs Hc Hf eq_refl) not_found eq_refl).
  - exact (f_equal fst
             (proj2 (@store_decides_for_a_verified_link decimal_floats hmac_sha256
                       demo_world "connect-bucket" demo_key 1705053900 []
                       (Some "us-east-1") eq_refl Hs Hc Hf eq_refl) eq_refl)).
Defined.

(* ================================================================== *)
(** * Part XIX. The utilities                                         *)
(* ================================================================== *)

(** ** Splitting and stripping *)

Lemma split_app (c : ascii) (a s : string) :
  Str.contains c a = false -> Str.split c (a ++ String c s) = a :: Str.split c s.
Proof.
  induction a as [|x a IH]; cbn.
  - intros _. unfold Str.is_char. now rewrite Ascii.eqb_refl.
  - intros H. apply orb_false_elim in H as [Hx Ha]. now rewrite Hx, (IH Ha).
Qed.

Lemma split_none (c : ascii) (a : string) :
  Str.contains c a = false -> Str.split c a = [a].
Proof.
  induction a as [|x a IH]; cbn; [reflexivity|].
  intros H. apply orb_false_elim in H as [Hx Ha]. now rewrite Hx, (IH Ha).
Qed.

(** ** [parse_s3_uri] and [fetch_json] *)

Lemma parse_s3_uri_app (bucket key : string) :
  Str.contains "/" bucket = false ->
  parse_s3_uri ("s3://" ++ bucket ++ "/" ++ key) = Ok (bucket, key).
Proof.
  intros Hb. unfold parse_s3_uri.
  change (Str.drop 5 ("s3://" ++ bucket ++ "/" ++ key)) with (bucket ++ String "/" key).
  now rewrite split1_app.
Qed.

Lemma parse_s3_uri_no_slash (uri : string) :
  Str.contains "/" (Str.drop 5 uri) = false ->
  exists m, parse_s3_uri uri = Raise (ValueError m).
Proof.
  intros Hc. unfold parse_s3_uri.
  destruct (Str.split1 "/" (Str.drop 5 uri)) as [b' [k'|]] eqn:S; [|eauto].
  apply split1_inv in S as [S _]. rewrite S, contains_app in Hc. cbn in Hc.
  now rewrite orb_true_r in Hc.
Qed.

(** X7. [parse_s3_uri] drops five characters, whatever they are, and
    splits the rest at its first [/]: it inverts the [uri] that the locator
    builds from a bucket without [/] and a key, it returns a bucket
    without [/] in every case, and it raises [ValueError] when no [/]
    follows the first five characters. *)
Theorem parse_s3_uri_inverts_the_locator
  (bucket prefix initial_contact_id : string) (dt offset : Z) :
  Str.contains "/" bucket = false ->
  (forall key, parse_s3_uri ("s3://" ++ bucket ++ "/" ++ key) = Ok (bucket, key))
  /\ (let location := location_of bucket prefix initial_contact_id dt offset in
      parse_s3_uri (loc_uri location) = Ok (bucket, loc_key location))
  /\ (forall uri b k, parse_s3_uri uri = Ok (b, k) ->
        Str.drop 5 uri = b ++ "/" ++ k /\ Str.contains "/" b = false)
  /\ (forall uri, Str.contains "/" (Str.drop 5 uri) = false ->
        exists m, parse_s3_uri uri = Raise (ValueError m)).
Proof.
  intros Hb.
  split; [intros key; now apply parse_s3_uri_app|].
  split; [now apply parse_s3_uri_app|]. split.
  - intros uri b k. unfold parse_s3_uri.
    destruct (Str.split1 "/" (Str.drop 5 uri)) as [b' [k'|]] eqn:S; [|discriminate].
    intros [= <- <-]. now apply split1_inv in S.
  - apply parse_s3_uri_no_slash.
Qed.

Lemma parse_s3_uri_inverts_the_locator_witness :
  Str.contains "/" "connect-bucket" = false
  /\ parse_s3_uri ("s3://connect-bucket/" ++ demo_key) = Ok ("connect-bucket", demo_key)
  /\ exists m, parse_s3_uri "s3://connect-bucket" = Raise (ValueError m).
Proof.
  split; [reflexivity|].
  pose proof (parse_s3_uri_inverts_the_locator "connect-bucket" "" "" 0 0 eq_refl)
    as (H1 & _ & _ & H4).
  split; [exact (H1 demo_key) | exact (H4 "s3://connect-bucket" eq_refl)].
Defined.

(** X8. [fetch_json] reads one document.  A uri that starts with
    [s3://] is read from the object store, under the bucket and key that
    [parse_s3_uri] finds, with a client of the given region; when it has no
    [/] after the bucket the function raises [ValueError] before any call.
    Any other uri is opened as a URL, and the store is not involved. *)
Theorem fetch_json_reads_one_document {FL : PyFloat}
  (w : World) (uri region : string) (h : history) :
  (forall bucket key client,
     uri = "s3://" ++ bucket ++ "/" ++ key -> Str.contains "/" bucket = false ->
     new_client w h "s3" (Some region) = Ok client ->
     let h1 := (h ++ [NewClient "s3" (Some region)])%list in
     fetch_json w (PStr uri) region h
     = (get_object_json w h1 bucket key, (h1 ++ [GetObject bucket key])%list))
  /\ (Str.startswith "s3://" uri = true -> Str.contains "/" (Str.drop 5 uri) = false ->
      exists m, fetch_json w (PStr uri) region h = (Raise (ValueError m), h))
  /\ (Str.startswith "s3://" uri = false ->
      fetch_json w (PStr uri) region h = (urlopen_json w h uri, (h ++ [UrlOpen uri])%list)).
Proof.
  split; [|split].
  - intros bucket key client -> Hb Hc. cbv zeta. unfold fetch_json.
    rewrite (startswith_app "s3://").
    unfold bind, lift, call. now rewrite (parse_s3_uri_app _ _ Hb), Hc.
  - intros Hp Hc. unfold fetch_json. rewrite Hp.
    destruct (parse_s3_uri_no_slash uri Hc) as [m E]. exists m. unfold bind, lift. now rewrite E.
  - intros Hp. unfold fetch_json. now rewrite Hp.
Qed.

(** ** The region *)

(** X9. [extract_region_from_arn] returns the fourth field of the ARN
    between colons, for an ARN with an account and a resource as for one
    that ends at the region, and finds no region in a text with fewer than
    three colons. *)
Theorem region_is_the_fourth_field (a b c region : string) :
  Str.contains ":" a = false -> Str.contains ":" b = false ->
  Str.contains ":" c = false -> Str.contains ":" region = false ->
  (forall rest,
     extract_region_from_arn (a ++ ":" ++ b ++ ":" ++ c ++ ":" ++ region ++ ":" ++ rest)
     = Some region)
  /\ extract_region_from_arn (a ++ ":" ++ b ++ ":" ++ c ++ ":" ++ region) = Some region
  /\ extract_region_from_arn (a ++ ":" ++ b ++ ":" ++ c) = None
  /\ extract_region_from_arn (a ++ ":" ++ b) = None
  /\ extract_region_from_arn a = None.
Proof.
  intros Ha Hb Hc Hr. unfold extract_region_from_arn.
  change (fun x y => x ++ ":" ++ y) with (fun x y => x ++ String ":" y).
  repeat split; intros;
    repeat (rewrite ?split_app, ?split_none by assumption; cbn [append]); reflexivity.
Qed.

Lemma region_is_the_fourth_field_witness :
  extract_region_from_arn "arn:aws:connect:us-east-1:123456789012:instance/i-1"
  = Some "us-east-1"
  /\ extract_region_from_arn "arn:aws:connect" = None.
Proof.
  pose proof (region_is_the_fourth_field "arn" "aws" "connect" "us-east-1"
                eq_refl eq_refl eq_refl eq_refl) as (H1 & _ & H3 & _).
  split; [exact (H1 "123456789012:instance/i-1") | exact H3].
Defined.

(** X10. [resolve_region] never returns an empty region.  The region of
    the ARN wins and costs no call; without it the region of an STS
    client is taken, a failure to build that client being ignored; then
    the region of the session; and when all three are missing or empty the
    function raises [RuntimeError]. *)
Theorem resolve_region_is_never_empty {FL : PyFloat}
  (w : World) (instance_arn : string) (h : history) :
  let h1 := (h ++ [NewClient "sts" None])%list in
  let h2 := (h1 ++ [SessionRegion])%list in
  (forall region h', resolve_region w instance_arn h = (Ok region, h') ->
     region <> ""
     /\ ((extract_region_from_arn instance_arn = Some region /\ h' = h)
         \/ (new_client w h "sts" None = Ok (Some region) /\ h' = h1)
         \/ (session_region w h1 = Ok (Some region) /\ h' = h2)))
  /\ (forall region, extract_region_from_arn instance_arn = Some region -> region <> "" ->
        resolve_region w instance_arn h = (Ok region, h))
  /\ (filled (extract_region_from_arn instance_arn) = false ->
      (forall region, new_client w h "sts" None = Ok (Some region) -> region <> "" ->
         resolve_region w instance_arn h = (Ok region, h1))
      /\ (match new_client w h "sts" None with Ok o => filled o | Raise _ => false end = false ->
          resolve_region w instance_arn h
          = match session_region w h1 with
            | Ok (Some (String c r)) => (Ok (String c r), h2)
            | Ok _ => (Raise (RuntimeError "Unable to determine AWS region"), h2)
            | Raise e => (Raise e, h2)
            end)).
Proof.
  cbv zeta. unfold resolve_region, try_except, bind, call, ret, raise.
  split; [|split].
  - intros region h'.
    destruct (extract_region_from_arn instance_arn) as [[|c r]|].
    2: { intros [= <- <-]. split; [discriminate | auto]. }
    all: destruct (new_client w h "sts" None) as [[[|c1 r1]|]|e1];
      try (intros [= <- <-]; split; [discriminate | auto]);
      destruct (session_region w _) as [[[|c2 r2]|]|e2];
      try discriminate; intros [= <- <-]; (split; [discriminate | auto]).
  - intros region -> Hne. destruct region; [contradiction | reflexivity].
  - intros Hf. split.
    + intros region Hc Hne. destruct region as [|c r]; [contradiction|].
      destruct (extract_region_from_arn instance_arn) as [[|c' r']|];
        try discriminate; now rewrite Hc.
    + intros Hs.
      destruct (extract_region_from_arn instance_arn) as [[|c' r']|]; try discriminate;
        destruct (new_client w h "sts" None) as [[[|c1 r1]|]|e1]; try discriminate;
        destruct (session_region w _) as [[[|c2 r2]|]|e2]; reflexivity.
Qed.

(** ** The configuration *)

Lemma split1_fst (c : ascii) (s : string) :
  Str.contains c (fst (Str.split1 c s)) = false
  /\ (forall d r, s = String d r -> Str.is_char c d = false -> fst (Str.split1 c s) <> "").
Proof.
  split.
  - destruct (Str.split1 c s) as [a [b|]] eqn:S; cbn [fst].
    + now apply split1_inv in S.
    + apply split1_none in S as [-> H]. exact H.
  - intros d r -> Hd. cbn. rewrite Hd. now destruct (Str.split1 c r).
Qed.

(** X11. What a configuration that [validate_environment] accepts is like.
    The base path is [BASE_PATH] without the slashes around it, is not
    empty and neither starts nor ends with [/]; so the bucket, the text
    before its first [/], is not empty and has no [/].  The sender is not
    empty.  The two numbers are what [int] reads from [URL_EXPIRATION] and
    [RECORDING_WAIT_TIME], 604800 and 70 when they are unset. *)
Theorem accepted_configuration {FL : PyFloat} (w : World)
  (base_path : string) (url_expiration : Z) (email_sender : string) (recording_wait_time : Z) :
  validate_environment w = Ok (base_path, url_expiration, email_sender, recording_wait_time) ->
  base_path = Str.strip_char "/" (getenv w "BASE_PATH" "")
  /\ base_path <> ""
  /\ Str.startswith "/" base_path = false
  /\ (forall s, base_path <> s ++ "/")
  /\ fst (Str.split1 "/" base_path) <> ""
  /\ Str.contains "/" (fst (Str.split1 "/" base_path)) = false
  /\ email_sender = getenv w "EMAIL_SENDER" "" /\ email_sender <> ""
  /\ Str.to_int (getenv w "URL_EXPIRATION" "604800") = Ok url_expiration
  /\ Str.to_int (getenv w "RECORDING_WAIT_TIME" "70") = Ok recording_wait_time
  /\ (environ w "URL_EXPIRATION" = None -> url_expiration = 604800)
  /\ (environ w "RECORDING_WAIT_TIME" = None -> recording_wait_time = 70).
Proof.
  unfold validate_environment.
  destruct (String.eqb_spec (Str.strip_char "/" (getenv w "BASE_PATH" "")) "") as [|Hb];
    [discriminate|].
  destruct (String.eqb_spec (getenv w "EMAIL_SENDER" "") "") as [|Hs]; [discriminate|].
  destruct (Str.to_int (getenv w "URL_EXPIRATION" "604800")) as [a|x] eqn:Ea;
    cbn [rbind]; [|discriminate].
  destruct (Str.to_int (getenv w "RECORDING_WAIT_TIME" "70")) as [b|x] eqn:Eb;
    cbn [rbind]; [|discriminate].
  intros [= <- <- <- <-].
  destruct (strip_by_ends (Str.is_char "/") (getenv w "BASE_PATH" "")) as [Hhead Hlast].
  fold (Str.strip_char "/" (getenv w "BASE_PATH" "")) in Hhead, Hlast.
  set (base_path := Str.strip_char "/" (getenv w "BASE_PATH" "")) in *.
  assert (Hfirst : exists c r, base_path = String c r /\ Str.is_char "/" c = false).
  { destruct base_path as [|c r] eqn:E; [contradiction|]. exists c, r. split; [reflexivity|].
    now apply (Hhead c r). }
  destruct Hfirst as (c & r & E & Hc).
  repeat split; auto.
  - rewrite E. unfold Str.startswith. cbn [String.prefix].
    destruct (ascii_dec "/" c) as [<-|]; [discriminate | reflexivity].
  - intros s H. specialize (Hlast s "/"%char H). discriminate.
  - exact (proj2 (split1_fst "/" base_path) c r E Hc).
  - exact (proj1 (split1_fst "/" base_path)).
  - intros H. unfold getenv in Ea. rewrite H in Ea. now injection Ea.
  - intros H. unfold getenv in Eb. rewrite H in Eb. now injection Eb.
Qed.

Lemma accepted_configuration_witness :
  validate_environment demo_world
  = Ok ("connect-bucket/recordings", 604800, "voicemail@example.com", 70)
  /\ Str.contains "/" (fst (Str.split1 "/" "connect-bucket/recordings")) = false.
Proof.
  assert (H : validate_environment demo_world
              = Ok ("connect-bucket/recordings", 604800, "voicemail@example.com", 70))
    by reflexivity.
  split; [exact H|].
  exact (proj1 (proj2 (proj2 (proj2 (proj2 (proj2
           (@accepted_configuration decimal_floats demo_world _ _ _ _ H))))))).
Defined.

(** X12. The configuration is read before the event: when it is not
    accepted, every event, whatever it holds, is answered with status 500
    and the text of the error, and nothing is called.  The base path is
    checked first, then the sender, then the two numbers. *)
Theorem configuration_errors_come_first {FL : PyFloat} {HM : Hmac} {TP : Templates}
  (w : World) (event : ConnectEvent) (h : history) :
  let base_path := Str.strip_char "/" (getenv w "BASE_PATH" "") in
  let answer := handle_voicemail_processing w event h in
  (forall e, validate_environment w = Raise e ->
     answer = (Ok (Outcome 500 (exn_str e) None), h))
  /\ (base_path = "" ->
      answer = (Ok (Outcome 500 "BASE_PATH environment variable is required" None), h))
  /\ (base_path <> "" -> getenv w "EMAIL_SENDER" "" = "" ->
      answer = (Ok (Outcome 500 "EMAIL_SENDER environment variable is required" None), h))
  /\ (base_path <> "" -> getenv w "EMAIL_SENDER" "" <> "" ->
      (exists e, Str.to_int (getenv w "URL_EXPIRATION" "604800") = Raise e)
      \/ (exists e, Str.to_int (getenv w "RECORDING_WAIT_TIME" "70") = Raise e) ->
      exists message, answer = (Ok (Outcome 500 message None), h)).
Proof.
  cbv zeta.
  assert (H : forall e, validate_environment w = Raise e ->
              handle_voicemail_processing w event h = (Ok (Outcome 500 (exn_str e) None), h)).
  { intros e He. destruct (validate_environment_raises w e He) as [m ->].
    apply rejected_for_configuration. unfold read_request. now rewrite He. }
  split; [exact H|]. split; [|split].
  - intros Hb. apply (H (ValueError _)). unfold validate_environment. now rewrite Hb.
  - intros Hb Hs. apply (H (ValueError _)). unfold validate_environment.
    destruct (String.eqb_spec (Str.strip_char "/" (getenv w "BASE_PATH" "")) "");
      [contradiction|]. now rewrite Hs.
  - intros Hb Hs Hn.
    assert (E : exists e, validate_environment w = Raise e).
    { unfold validate_environment.
      destruct (String.eqb_spec (Str.strip_char "/" (getenv w "BASE_PATH" "")) "");
        [contradiction|].
      destruct (String.eqb_spec (getenv w "EMAIL_SENDER" "") ""); [contradiction|].
      destruct Hn as [[e ->] | [e He]]; cbn [rbind]; [eauto|].
      destruct (Str.to_int (getenv w "URL_EXPIRATION" "604800")); cbn [rbind]; [|eauto].
      rewrite He. cbn [rbind]. eauto. }
    destruct E as [e He]. eexists. exact (H e He).
Qed.

(* ================================================================== *)
(** * Part XX. The order and the cost of the search                   *)
(* ================================================================== *)

(** ** The order of a window *)

Lemma range_cons (lo hi : Z) : lo < hi -> range lo hi = lo :: range (lo + 1) hi.
Proof.
  intros H. unfold range.
  replace (Z.to_nat (hi - lo)) with (S (Z.to_nat (hi - (lo + 1)))) by lia.
  cbn [seq map]. rewrite Z.add_0_r. f_equal.
  rewrite <- seq_shift, map_map. apply map_ext. intros i. lia.
Qed.

Lemma range_snoc (lo hi : Z) : lo <= hi -> range lo (hi + 1) = (range lo hi ++ [hi])%list.
Proof.
  intros H. unfold range.
  replace (Z.to_nat (hi + 1 - lo)) with (S (Z.to_nat (hi - lo))) by lia.
  rewrite seq_S, map_app. cbn [map]. do 2 f_equal. lia.
Qed.

Lemma nearest_first_succ (n : nat) :
  nearest_first (S n)
  = (nearest_first n ++ [- Z.of_nat (S n); Z.of_nat (S n)])%list.
Proof.
  unfold nearest_first. rewrite seq_S, map_app, flat_map_app. reflexivity.
Qed.

Lemma nearest_first_length (n : nat) : List.length (nearest_first n) = (2 * n + 1)%nat.
Proof.
  induction n as [|n IH]; [reflexivity|].
  rewrite nearest_first_succ, length_app, IH. cbn. lia.
Qed.

Section SortOrder.
Context {A : Type}.
Variable key : A -> Z.

(** An element that no other exceeds stays at the end. *)
Lemma insert_by_snoc (x m : A) (l : list A) :
  key x <= key m -> insert_by key x (l ++ [m]) = (insert_by key x l ++ [m])%list.
Proof.
  intros H. induction l as [|y l IH]; cbn.
  - destruct (Z.leb_spec (key x) (key m)); [reflexivity | lia].
  - destruct (key x <=? key y)%Z; [reflexivity|]. now rewrite IH.
Qed.

Lemma sort_by_snoc (m : A) (l : list A) :
  (forall x, In x l -> key x <= key m) -> sort_by key (l ++ [m]) = (sort_by key l ++ [m])%list.
Proof.
  induction l as [|x l IH]; intros H; [reflexivity|].
  cbn. rewrite IH by (intros; apply H; now right).
  apply insert_by_snoc. apply H. now left.
Qed.

(** An element greater than all the others goes to the end. *)
Lemma insert_by_last (x : A) (l : list A) :
  (forall y, In y l -> key y < key x) -> insert_by key x l = (l ++ [x])%list.
Proof.
  induction l as [|y l IH]; intros H; [reflexivity|]. cbn.
  destruct (Z.leb_spec (key x) (key y)) as [Hle|_].
  - specialize (H y (or_introl eq_refl)). lia.
  - now rewrite IH by (intros; apply H; now right).
Qed.

End SortOrder.

Lemma in_nearest_first (n : nat) (x : Z) : In x (nearest_first n) -> Z.abs x <= Z.of_nat n.
Proof.
  induction n as [|n IH].
  - intros [<-|[]]. reflexivity.
  - rewrite nearest_first_succ, in_app_iff. intros [H|[<-|[<-|[]]]]; [|lia|lia].
    specialize (IH H). lia.
Qed.

(** The stable sort by distance puts the offsets of a window in the order
    0, -1, 1, ..., -n, n: nearest first and, at the same distance, the
    earlier minute first. *)
Lemma sort_window (n : nat) :
  sort_by Z.abs (range (- Z.of_nat n) (Z.of_nat n + 1)) = nearest_first n.
Proof.
  induction n as [|n IH]; [reflexivity|].
  rewrite range_cons by lia. rewrite range_snoc by lia.
  replace (- Z.of_nat (S n) + 1) with (- Z.of_nat n) by lia.
  replace (Z.of_nat (S n)) with (Z.of_nat n + 1) at 2 by lia.
  cbn [sort_by]. rewrite sort_by_snoc.
  - rewrite IH. rewrite insert_by_snoc by lia.
    rewrite insert_by_last.
    + rewrite nearest_first_succ, <- app_assoc. reflexivity.
    + intros y Hy. apply in_nearest_first in Hy. lia.
  - intros x Hx. apply in_range in Hx. lia.
Qed.

(** X13. The order in which a window is probed.  For a window of [W]
    minutes around an anchor that [datetime] can move by [W] minutes either
    way, [generate_s3_uris_with_time_window] gives [2 W + 1] candidates and
    the stable sort of [find_recording_in_s3] puts them in the order of
    the offsets 0, -1, 1, -2, 2, ..., -W, W: nearest first and, of two
    candidates at the same distance, the earlier minute first.  The
    existence checks of the window are made in this order, up to the first
    hit or failure.  A negative width gives no candidate. *)
Theorem window_is_probed_nearest_first {FL : PyFloat}
  (w : World) (bucket prefix initial_contact_id : string) (now W : Z) (h : history) :
  0 <= W ->
  (forall o, - W <= o <= W -> Datetime.representable (now + 60 * o) = true) ->
  let in_order :=
    map (location_at bucket prefix initial_contact_id now) (nearest_first (Z.to_nat W)) in
  exists s3_uris,
    generate_s3_uris_with_time_window bucket prefix initial_contact_id now W = Ok s3_uris
    /\ List.length s3_uris = Z.to_nat (2 * W + 1)
    /\ map offset_minutes s3_uris = range (- W) (W + 1)
    /\ sort_by (fun x => Z.abs (offset_minutes x)) s3_uris = in_order
    /\ (exists probed rest,
          in_order = (probed ++ rest)%list
          /\ snd (probe w bucket in_order h) = (h ++ map (check_of bucket) probed)%list
          /\ (fst (probe w bucket in_order h) = Ok None -> rest = []))
    /\ generate_s3_uris_with_time_window bucket prefix initial_contact_id now (- W - 1)
       = Ok [].
Proof.
  intros HW Hr in_order. eexists. split; [apply generate_representable; exact Hr|].
  split; [|split; [|split; [|split]]].
  - rewrite length_map. unfold range. rewrite length_map, length_seq. f_equal. lia.
  - rewrite map_map. cbn. apply map_id.
  - rewrite sort_by_map.
    change (fun a => Z.abs (offset_minutes (location_at bucket prefix initial_contact_id now a)))
      with Z.abs.
    unfold in_order. f_equal.
    rewrite <- (Z2Nat.id W) at 1 2 by exact HW. apply sort_window.
  - apply probe_checks.
  - unfold generate_s3_uris_with_time_window, range.
    replace (Z.to_nat (- W - 1 + 1 - - (- W - 1))) with O by lia. reflexivity.
Qed.

(** The window of two minutes around the start of [demo_world]. *)
Lemma window_is_probed_nearest_first_witness :
  (0 <= 2 /\ forall o, - 2 <= o <= 2 -> Datetime.representable (demo_start + 60 * o) = true)
  /\ exists s3_uris,
       generate_s3_uris_with_time_window "connect-bucket" "recordings" "abc-123" demo_start 2
       = Ok s3_uris
       /\ map offset_minutes (sort_by (fun x => Z.abs (offset_minutes x)) s3_uris)
          = [0; -1; 1; -2; 2].
Proof.
  assert (H0 : 0 <= 2) by lia.
  assert (Hr : forall o, - 2 <= o <= 2 -> Datetime.representable (demo_start + 60 * o) = true).
  { intros o Ho. unfold Datetime.representable, Datetime.min_timestamp,
      Datetime.max_timestamp, demo_start.
    apply andb_true_intro. split; apply Z.leb_le; lia. }
  split; [split; [exact H0 | exact Hr]|].
  destruct (@window_is_probed_nearest_first decimal_floats demo_world "connect-bucket"
              "recordings" "abc-123" demo_start 2 [] H0 Hr)
    as (s3_uris & Hg & _ & _ & Hs & _).
  exists s3_uris. split; [exact Hg|]. rewrite Hs. reflexivity.
Defined.

(** ** The cost of a search *)

Lemma slept_from (h : history) (acc : Z) :
  fold_left (fun a c => match c with Sleep ms => a + ms | _ => a end) h acc = acc + slept h.
Proof.
  unfold slept. revert acc. induction h as [|c h IH]; intros acc; cbn [fold_left]; [lia|].
  rewrite IH, (IH (match c with Sleep ms => 0 + ms | _ => 0 end)).
  destruct c; lia.
Qed.

Lemma slept_app (a b : history) : slept (a ++ b)%list = slept a + slept b.
Proof. unfold slept at 1. rewrite fold_left_app. fold (slept a). apply slept_from. Qed.

Lemma slept_checks (bucket : string) (l : list Location) : slept (map (check_of bucket) l) = 0.
Proof.
  induction l as [|x l IH]; [reflexivity|].
  change (map (check_of bucket) (x :: l)) with ([check_of bucket x] ++ map (check_of bucket) l)%list.
  now rewrite slept_app, IH.
Qed.

Lemma count_checks_app (a b : history) :
  count_checks (a ++ b)%list = (count_checks a + count_checks b)%nat.
Proof. unfold count_checks. now rewrite filter_app, length_app. Qed.

Lemma count_checks_map (bucket : string) (l : list Location) :
  count_checks (map (check_of bucket) l) = List.length l.
Proof. unfold count_checks. now rewrite filter_checks, length_map. Qed.

Lemma collect_length {A B} (f : A -> result B) (l : list A) (acc r : list B) :
  for_each (fun acc x => y <~ f x ;; Ok (acc ++ [y])%list) acc l = Ok r ->
  List.length r = (List.length acc + List.length l)%nat.
Proof.
  revert acc. induction l as [|x l IH]; intros acc; cbn [for_each].
  - intros [= <-]. cbn. lia.
  - destruct (f x) as [y|e]; cbn [rbind]; [|discriminate].
    intros H. apply IH in H. rewrite length_app in H. cbn in *. lia.
Qed.

Lemma generate_length (bucket prefix initial_contact_id : string) (now W : Z)
  (s3_uris : list Location) :
  generate_s3_uris_with_time_window bucket prefix initial_contact_id now W = Ok s3_uris ->
  List.length s3_uris = Z.to_nat (2 * W + 1).
Proof.
  intros H. apply collect_length in H. rewrite H. unfold range.
  rewrite length_map, length_seq. cbn [List.length]. lia.
Qed.

Lemma sort_by_length {A} (key : A -> Z) (l : list A) :
  List.length (sort_by key l) = List.length l.
Proof. symmetry. apply Permutation_length, sort_by_perm. Qed.

Section SearchCost.
Context {FL : PyFloat}.
Variable w : World.

Lemma probe_calls (bucket : string) (l : list Location) (h : history) :
  exists probed rest,
    l = (probed ++ rest)%list
    /\ snd (probe w bucket l h) = (h ++ map (check_of bucket) probed)%list.
Proof. destruct (probe_checks w bucket l h) as (p & r & H1 & H2 & _). eauto. Qed.

Lemma checks_are_search_calls (bucket : string) (l : list Location) :
  Forall (search_call bucket) (map (check_of bucket) l).
Proof.
  apply Forall_forall. intros c Hc. apply in_map_iff in Hc as (x & <- & _).
  right. eexists. reflexivity.
Qed.

Lemma search_windows_cost (bucket prefix initial_contact_id : string) (now : Z)
  (windows : list Z) (h : history) :
  exists calls,
    snd (search_windows w bucket prefix initial_contact_id now windows h) = (h ++ calls)%list
    /\ Forall (search_call bucket) calls
    /\ (count_checks calls <= checks_bound windows)%nat
    /\ 0 <= slept calls <= pause_bound windows.
Proof.
  revert h. induction windows as [|W windows IH]; intros h.
  - exists []. cbn. rewrite app_nil_r. repeat split; auto; reflexivity.
  - cbn [search_windows checks_bound pause_bound]. unfold bind at 1. unfold lift.
    assert (Hp : 0 <= pause_bound windows).
    { clear. induction windows as [|V l IHl]; cbn; [lia|]. destruct (V >? 1)%Z; lia. }
    destruct (generate_s3_uris_with_time_window bucket prefix initial_contact_id now W)
      as [s3_uris|e] eqn:G.
    2: { exists []. cbn. rewrite app_nil_r. repeat split; auto; try lia.
         destruct (W >? 1)%Z; lia. }
    unfold bind at 1.
    destruct (probe_calls bucket (sort_by (fun x => Z.abs (offset_minutes x)) s3_uris) h)
      as (probed & rest & E & Hs).
    assert (Hlen : (List.length probed <= Z.to_nat (2 * W + 1))%nat).
    { rewrite <- (generate_length _ _ _ _ _ _ G),
        <- (sort_by_length (fun x => Z.abs (offset_minutes x)) s3_uris), E, length_app. lia. }
    destruct (probe w bucket _ h) as [[[l|]|e] h1]; cbn [snd] in Hs; subst h1.
    + exists (map (check_of bucket) probed). cbn [snd].
      rewrite count_checks_map, slept_checks.
      repeat split; auto using checks_are_search_calls; try lia. destruct (W >? 1)%Z; lia.
    + unfold bind.
      destruct (W >? 1)%Z eqn:HW; unfold sleep, call, ret; cbn [Z.ltb Z.compare].
      * destruct (IH ((h ++ map (check_of bucket) probed) ++ [Sleep 500])%list)
          as (calls & Hc & HF & Hn & Hsl).
        exists (map (check_of bucket) probed ++ [Sleep 500] ++ calls)%list.
        rewrite Hc, <- !app_assoc. split; [reflexivity|].
        rewrite !count_checks_app, !slept_app, count_checks_map, slept_checks.
        change (count_checks [Sleep 500]) with 0%nat. change (slept [Sleep 500]) with 500.
        split; [|split; lia].
        apply Forall_app. split; [apply checks_are_search_calls|].
        constructor; [now left | exact HF].
      * destruct (IH (h ++ map (check_of bucket) probed)%list)
          as (calls & Hc & HF & Hn & Hsl).
        exists (map (check_of bucket) probed ++ calls)%list.
        rewrite Hc, <- !app_assoc. split; [reflexivity|].
        rewrite !count_checks_app, !slept_app, count_checks_map, slept_checks.
        split; [|split; lia].
        apply Forall_app. split; [apply checks_are_search_calls | exact HF].
    + exists (map (check_of bucket) probed). cbn [snd].
      rewrite count_checks_map, slept_checks.
      repeat split; auto using checks_are_search_calls; try lia. destruct (W >? 1)%Z; lia.
Qed.

Lemma find_recording_cost (bucket prefix initial_contact_id : string) (h : history) :
  exists calls,
    snd (find_recording_in_s3 w bucket prefix initial_contact_id h) = (h ++ calls)%list
    /\ Forall (search_call bucket) calls
    /\ (count_checks calls <= 35)%nat
    /\ 0 <= slept calls <= 2000.
Proof.
  unfold find_recording_in_s3, utcnow, bind, now, lift.
  destruct (Datetime.utcfromtimestamp (clock w h)) as [t|e].
  - apply (search_windows_cost bucket prefix initial_contact_id t [5; 4; 3; 2; 1] h).
  - exists []. cbn. rewrite app_nil_r. repeat split; auto; lia.
Qed.

End SearchCost.

(** X14. What a search can cost.  One run of [find_recording_in_s3] calls
    nothing but existence checks in the given bucket and pauses of half a
    second: at most 35 checks (11 + 9 + 7 + 5 + 3) and at most two seconds
    of pause.  The search block of the handler, which searches twice with
    30 seconds in between, makes at most 70 checks and pauses for at most
    34 seconds. *)
Theorem search_cost_is_bounded {FL : PyFloat}
  (w : World) (bucket prefix initial_contact_id : string) (h : history) :
  (exists calls,
     snd (find_recording_in_s3 w bucket prefix initial_contact_id h) = (h ++ calls)%list
     /\ Forall (search_call bucket) calls
     /\ (count_checks calls <= 35)%nat
     /\ 0 <= slept calls <= 2000)
  /\ (exists calls,
        snd (search_block w bucket prefix initial_contact_id h) = (h ++ calls)%list
        /\ Forall (fun c => search_call bucket c \/ c = Sleep 30000) calls
        /\ (count_checks calls <= 70)%nat
        /\ 0 <= slept calls <= 34000).
Proof.
  split; [apply find_recording_cost|].
  unfold search_block, try_except, bind.
  destruct (find_recording_cost w bucket prefix initial_contact_id h)
    as (c1 & E1 & F1 & N1 & S1).
  assert (W1 : Forall (fun c => search_call bucket c \/ c = Sleep 30000) c1)
    by (eapply Forall_impl; [|exact F1]; auto).
  destruct (find_recording_in_s3 w bucket prefix initial_contact_id h)
    as [[[l|]|e] h1]; cbn [snd] in E1; subst h1.
  - exists c1. cbn [snd ret]. repeat split; auto; lia.
  - unfold sleep, call, ret. cbn [Z.ltb Z.compare].
    destruct (find_recording_cost w bucket prefix initial_contact_id
                ((h ++ c1) ++ [Sleep 30000])%list) as (c2 & E2 & F2 & N2 & S2).
    assert (W2 : Forall (fun c => search_call bucket c \/ c = Sleep 30000)
                   (c1 ++ [Sleep 30000] ++ c2)%list).
    { apply Forall_app. split; [exact W1|]. constructor; [now right|].
      eapply Forall_impl; [|exact F2]; auto. }
    assert (C : (count_checks (c1 ++ [Sleep 30000] ++ c2)%list <= 70)%nat
                /\ 0 <= slept (c1 ++ [Sleep 30000] ++ c2)%list <= 34000).
    { rewrite !count_checks_app, !slept_app.
      change (count_checks [Sleep 30000]) with 0%nat.
      change (slept [Sleep 30000]) with 30000. lia. }
    exists (c1 ++ [Sleep 30000] ++ c2)%list.
    destruct (find_recording_in_s3 w bucket prefix initial_contact_id _)
      as [[[l|]|e] h2]; cbn [snd] in E2; subst h2; cbn [snd];
      rewrite <- !app_assoc; repeat split; auto; apply C.
  - exists c1. cbn [snd ret]. repeat split; auto; lia.
Qed.

(** ** A recording that is not there *)

Section AbsentRecording.
Context {FL : PyFloat}.
Variable w : World.
Hypothesis empty : store_is_empty w.

Lemma probe_all_miss (bucket : string) (l : list Location) (h : history) :
  probe w bucket l h = (Ok None, h ++ map (check_of bucket) l)%list.
Proof.
  revert h. induction l as [|x l IH]; intros h.
  - cbn. now rewrite app_nil_r.
  - destruct (empty h bucket (loc_key x)) as (e & E & He).
    rewrite (probe_miss w bucket x l h e E He), IH, <- app_assoc. reflexivity.
Qed.

Lemma search_windows_all_miss (bucket prefix initial_contact_id : string) (now : Z)
  (windows : list Z) (h : history) :
  Forall (fun W => 0 <= W <= 5) windows ->
  Datetime.min_timestamp + 300 <= now <= Datetime.max_timestamp - 300 ->
  search_windows w bucket prefix initial_contact_id now windows h
  = (Ok None, h ++ miss_trace bucket prefix initial_contact_id now windows)%list.
Proof.
  intros HW Hn. revert h. induction HW as [|W windows HW _ IH]; intros h.
  - cbn. now rewrite app_nil_r.
  - cbn [search_windows miss_trace]. unfold bind at 1. unfold lift.
    rewrite generate_representable
      by (intros o Ho; apply window_representable; [exact Hn | lia]).
    rewrite sort_by_map.
    change (fun a => Z.abs (offset_minutes (location_at bucket prefix initial_contact_id now a)))
      with Z.abs.
    rewrite <- (Z2Nat.id W) at 1 2 by lia. rewrite sort_window.
    unfold bind at 1. rewrite probe_all_miss. unfold bind.
    destruct (W >? 1)%Z; unfold sleep, call, ret; cbn [Z.ltb Z.compare];
      rewrite IH, <- !app_assoc; reflexivity.
Qed.

Lemma find_recording_all_miss (bucket prefix initial_contact_id : string) (h : history) :
  Datetime.min_timestamp + 300 <= clock w h <= Datetime.max_timestamp - 300 ->
  find_recording_in_s3 w bucket prefix initial_contact_id h
  = (Ok None,
     h ++ miss_trace bucket prefix initial_contact_id (clock w h) [5; 4; 3; 2; 1])%list.
Proof.
  intros Hn. unfold find_recording_in_s3, bind.
  rewrite utcnow_representable.
  - apply search_windows_all_miss; [|exact Hn]. repeat constructor; lia.
  - rewrite <- (Z.add_0_r (clock w h)). change 0 with (60 * 0) at 1.
    apply window_representable; [exact Hn | lia].
Qed.

End AbsentRecording.

Lemma miss_trace_cost (bucket prefix initial_contact_id : string) (now : Z) (windows : list Z) :
  Forall (fun W => 0 <= W) windows ->
  count_checks (miss_trace bucket prefix initial_contact_id now windows)
  = checks_bound windows
  /\ slept (miss_trace bucket prefix initial_contact_id now windows) = pause_bound windows.
Proof.
  induction 1 as [|W windows HW _ [IH1 IH2]]; [split; reflexivity|].
  cbn [miss_trace checks_bound pause_bound].
  rewrite !count_checks_app, !slept_app, count_checks_map, slept_checks, IH1, IH2,
    length_map, nearest_first_length.
  destruct (W >? 1)%Z.
  - change (count_checks [Sleep 500]) with 0%nat. change (slept [Sleep 500]) with 500.
    split; lia.
  - change (count_checks []) with 0%nat. change (slept []) with 0. split; lia.
Qed.

(** X15. A recording that is not in the store.  When every existence check
    is answered 404, a search probes all 35 candidates, window by window,
    and finds nothing; the search block searches twice, 30 seconds apart,
    and answers 404 "Recording not found" after 70 checks and 34 seconds
    of pause. *)
Theorem absent_recording_is_searched_twice {FL : PyFloat}
  (w : World) (bucket prefix initial_contact_id : string) (h : history) :
  let windows := [5; 4; 3; 2; 1] in
  let first := miss_trace bucket prefix initial_contact_id (clock w h) windows in
  let h1 := (h ++ first ++ [Sleep 30000])%list in
  let second := miss_trace bucket prefix initial_contact_id (clock w h1) windows in
  store_is_empty w ->
  Datetime.min_timestamp + 300 <= clock w h <= Datetime.max_timestamp - 300 ->
  Datetime.min_timestamp + 300 <= clock w h1 <= Datetime.max_timestamp - 300 ->
  find_recording_in_s3 w bucket prefix initial_contact_id h = (Ok None, (h ++ first)%list)
  /\ search_block w bucket prefix initial_contact_id h
     = (Ok (inl (Outcome 404 "Recording not found" None)), (h1 ++ second)%list)
  /\ count_checks (first ++ [Sleep 30000] ++ second)%list = 70%nat
  /\ slept (first ++ [Sleep 30000] ++ second)%list = 34000.
Proof.
  intros windows first h1 second Hempty Hn1 Hn2.
  pose proof (find_recording_all_miss w Hempty bucket prefix initial_contact_id h Hn1) as E1.
  pose proof (find_recording_all_miss w Hempty bucket prefix initial_contact_id h1 Hn2) as E2.
  split; [exact E1|]. split; [|split].
  - unfold search_block, try_except, bind. rewrite E1.
    unfold sleep, call, ret. cbn [Z.ltb Z.compare].
    fold windows first. replace ((h ++ first) ++ [Sleep 30000])%list with h1
      by (unfold h1; now rewrite app_assoc).
    now rewrite E2.
  - rewrite !count_checks_app. unfold first, second.
    destruct (miss_trace_cost bucket prefix initial_contact_id (clock w h) windows) as [-> _];
      [repeat constructor; lia|].
    destruct (miss_trace_cost bucket prefix initial_contact_id (clock w h1) windows) as [-> _];
      [repeat constructor; lia|].
    reflexivity.
  - rewrite !slept_app. unfold first, second.
    destruct (miss_trace_cost bucket prefix initial_contact_id (clock w h) windows) as [_ ->];
      [repeat constructor; lia|].
    destruct (miss_trace_cost bucket prefix initial_contact_id (clock w h1) windows) as [_ ->];
      [repeat constructor; lia|].
    reflexivity.
Qed.

(** In [emptied_world] the second search starts 32 seconds after the
    first, and the block ends 34 seconds after it began. *)
Lemma absent_recording_is_searched_twice_witness :
  store_is_empty emptied_world
  /\ fst (search_block emptied_world "connect-bucket" "recordings" "abc-123" [])
     = Ok (inl (Outcome 404 "Recording not found" None))
  /\ clock emptied_world
       (snd (search_block emptied_world "connect-bucket" "recordings" "abc-123" []))
     = demo_start + 34.
Proof.
  assert (He : store_is_empty emptied_world).
  { intros h bucket key. exists not_found. split; reflexivity. }
  split; [exact He|].
  assert (H1 : Datetime.min_timestamp + 300 <= clock emptied_world []
               <= Datetime.max_timestamp - 300) by (split; vm_compute; discriminate).
  set (h1 := ([] ++ miss_trace "connect-bucket" "recordings" "abc-123"
                      (clock emptied_world []) [5; 4; 3; 2; 1] ++ [Sleep 30000])%list).
  assert (H2 : Datetime.min_timestamp + 300 <= clock emptied_world h1
               <= Datetime.max_timestamp - 300) by (split; vm_compute; discriminate).
  destruct (@absent_recording_is_searched_twice decimal_floats emptied_world
              "connect-bucket" "recordings" "abc-123" [] He H1 H2) as (_ & E & _ & _).
  rewrite E. split; [reflexivity | vm_compute; reflexivity].
Defined.

(* ================================================================== *)
(** * Part XXI. Starting and awaiting the transcription               *)
(* ================================================================== *)

Lemma after_last_app (c : ascii) (a b : string) :
  Str.contains c b = false -> Str.after_last c (a ++ String c b) = b.
Proof.
  intros Hb. induction a as [|d a IH]; cbn.
  - rewrite Hb. unfold Str.is_char. now rewrite Ascii.eqb_refl.
  - rewrite contains_app. cbn. unfold Str.is_char at 1. rewrite Ascii.eqb_refl.
    rewrite orb_true_r. cbn. exact IH.
Qed.

Lemma after_last_none (c : ascii) (s : string) :
  Str.contains c s = false -> Str.after_last c s = s.
Proof.
  destruct s as [|d s]; cbn; [reflexivity|].
  intros H. apply orb_false_elim in H as [Hd Hs]. now rewrite Hs, Hd.
Qed.

Section StartProperties.
Context {FL : PyFloat}.
Variable w : World.

(** [start_transcription_job], case by case. *)
Lemma start_transcription_job_cases (media_s3_uri region mode language : string) (h : history) :
  let h1 := (h ++ [NewClient "transcribe" (Some region)])%list in
  let job_name := "voicemail-transcribe-" ++ Str.of_Z (clock w h1) in
  let request := transcribe_request job_name media_s3_uri mode language in
  let h2 := (h1 ++ [StartTranscriptionJob request])%list in
  let job_name' := job_name ++ "-" ++ Str.of_Z (clock w h2) in
  let request' := transcribe_request job_name' media_s3_uri mode language in
  let h3 := (h2 ++ [StartTranscriptionJob request'])%list in
  start_transcription_job w media_s3_uri region mode language h
  = match new_client w h "transcribe" (Some region) with
    | Raise e => (Raise e, h1)
    | Ok _ =>
        match start_transcription_job_api w h1 request with
        | Ok _ => (Ok job_name, h2)
        | Raise e =>
            if has_code e "ConflictException" then
              match start_transcription_job_api w h2 request' with
              | Ok _ => (Ok job_name', h3)
              | Raise e' => (Raise e', h3)
              end
            else if is_client_error e
            then (Raise (TranscriptionError ("Failed to start transcription: " ++ exn_str e)), h2)
            else (Raise e, h2)
        end
    end.
Proof.
  cbv zeta. unfold start_transcription_job, bind, call, now, try_except, ret, raise.
  destruct (new_client w h "transcribe" (Some region)) as [r|e]; [|reflexivity].
  fold (transcribe_request
          ("voicemail-transcribe-"
           ++ Str.of_Z (clock w (h ++ [NewClient "transcribe" (Some region)])%list))
          media_s3_uri mode language).
  destruct (start_transcription_job_api w _ _) as [[]|e]; [reflexivity|].
  destruct (has_code e "ConflictException"); [|destruct (is_client_error e); reflexivity].
  unfold bind, call.
  match goal with
  | |- context [start_transcription_job_api w ?hh ?rr] =>
      change rr with (transcribe_request
                        (("voicemail-transcribe-"
                          ++ Str.of_Z (clock w (h ++ [NewClient "transcribe" (Some region)])%list))
                         ++ "-" ++ Str.of_Z (clock w hh))
                        media_s3_uri mode language)
  end.
  destruct (start_transcription_job_api w _ _) as [[]|e']; reflexivity.
Qed.

End StartProperties.

Lemma lower_wav : Str.lower "wav" = "wav".
Proof. reflexivity. Qed.

(** The key of a candidate ends with [.wav]. *)
Lemma location_extension (bucket prefix initial_contact_id : string) (dt offset : Z) :
  Str.after_last "."
    ("s3://" ++ bucket ++ "/" ++ loc_key (location_of bucket prefix initial_contact_id dt offset))
  = "wav".
Proof.
  assert (H : forall stem, Str.after_last "." (stem ++ "_UTC.wav") = "wav").
  { intros stem. change (stem ++ "_UTC.wav") with (stem ++ "_UTC" ++ String "." "wav").
    rewrite <- append_assoc. now apply after_last_app. }
  unfold location_of. cbn [loc_key].
  destruct (negb (prefix =? "")%string); rewrite <- ?append_assoc; apply H.
Qed.

(** X16. The request that starts the transcription of a recording.  For
    the key of any candidate of the locator, [start_transcription_job]
    builds a client for the region and submits a job named
    [voicemail-transcribe-] followed by the clock, with the uri
    [s3://{bucket}/{key}], the language, the format [wav] (the lower-cased
    text after the last dot of the uri, which is one of the supported
    formats) and channel identification; when the service accepts the
    request, that name is returned.  In general the format is given
    exactly when the lower-cased text after the last dot is one of the
    eight supported formats. *)
Theorem recording_is_submitted_as_wav {FL : PyFloat}
  (w : World) (bucket prefix initial_contact_id region : string) (dt offset : Z)
  (h : history) (client : option string) :
  let location := location_of bucket prefix initial_contact_id dt offset in
  let media_s3_uri := "s3://" ++ bucket ++ "/" ++ loc_key location in
  let h1 := (h ++ [NewClient "transcribe" (Some region)])%list in
  let job_name := "voicemail-transcribe-" ++ Str.of_Z (clock w h1) in
  let request := {| TranscriptionJobName := job_name;
                    MediaFileUri := media_s3_uri;
                    LanguageCode := "en-US";
                    MediaFormat := Some "wav";
                    Settings := ChannelIdentification |} in
  new_client w h "transcribe" (Some region) = Ok client ->
  start_transcription_job_api w h1 request = Ok tt ->
  start_transcription_job w media_s3_uri region DEFAULT_MODE DEFAULT_LANGUAGE h
  = (Ok job_name, (h1 ++ [StartTranscriptionJob request])%list)
  /\ (forall name stem extension mode language,
        Str.contains "." extension = false ->
        MediaFormat (transcribe_request name (stem ++ "." ++ extension) mode language)
        = if existsb (String.eqb (Str.lower extension)) supported_formats
          then Some (Str.lower extension) else None)
  /\ (forall name uri mode language,
        Str.contains "." uri = false ->
        existsb (String.eqb (Str.lower uri)) supported_formats = false ->
        MediaFormat (transcribe_request name uri mode language) = None).
Proof.
  intros location media_s3_uri h1 job_name request Hc Hs. split; [|split].
  - rewrite start_transcription_job_cases. cbv zeta. rewrite Hc. fold h1 job_name.
    assert (E : transcribe_request job_name media_s3_uri DEFAULT_MODE DEFAULT_LANGUAGE
                = request).
    { unfold transcribe_request, media_s3_uri, location.
      rewrite location_extension. reflexivity. }
    rewrite E, Hs. reflexivity.
  - intros name stem extension mode language He. unfold transcribe_request. cbn [MediaFormat].
    change (stem ++ "." ++ extension) with (stem ++ String "." extension).
    now rewrite after_last_app.
  - intros name uri mode language Hu Hn. unfold transcribe_request. cbn [MediaFormat].
    now rewrite after_last_none, Hn.
Qed.

(** The recording of [demo_world]. *)
Lemma recording_is_submitted_as_wav_witness :
  let media_s3_uri := "s3://connect-bucket/" ++ demo_key in
  let request := {| TranscriptionJobName := "voicemail-transcribe-1704449100";
                    MediaFileUri := media_s3_uri;
                    LanguageCode := "en-US";
                    MediaFormat := Some "wav";
                    Settings := ChannelIdentification |} in
  start_transcription_job demo_world media_s3_uri "us-east-1" DEFAULT_MODE DEFAULT_LANGUAGE []
  = (Ok "voicemail-transcribe-1704449100",
     [NewClient "transcribe" (Some "us-east-1"); StartTranscriptionJob request]).
Proof.
  exact (proj1 (@recording_is_submitted_as_wav decimal_floats demo_world "connect-bucket"
                  "recordings" "abc-123" "us-east-1" (demo_start + 120) 2 []
                  (Some "us-east-1") eq_refl eq_refl)).
Defined.

(** X17. A refused request to start the transcription.  When the service
    answers the first request with a [ConflictException], the request is
    sent once more under the name extended by [-] and the clock, and that
    second answer is final: the new name when it is accepted, its exception
    as it is when it is not (a [ClientError] the handler then reports as
    500).  Any other [ClientError] becomes a [TranscriptionError] "Failed
    to start transcription: ...", which the handler reports as 502; an
    exception that is no [ClientError] is passed on as it is, and the
    handler reports it. *)
Theorem refused_start_is_retried_once {FL : PyFloat} {TP : Templates}
  (w : World) (bucket key region : string) (h : history)
  (client : option string) (e : exn) :
  let media_s3_uri := "s3://" ++ bucket ++ "/" ++ key in
  let h1 := (h ++ [NewClient "transcribe" (Some region)])%list in
  let job_name := "voicemail-transcribe-" ++ Str.of_Z (clock w h1) in
  let request := transcribe_request job_name media_s3_uri DEFAULT_MODE DEFAULT_LANGUAGE in
  let h2 := (h1 ++ [StartTranscriptionJob request])%list in
  let job_name' := job_name ++ "-" ++ Str.of_Z (clock w h2) in
  let request' := transcribe_request job_name' media_s3_uri DEFAULT_MODE DEFAULT_LANGUAGE in
  let h3 := (h2 ++ [StartTranscriptionJob request'])%list in
  let start := start_transcription_job w media_s3_uri region DEFAULT_MODE DEFAULT_LANGUAGE h in
  new_client w h "transcribe" (Some region) = Ok client ->
  start_transcription_job_api w h1 request = Raise e ->
  (has_code e "ConflictException" = true ->
   (start_transcription_job_api w h2 request' = Ok tt -> start = (Ok job_name', h3))
   /\ (forall e', start_transcription_job_api w h2 request' = Raise e' ->
         start = (Raise e', h3)
         /\ (is_client_error e' = true ->
             transcription_block w bucket key region h
             = (Ok (inl (Outcome 500 "Transcription processing error" None)), h3))))
  /\ (has_code e "ConflictException" = false -> is_client_error e = true ->
      start = (Raise (TranscriptionError ("Failed to start transcription: " ++ exn_str e)), h2)
      /\ transcription_block w bucket key region h
         = (Ok (inl (Outcome 502 ("Failed to start transcription: " ++ exn_str e) None)), h2))
  /\ (is_client_error e = false ->
      start = (Raise e, h2)
      /\ exists status message,
           transcription_block w bucket key region h
           = (Ok (inl (Outcome status message None)), h2)).
Proof.
  intros media_s3_uri h1 job_name request h2 job_name' request' h3 start Hc He.
  assert (E : start
              = if has_code e "ConflictException" then
                  match start_transcription_job_api w h2 request' with
                  | Ok _ => (Ok job_name', h3)
                  | Raise e' => (Raise e', h3)
                  end
                else if is_client_error e
                then (Raise (TranscriptionError
                               ("Failed to start transcription: " ++ exn_str e)), h2)
                else (Raise e, h2)).
  { unfold start. rewrite start_transcription_job_cases. cbv zeta. rewrite Hc.
    fold h1 job_name request. rewrite He. reflexivity. }
  assert (B : forall x hx, start = (Raise x, hx) ->
              transcription_block w bucket key region h
              = (match x with
                 | TranscriptionError _ => Ok (inl (Outcome 502 (exn_str x) None))
                 | _ => Ok (inl (Outcome 500 "Transcription processing error" None))
                 end, hx)).
  { intros x hx Hx. unfold transcription_block, try_except, bind.
    fold media_s3_uri. fold start. rewrite Hx. now destruct x. }
  split; [|split].
  - intros Hk. rewrite Hk in E. split.
    + intros Ho. now rewrite Ho in E.
    + intros e' He'. rewrite He' in E. split; [exact E|].
      intros Hce. rewrite (B _ _ E). now destruct e'.
  - intros Hk Hce. rewrite Hk, Hce in E. split; [exact E|]. now rewrite (B _ _ E).
  - intros Hce.
    assert (Hk : has_code e "ConflictException" = false) by (now destruct e).
    rewrite Hk, Hce in E. split; [exact E|]. rewrite (B _ _ E).
    destruct e; eauto.
Qed.

(** A service that refuses the first request of [demo_world] for a
    conflict of names. *)
Lemma refused_start_is_retried_once_witness :
  let w := with_transcribe_service demo_world
             (fun h _ => match h with [_] => Raise conflict | _ => Ok tt end)
             (get_transcription_job demo_world) in
  fst (start_transcription_job w ("s3://connect-bucket/" ++ demo_key) "us-east-1"
         DEFAULT_MODE DEFAULT_LANGUAGE [])
  = Ok "voicemail-transcribe-1704449100-1704449100".
Proof.
  intros w.
  exact (f_equal fst
           (proj1 (proj1 (@refused_start_is_retried_once decimal_floats plain_templates w
                            "connect-bucket" demo_key "us-east-1" [] (Some "us-east-1")
                            conflict eq_refl eq_refl) eq_refl) eq_refl)).
Defined.

(** ** Awaiting the job *)

Section WaitProperties.
Context {FL : PyFloat}.
Variable w : World.

Lemma poll_once_in_progress (job_name : string) (waited : Z) (h : history) :
  in_progress_at w job_name h ->
  poll_once w job_name waited h
  = (if (waited + TRANSCRIBE_POLL_SECS >=? TRANSCRIBE_MAX_WAIT_SECS)%Z
     then Raise (timed_out job_name) else Ok (inr (waited + TRANSCRIBE_POLL_SECS)),
     h ++ polls job_name 1)%list.
Proof.
  intros (response & job & status & Hr & Hj & Hs & Hc & Hf).
  unfold poll_once, bind, call, lift, sleep, ret, raise.
  rewrite Hr, Hj, Hs, Hc, Hf. cbn [orb].
  change (1000 * TRANSCRIBE_POLL_SECS <? 0)%Z with false. cbn iota.
  unfold call, timed_out.
  destruct (waited + TRANSCRIBE_POLL_SECS >=? TRANSCRIBE_MAX_WAIT_SECS)%Z;
    now rewrite <- app_assoc.
Qed.

Lemma poll_once_ended (job_name : string) (waited : Z) (h : history) (job : pyval) :
  ended_at w job_name h job ->
  poll_once w job_name waited h = (Ok (inl job), h ++ [GetTranscriptionJob job_name])%list.
Proof.
  intros (response & status & Hr & Hj & Hs & Hc).
  unfold poll_once, bind, call, lift, ret. now rewrite Hr, Hj, Hs, Hc.
Qed.

(** After [n] turns with the job in progress, the turn that finds it ended
    returns it. *)
Lemma wait_loop_returns (job_name : string) (job : pyval) :
  forall (n : nat) (waited : Z) (h : history),
    (forall k, (k < n)%nat -> in_progress_at w job_name (h ++ polls job_name k)%list) ->
    ended_at w job_name (h ++ polls job_name n)%list job ->
    waited + TRANSCRIBE_POLL_SECS * Z.of_nat n < TRANSCRIBE_MAX_WAIT_SECS ->
    wait_loop w job_name waited h
    = (Ok job, h ++ polls job_name n ++ [GetTranscriptionJob job_name])%list.
Proof.
  induction n as [|n IH]; intros waited h Hp He Hlt; rewrite wait_loop_unfold_body.
  - cbn [polls] in He. rewrite app_nil_r in He. now rewrite (poll_once_ended _ _ _ _ He).
  - assert (H0 : in_progress_at w job_name h).
    { specialize (Hp O ltac:(lia)). cbn [polls] in Hp. now rewrite app_nil_r in Hp. }
    rewrite (poll_once_in_progress _ _ _ H0).
    destruct (Z.geb_spec (waited + TRANSCRIBE_POLL_SECS) TRANSCRIBE_MAX_WAIT_SECS) as [Hd|Hd];
      [unfold TRANSCRIBE_POLL_SECS, TRANSCRIBE_MAX_WAIT_SECS in *; lia|].
    rewrite IH.
    + rewrite <- !app_assoc. reflexivity.
    + intros k Hk. rewrite <- app_assoc. apply (Hp (S k)). lia.
    + rewrite <- app_assoc. exact He.
    + unfold TRANSCRIBE_POLL_SECS, TRANSCRIBE_MAX_WAIT_SECS in *. lia.
Qed.

End WaitProperties.

Lemma count_polls_polls (job_name : string) (n : nat) :
  count_polls (polls job_name n ++ [GetTranscriptionJob job_name])%list = S n.
Proof.
  unfold count_polls. induction n as [|n IH]; [reflexivity|].
  cbn [polls app filter is_poll List.length]. now rewrite IH.
Qed.

(** X18. A job that ends is returned at the next poll.  When the service
    reports the job in progress at the first [n] polls and ended
    ([COMPLETED] or [FAILED]) at the next one, with [n] below 200,
    [wait_for_transcription] returns the job the service reported, having
    asked [n + 1] times and slept 3 seconds after each of the first [n]
    answers. *)
Theorem ended_job_is_returned {FL : PyFloat}
  (w : World) (job_name region : string) (job : pyval) (n : nat) (h : history)
  (client : option string) :
  let h1 := (h ++ [NewClient "transcribe" (Some region)])%list in
  (n < 200)%nat ->
  new_client w h "transcribe" (Some region) = Ok client ->
  (forall k, (k < n)%nat -> in_progress_at w job_name (h1 ++ polls job_name k)%list) ->
  ended_at w job_name (h1 ++ polls job_name n)%list job ->
  wait_for_transcription w job_name region h
  = (Ok job, h1 ++ polls job_name n ++ [GetTranscriptionJob job_name])%list
  /\ count_polls (polls job_name n ++ [GetTranscriptionJob job_name])%list = S n
  /\ slept (polls job_name n ++ [GetTranscriptionJob job_name])%list
     = 1000 * TRANSCRIBE_POLL_SECS * Z.of_nat n.
Proof.
  intros h1 Hn Hc Hp He. split; [|split].
  - unfold wait_for_transcription, bind, call. rewrite Hc. fold h1.
    apply wait_loop_returns; auto.
    unfold TRANSCRIBE_POLL_SECS, TRANSCRIBE_MAX_WAIT_SECS. lia.
  - apply count_polls_polls.
  - rewrite slept_app. unfold slept at 1. rewrite slept_polls.
    change (slept [GetTranscriptionJob job_name]) with 0. lia.
Qed.

(** A job that is done at the third poll. *)
Lemma ended_job_is_returned_witness :
  let w := with_transcribe_service demo_world
             (start_transcription_job_api demo_world)
             (fun h _ => Ok (job_in_state
                               (if (count_polls h <? 2)%nat then "IN_PROGRESS"
                                else "COMPLETED"))) in
  (2 < 200)%nat
  /\ wait_for_transcription w "job" "us-east-1" []
     = (match job_in_state "COMPLETED" with
        | PDict [(_, job)] => Ok job
        | _ => Raise TypeError
        end,
        NewClient "transcribe" (Some "us-east-1")
          :: polls "job" 2 ++ [GetTranscriptionJob "job"])%list.
Proof.
  intros w. split; [lia|].
  refine (proj1 (@ended_job_is_returned decimal_floats w "job" "us-east-1" _ 2 []
                   (Some "us-east-1") _ eq_refl _ _)).
  - lia.
  - intros k Hk. destruct k as [|[|k]]; [| |lia];
      (eexists; eexists; eexists; repeat split; reflexivity).
  - eexists; eexists; repeat split; reflexivity.
Defined.

(** ** The outcome of the transcription block *)

Lemma take_length (n : nat) (s : string) : (String.length (Str.take n s) <= n)%nat.
Proof.
  revert s. induction n as [|n IH]; intros [|c s]; cbn; try lia.
  specialize (IH s). lia.
Qed.

Lemma slice_to_length (limit : Z) (s : string) :
  0 <= limit -> (String.length (Str.slice_to limit s) <= Z.to_nat limit)%nat.
Proof.
  intros H. unfold Str.slice_to. destruct (Z.leb_spec 0 limit); [apply take_length | lia].
Qed.

Lemma strip_length (s : string) : (String.length (Str.strip s) <= String.length s)%nat.
Proof.
  unfold Str.strip, Str.strip_by.
  destruct (lstrip_by_suffix Str.isspace s) as (front & E1 & _).
  destruct (rstrip_by_prefix Str.isspace (Str.lstrip_by Str.isspace s)) as (back & E2 & _).
  apply (f_equal String.length) in E1, E2. rewrite append_length in E1, E2. lia.
Qed.

Section BlockProperties.
Context {FL : PyFloat} {TP : Templates}.

(** In channel mode the preview is never longer than the limit, and the
    diarization is not used. *)
Lemma channel_preview_length (results : pyval) (limit : Z) (preview : string) :
  0 <= limit ->
  build_transcription_preview results DEFAULT_MODE limit = Ok preview ->
  (String.length preview <= Z.to_nat limit)%nat.
Proof.
  intros Hl. unfold build_transcription_preview, DEFAULT_MODE.
  change ("channel" =? "channel")%string with true.
  change ("channel" =? "diarization")%string with false. cbn [andb].
  destruct (py_get results "channel_labels" PNone) as [labels|e]; cbn [rbind]; [|discriminate].
  destruct (truthy labels).
  - unfold _build_preview_channel.
    destruct (py_get results "channel_labels" (PDict [])) as [l|e]; cbn [rbind]; [|discriminate].
    destruct (py_get l "channels" (PList [])) as [cv|e]; cbn [rbind]; [|discriminate].
    destruct (py_iter cv) as [cs|e]; cbn [rbind]; [|discriminate].
    destruct (for_each channel_text [] cs) as [ws|e]; cbn [rbind]; [|discriminate].
    intros [= <-]. now apply slice_to_length.
  - destruct (py_get results "transcripts" _) as [ts|e]; cbn [rbind]; [|discriminate].
    destruct (py_getitem0 ts) as [first|e]; cbn [rbind]; [|discriminate].
    destruct (py_get first "transcript" _) as [t|e]; cbn [rbind]; [|discriminate].
    unfold slice_strip. destruct t; try discriminate. intros [= <-].
    pose proof (strip_length (Str.slice_to limit s)).
    pose proof (slice_to_length limit s Hl). lia.
Qed.

End BlockProperties.

(** X19. The preview that goes into the mail.  Whenever the transcription
    block hands a preview on, the preview is not empty (an empty one has
    been replaced by "No transcription available") and has at most
    [DEFAULT_PREVIEW_LEN] = 700 characters; this holds whatever the three
    functions left open compute, the diarization being out of reach in
    channel mode. *)
Theorem preview_fits_the_mail {FL : PyFloat} {TP : Templates}
  (w : World) (bucket key region preview : string) (duration : float) (h h' : history) :
  transcription_block w bucket key region h = (Ok (inr (preview, duration)), h') ->
  preview <> "" /\ (String.length preview <= 700)%nat.
Proof.
  unfold transcription_block, try_except, bind, lift, ret, raise.
  destruct (start_transcription_job w _ region DEFAULT_MODE DEFAULT_LANGUAGE h)
    as [[job_name|e] h1]; [|destruct e; discriminate].
  destruct (wait_for_transcription w job_name region h1) as [[job|e] h2];
    [|destruct e; discriminate].
  destruct (py_getitem job "TranscriptionJobStatus") as [status|e];
    [|destruct e; discriminate].
  destruct (negb (py_eq_str status "COMPLETED")); [discriminate|].
  destruct (py_getitem job "Transcript") as [transcript|e]; [|destruct e; discriminate].
  destruct (py_getitem transcript "TranscriptFileUri") as [uri|e]; [|destruct e; discriminate].
  destruct (fetch_json w uri region h2) as [[data|e] h3]; [|destruct e; discriminate].
  destruct (py_get data "results" (PDict [])) as [results|e]; [|destruct e; discriminate].
  destruct (build_transcription_preview results DEFAULT_MODE DEFAULT_PREVIEW_LEN)
    as [p|e] eqn:Ep; [|destruct e; discriminate].
  intros [= <- _ _].
  apply channel_preview_length in Ep; [|unfold DEFAULT_PREVIEW_LEN; lia].
  change (Z.to_nat DEFAULT_PREVIEW_LEN) with 700%nat in Ep.
  destruct (String.eqb_spec p "") as [->|Hp]; [split; [discriminate | cbn; lia]|].
  split; assumption.
Qed.

Lemma preview_fits_the_mail_witness :
  exists duration h',
    transcription_block demo_world "connect-bucket" demo_key "us-east-1" []
    = (Ok (inr ("hello, bye", duration)), h')
    /\ "hello, bye" <> "" /\ (String.length "hello, bye" <= 700)%nat.
Proof.
  eexists. eexists.
  assert (E : transcription_block demo_world "connect-bucket" demo_key "us-east-1" []
              = (Ok (inr ("hello, bye", _)), _)) by (vm_compute; reflexivity).
  split; [exact E|].
  exact (@preview_fits_the_mail decimal_floats plain_templates demo_world
           "connect-bucket" demo_key "us-east-1" "hello, bye" _ [] _ E).
Defined.

(** X20. A job that did not complete.  When the job that
    [wait_for_transcription] returns has a status other than [COMPLETED],
    the transcription block reports 502 "Transcription failed: " followed
    by the status, and the transcript is not fetched: the last call is the
    poll that returned the job. *)
Theorem failed_job_is_bad_gateway {FL : PyFloat} {TP : Templates}
  (w : World) (bucket key region job_name status : string) (job : pyval)
  (h h1 h2 : history) :
  start_transcription_job w ("s3://" ++ bucket ++ "/" ++ key) region
    DEFAULT_MODE DEFAULT_LANGUAGE h = (Ok job_name, h1) ->
  wait_for_transcription w job_name region h1 = (Ok job, h2) ->
  py_getitem job "TranscriptionJobStatus" = Ok (PStr status) ->
  status <> "COMPLETED" ->
  transcription_block w bucket key region h
  = (Ok (inl (Outcome 502 ("Transcription failed: " ++ status) None)), h2).
Proof.
  intros Hs Hw Hj Hne. unfold transcription_block, try_except, bind, lift.
  rewrite Hs, Hw, Hj. cbn [py_eq_str].
  destruct (String.eqb_spec status "COMPLETED"); [contradiction | reflexivity].
Qed.

(** [demo_world] with a job that has failed. *)
Lemma failed_job_is_bad_gateway_witness :
  let w := world_of demo_environment demo_start (fun _ _ => true)
             (fun _ => job_in_state "FAILED") demo_transcript in
  "FAILED" <> "COMPLETED"
  /\ transcription_block w "connect-bucket" demo_key "us-east-1" []
     = (Ok (inl (Outcome 502 "Transcription failed: FAILED" None)),
        [NewClient "transcribe" (Some "us-east-1");
         StartTranscriptionJob
           (transcribe_request "voicemail-transcribe-1704449100"
              ("s3://connect-bucket/" ++ demo_key) DEFAULT_MODE DEFAULT_LANGUAGE);
         NewClient "transcribe" (Some "us-east-1");
         GetTranscriptionJob "voicemail-transcribe-1704449100"]).
Proof.
  intros w. assert (Hne : "FAILED" <> "COMPLETED") by discriminate.
  split; [exact Hne|].
  exact (@failed_job_is_bad_gateway decimal_floats plain_templates w "connect-bucket"
           demo_key "us-east-1" "voicemail-transcribe-1704449100" "FAILED" _ [] _ _
           eq_refl eq_refl eq_refl Hne).
Defined.

(* ================================================================== *)
(** * Part XXII. The link that is mailed                              *)
(* ================================================================== *)

Section SigningBlock.
Context {FL : PyFloat} {HM : Hmac}.
Variable w : World.

Lemma signing_block_cases (bucket key : string) (url_expiration : Z) (h : history) :
  let redirect_api_url := Str.rstrip_char "/" (getenv w "REDIRECT_API_URL" "") in
  let signing_secret := getenv w "SIGNING_SECRET" "" in
  let expires := clock w h + url_expiration / 3600 * 3600 in
  let signature :=
    hmac_sha256_hexdigest signing_secret (signed_message bucket key (Str.of_Z expires)) in
  signing_block w bucket key url_expiration h
  = if (redirect_api_url =? "")%string || (signing_secret =? "")%string
       || negb (Str.fits expires)
    then (Ok (inl (Outcome 500 "Error generating signed URL" None)), h)
    else (Ok (inr (redirect_api_url ++ "/voicemail/" ++ bucket ++ "/" ++ Url.quote key
                   ++ "?expires=" ++ Str.of_Z expires ++ "&signature=" ++ signature)), h).
Proof.
  cbv zeta.
  unfold signing_block, try_except, raise, generate_signed_url, bind, now, lift, ret, Str.of_int.
  destruct (Str.rstrip_char "/" (getenv w "REDIRECT_API_URL" "") =? "")%string; [reflexivity|].
  destruct (getenv w "SIGNING_SECRET" "" =? "")%string; [reflexivity|].
  destruct (Str.fits _); reflexivity.
Qed.

End SigningBlock.

(** X22. The lifetime of a link is [URL_EXPIRATION] rounded down to whole
    hours.  With [REDIRECT_API_URL] (without the slashes at its end) and
    [SIGNING_SECRET] set, the signing block returns the link of
    [generate_signed_url] for [expires = now + (url_expiration // 3600) *
    3600] and calls nothing; [expires] lies less than an hour before
    [now + url_expiration], and for a setting below one hour it is [now]
    itself.  The base URL in the link does not end with [/].  When one of
    the two variables is unset or empty, or [expires] has more than the
    4300 digits Python writes, the block reports 500 "Error generating
    signed URL". *)
Theorem link_lifetime_is_whole_hours {FL : PyFloat} {HM : Hmac}
  (w : World) (bucket key : string) (url_expiration : Z) (h : history) :
  let redirect_api_url := Str.rstrip_char "/" (getenv w "REDIRECT_API_URL" "") in
  let signing_secret := getenv w "SIGNING_SECRET" "" in
  let expires := clock w h + url_expiration / 3600 * 3600 in
  let signature :=
    hmac_sha256_hexdigest signing_secret (signed_message bucket key (Str.of_Z expires)) in
  (redirect_api_url <> "" -> signing_secret <> "" -> Str.fits expires = true ->
   signing_block w bucket key url_expiration h
   = (Ok (inr (redirect_api_url ++ "/voicemail/" ++ bucket ++ "/" ++ Url.quote key
               ++ "?expires=" ++ Str.of_Z expires ++ "&signature=" ++ signature)), h))
  /\ (clock w h + url_expiration - 3600 < expires <= clock w h + url_expiration)
  /\ (0 <= url_expiration < 3600 -> expires = clock w h)
  /\ (forall s, redirect_api_url <> s ++ "/")
  /\ (redirect_api_url = "" \/ signing_secret = "" \/ Str.fits expires = false ->
      signing_block w bucket key url_expiration h
      = (Ok (inl (Outcome 500 "Error generating signed URL" None)), h)).
Proof.
  intros redirect_api_url signing_secret expires signature.
  pose proof (signing_block_cases w bucket key url_expiration h) as E. cbv zeta in E.
  fold redirect_api_url signing_secret expires signature in E.
  split; [|split; [|split; [|split]]].
  - intros Ha Hs Hf. rewrite E, Hf.
    destruct (String.eqb_spec redirect_api_url ""); [contradiction|].
    destruct (String.eqb_spec signing_secret ""); [contradiction | reflexivity].
  - unfold expires. pose proof (Z.div_mod url_expiration 3600 ltac:(lia)).
    pose proof (Z.mod_pos_bound url_expiration 3600 ltac:(lia)). lia.
  - intros Hu. unfold expires. rewrite Z.div_small by exact Hu. lia.
  - intros s Hs. unfold redirect_api_url, Str.rstrip_char in Hs.
    apply rstrip_by_last in Hs. discriminate.
  - intros [Ha | [Hs | Hf]]; rewrite E.
    + now rewrite Ha.
    + rewrite Hs. now rewrite orb_true_r.
    + rewrite Hf. now rewrite orb_true_r.
Qed.

(** X23. The link the processing handler mails is one the URL handler
    follows.  With a configuration that [validate_environment] accepts,
    the bucket is the text of [BASE_PATH] before its first [/]; for every
    key, the link that the signing block builds for this bucket leads, in
    any world with the same secret whose clock has not passed [expires],
    to the object store being asked for exactly this bucket and key. *)
Theorem mailed_link_is_followed {FL : PyFloat} {HM : Hmac}
  (w : World) (base_path email_sender key url : string)
  (url_expiration recording_wait_time : Z) (h : history) :
  let bucket := fst (Str.split1 "/" base_path) in
  let expires := clock w h + url_expiration / 3600 * 3600 in
  let signature :=
    hmac_sha256_hexdigest (getenv w "SIGNING_SECRET" "")
      (signed_message bucket key (Str.of_Z expires)) in
  validate_environment w = Ok (base_path, url_expiration, email_sender, recording_wait_time) ->
  signing_block w bucket key url_expiration h = (Ok (inr url), h) ->
  url = Str.rstrip_char "/" (getenv w "REDIRECT_API_URL" "")
        ++ "/voicemail/" ++ bucket ++ "/" ++ Url.quote key
        ++ "?expires=" ++ Str.of_Z expires ++ "&signature=" ++ signature
  /\ forall (w' : World) (h' : history),
       getenv w' "SIGNING_SECRET" "" = getenv w "SIGNING_SECRET" "" ->
       clock w' h' <= expires ->
       handle_url_generation w' (link_request bucket key (Str.of_Z expires) signature) h'
       = try_except (redirect_to_object w' bucket key) (fun _ => Some (ret resp_failed)) h'.
Proof.
  intros bucket expires signature Hv Hs.
  pose proof (signing_block_cases w bucket key url_expiration h) as E. cbv zeta in E.
  fold expires signature in E. rewrite Hs in E.
  destruct (String.eqb_spec (Str.rstrip_char "/" (getenv w "REDIRECT_API_URL" "")) "");
    [discriminate|].
  destruct (String.eqb_spec (getenv w "SIGNING_SECRET" "") "") as [|Hsec]; [discriminate|].
  destruct (Str.fits expires) eqn:Hfits; [|discriminate].
  injection E as ->. split; [reflexivity|].
  intros w' h' Hs' Hc.
  assert (Hb : Str.contains "/" bucket = false).
  { unfold validate_environment in Hv.
    destruct (_ =? "")%string; [discriminate|].
    destruct (_ =? "")%string; [discriminate|].
    destruct (Str.to_int _); cbn [rbind] in Hv; [|discriminate].
    destruct (Str.to_int _); cbn [rbind] in Hv; [|discriminate].
    injection Hv as <- _ _ _. apply (split1_fst "/"). }
  unfold link_request.
  rewrite (handle_url_event w' bucket (Url.quote key) (Str.of_Z expires) signature);
    [| exact Hb | reflexivity | apply of_Z_nonempty | reflexivity | apply hexdigest_nonempty].
  rewrite unquote_quote. unfold try_except.
  rewrite (answer_link_verified w' bucket key _ signature expires h');
    [reflexivity | apply to_int_of_Z; exact Hfits | exact Hc | now rewrite Hs'
    | rewrite Hs'; apply verify_own_signature].
Qed.

(** The link for the recording of [demo_world], followed at once. *)
Lemma mailed_link_is_followed_witness :
  let signature :=
    hmac_sha256_hexdigest demo_secret
      (signed_message "connect-bucket" demo_key "1705053900") in
  let url := "https://abc123.lambda-url.us-east-1.on.aws/voicemail/connect-bucket/"
             ++ Url.quote demo_key ++ "?expires=1705053900&signature=" ++ signature in
  signing_block demo_world "connect-bucket" demo_key 604800 [] = (Ok (inr url), [])
  /\ handle_url_generation demo_world
       (link_request "connect-bucket" demo_key "1705053900" signature) []
     = try_except (redirect_to_object demo_world "connect-bucket" demo_key)
         (fun _ => Some (ret resp_failed)) [].
Proof.
  intros signature url.
  assert (Hs : signing_block demo_world "connect-bucket" demo_key 604800 []
               = (Ok (inr url), [])) by (vm_compute; reflexivity).
  split; [exact Hs|].
  refine (proj2 (@mailed_link_is_followed decimal_floats hmac_sha256 demo_world
                   "connect-bucket/recordings" "voicemail@example.com" demo_key url
                   604800 70 [] eq_refl Hs) demo_world [] eq_refl _).
  vm_compute. discriminate.
Defined.

(* ================================================================== *)
(** * Part XXIII. The recording-processing handler as a whole         *)
(* ================================================================== *)

Section Blocks.
Context {FL : PyFloat} {HM : Hmac} {TP : Templates}.
Variable w : World.

(** A [try] whose handlers all return a response of [statuses]. *)
Lemma caught_block_reports {A} (statuses : list Z) (m : M (Response + A))
  (handler : exn -> option (M (Response + A))) :
  calls_only quiet m ->
  (forall h response h', m h = (Ok (inl response), h') -> In (status_of response) statuses) ->
  (forall e, exists response,
     handler e = Some (ret (inl response)) /\ In (status_of response) statuses) ->
  block_reports statuses (try_except m handler).
Proof.
  intros Hc Hm Hh h. unfold try_except. destruct (Hc h) as (calls & E & F).
  destruct (m h) as [[r|e] h1] eqn:Em; cbn [snd] in E; subst h1.
  - exists r, calls. repeat split; auto. destruct r as [response|a]; [|exact I].
    eapply Hm. exact Em.
  - destruct (Hh e) as (response & -> & Hs). exists (inl response), calls. auto.
Qed.

Lemma sleep_calls (P : Call -> Prop) (ms : Z) : P (Sleep ms) -> calls_only P (sleep ms).
Proof. intros H. unfold sleep. destruct (ms <? 0)%Z; calls. exact H. Qed.

Lemma probe_quiet (P : Call -> Prop) (bucket : string) (l : list Location) :
  (forall key, P (HeadObject bucket key)) -> calls_only P (probe w bucket l).
Proof.
  intros H. induction l as [|x l IH]; cbn [probe]; calls; auto.
  apply calls_only_try; calls; auto.
  intros e k. destruct (has_code e "404"); [|discriminate]. intros [= <-]. calls.
Qed.

Lemma search_windows_quiet (P : Call -> Prop) (bucket prefix initial_contact_id : string)
  (now : Z) (windows : list Z) :
  (forall key, P (HeadObject bucket key)) -> P (Sleep 500) ->
  calls_only P (search_windows w bucket prefix initial_contact_id now windows).
Proof.
  intros H Hs. induction windows as [|W windows IH]; cbn [search_windows]; calls; auto.
  - now apply probe_quiet.
  - now apply sleep_calls.
Qed.

Lemma find_recording_quiet (P : Call -> Prop) (bucket prefix initial_contact_id : string) :
  (forall key, P (HeadObject bucket key)) -> P (Sleep 500) ->
  calls_only P (find_recording_in_s3 w bucket prefix initial_contact_id).
Proof.
  intros H Hs. unfold find_recording_in_s3, utcnow. calls.
  now apply search_windows_quiet.
Qed.

Lemma poll_once_quiet (P : Call -> Prop) (job_name : string) (waited : Z) :
  P (GetTranscriptionJob job_name) -> P (Sleep (1000 * TRANSCRIBE_POLL_SECS)) ->
  calls_only P (poll_once w job_name waited).
Proof.
  intros Hg Hs. unfold poll_once. calls; auto. now apply sleep_calls.
Qed.

Lemma wait_loop_quiet (P : Call -> Prop) (job_name : string) :
  P (GetTranscriptionJob job_name) -> P (Sleep (1000 * TRANSCRIBE_POLL_SECS)) ->
  forall (n : nat) (waited : Z), (remaining waited <= n)%nat ->
    calls_only P (wait_loop w job_name waited).
Proof.
  intros Hg Hs. induction n as [|n IH]; intros waited Hr h;
    rewrite wait_loop_unfold_body;
    destruct (poll_once_quiet P job_name waited Hg Hs h) as (c1 & E1 & F1);
    destruct (poll_once w job_name waited h) as [[[job|waited']|e] h1] eqn:Ep;
    cbn [snd] in E1; subst h1; try (exists c1; split; [reflexivity | exact F1]);
    destruct (poll_once_continues _ _ _ _ _ _ Ep) as [-> Hlt].
  - unfold remaining, TRANSCRIBE_POLL_SECS, TRANSCRIBE_MAX_WAIT_SECS in *. lia.
  - destruct (IH (waited + TRANSCRIBE_POLL_SECS)) with (h := (h ++ c1)%list)
      as (c2 & E2 & F2).
    + unfold remaining, TRANSCRIBE_POLL_SECS, TRANSCRIBE_MAX_WAIT_SECS in *. lia.
    + exists (c1 ++ c2)%list. rewrite E2, app_assoc. split; [reflexivity|].
      apply Forall_app. auto.
Qed.

Lemma wait_for_transcription_quiet (P : Call -> Prop) (job_name region : string) :
  P (NewClient "transcribe" (Some region)) ->
  P (GetTranscriptionJob job_name) -> P (Sleep (1000 * TRANSCRIBE_POLL_SECS)) ->
  calls_only P (wait_for_transcription w job_name region).
Proof.
  intros Hn Hg Hs. unfold wait_for_transcription. calls; auto.
  apply (wait_loop_quiet P job_name Hg Hs (remaining 0)). lia.
Qed.

End Blocks.

Ltac status_in H :=
  match type of H with
  | In ?s ?l =>
      let x := fresh in
      assert (x : incl l [200; 400; 404; 500; 502])
        by (intros ? ?; cbn in *; intuition);
      exact (x s H)
  end.

Ltac run_cases H :=
  repeat match type of H with
         | context [match ?x with _ => _ end] => destruct x eqn:?; try discriminate H
         end.

Section BlockReports.
Context {FL : PyFloat} {HM : Hmac} {TP : Templates}.
Variable w : World.

(** What the first block makes of an event. *)
Lemma read_request_cases (event : ConnectEvent) :
  read_request w event = Ok (inl (Outcome 400 "Missing emailRecipient attribute" None))
  \/ (exists v, read_request w event = Ok (inr v)
                /\ validate_environment w
                   = Ok (v_base_path v, v_url_expiration v, v_email_sender v,
                         v_recording_wait_time v)
                /\ query_get "emailRecipient" (attributes_of event) = Some (v_email_recipient v)
                /\ v_email_recipient v <> "")
  \/ (exists key_repr, read_request w event = Raise (KeyError key_repr))
  \/ (exists m, read_request w event = Raise (ValueError m)).
Proof.
  unfold read_request, attributes_of.
  destruct (validate_environment w) as [[[[base_path url_expiration] email_sender]
                                          recording_wait_time]|e] eqn:Hv; cbn [rbind].
  2: { destruct (validate_environment_raises w e Hv) as [m ->]. eauto 6. }
  unfold require.
  destruct (Details event) as [details|]; cbn [rbind]; [|eauto 6].
  destruct (ContactData details) as [contact_data|]; cbn [rbind]; [|eauto 6].
  destruct (InitialContactId contact_data); cbn [rbind]; [|eauto 6].
  destruct (ContactId contact_data); cbn [rbind]; [|eauto 6].
  destruct (InstanceARN contact_data); cbn [rbind]; [|eauto 6].
  destruct (query_get "emailRecipient" _) as [[|c r]|]; auto.
  right. left. eexists. split; [reflexivity|]. cbn. repeat split. discriminate.
Qed.

Lemma validation_block_reports (event : ConnectEvent) (h : history) :
  (exists response,
     validation_block w event h = (Ok (inl response), h)
     /\ In (status_of response) [400; 500])
  \/ (exists v, validation_block w event h = (Ok (inr v), h)
                /\ read_request w event = Ok (inr v)).
Proof.
  unfold validation_block, try_except, lift.
  destruct (read_request_cases event) as [E | [(v & E & _) | [(k & E) | (m & E)]]];
    rewrite E; [left | right | left | left]; eauto; eexists; (split; [reflexivity|]);
    cbn; auto.
Qed.

Lemma resolve_region_quiet (instance_arn : string) :
  calls_only quiet (resolve_region w instance_arn).
Proof.
  unfold resolve_region. calls; try exact I.
  all: apply (calls_only_catch_all quiet _ (fun _ => None)); calls; exact I.
Qed.

Lemma clients_block_reports (instance_arn : string) :
  block_reports [500] (clients_block w instance_arn).
Proof.
  unfold clients_block. apply caught_block_reports.
  - calls; try exact I. apply resolve_region_quiet.
  - intros h response h' H. unfold bind, call, ret in H. run_cases H.
  - intros e. eexists. split; [reflexivity|]. cbn. auto.
Qed.

Lemma search_block_reports (bucket prefix initial_contact_id : string) :
  block_reports [404; 500] (search_block w bucket prefix initial_contact_id).
Proof.
  unfold search_block. apply caught_block_reports.
  - calls; try (apply find_recording_quiet; intros; exact I).
    apply sleep_calls. exact I.
  - intros h response h' H. unfold bind, ret in H. run_cases H.
    all: injection H as <- _; cbn; auto.
  - intros e. eexists. split; [reflexivity|]. cbn. auto.
Qed.

Lemma start_transcription_job_quiet (media_s3_uri region mode language : string) :
  calls_only quiet (start_transcription_job w media_s3_uri region mode language).
Proof.
  unfold start_transcription_job. calls; try exact I.
  apply calls_only_try; calls; try exact I.
  intros e k. destruct (has_code e "ConflictException").
  - intros [= <-]. calls; exact I.
  - destruct (is_client_error e); [|discriminate]. intros [= <-]. calls.
Qed.

Lemma fetch_json_quiet (uri : pyval) (region : string) : calls_only quiet (fetch_json w uri region).
Proof. unfold fetch_json. calls; exact I. Qed.

Lemma transcription_block_reports (bucket key region : string) :
  block_reports [500; 502] (transcription_block w bucket key region).
Proof.
  unfold transcription_block. apply caught_block_reports.
  - calls.
    + apply start_transcription_job_quiet.
    + apply wait_for_transcription_quiet; exact I.
    + apply fetch_json_quiet.
  - intros h response h' H. unfold bind, lift, ret, raise in H. run_cases H.
  - intros e. destruct e; eexists; (split; [reflexivity|]); cbn; auto.
Qed.

Lemma signing_block_reports (bucket key : string) (url_expiration : Z) :
  block_reports [500] (signing_block w bucket key url_expiration).
Proof.
  intros h. rewrite signing_block_cases. cbv zeta.
  destruct (_ || _); eexists; exists []; rewrite app_nil_r;
    (split; [reflexivity|]); cbn; auto.
Qed.

End BlockReports.

Section HandlerRun.
Context {FL : PyFloat} {HM : Hmac} {TP : Templates}.
Variable w : World.

Lemma email_block_reports (v : Validated) (location : Location)
  (preview redirect_url : string) (duration : float) (h : history) :
  exists response after,
    email_block w v location preview redirect_url duration h = (Ok response, (h ++ after)%list)
    /\ (status_of response = 200 \/ status_of response = 500)
    /\ (after = [] \/ exists email, after = [SendEmail email] /\ mail_of v email)
    /\ (status_of response = 200 -> after <> []).
Proof.
  unfold email_block, send_email_with_recording, try_except, bind, lift, call, ret.
  destruct (create_html_email _ _ _ _ _) as [html_body|e].
  2: { exists (Outcome 500 (if is_client_error e then "Email send failed" else "Email error")
                 None), [].
       rewrite app_nil_r. destruct e; cbn; repeat split; auto; discriminate. }
  destruct (create_text_email _ _ _ _ _) as [text_body|e].
  2: { exists (Outcome 500 (if is_client_error e then "Email send failed" else "Email error")
                 None), [].
       rewrite app_nil_r. destruct e; cbn; repeat split; auto; discriminate. }
  match goal with
  | |- context [SendEmail ?m] => set (email := m)
  end.
  assert (Hm : [SendEmail email] = [] \/ exists e, [SendEmail email] = [SendEmail e] /\ mail_of v e).
  { right. exists email. repeat split. }
  destruct (send_email w h email) as [response|e].
  - destruct (py_get response "MessageId" PNone) as [message_id|e].
    + eexists. exists [SendEmail email]. split; [reflexivity|].
      cbn. repeat split; auto; discriminate.
    + exists (Outcome 500 (if is_client_error e then "Email send failed" else "Email error")
                None), [SendEmail email].
      destruct e; cbn; repeat split; auto; discriminate.
  - exists (Outcome 500 (if is_client_error e then "Email send failed" else "Email error")
              None), [SendEmail email].
    destruct e; cbn; repeat split; auto; discriminate.
Qed.

(** One run of the handler: its calls, its mail and its answer. *)
Lemma handler_run (event : ConnectEvent) (h : history) :
  exists result before after,
    handle_voicemail_processing w event h = (result, (h ++ before ++ after)%list)
    /\ Forall quiet before
    /\ (after = []
        \/ exists email v, after = [SendEmail email] /\ read_request w event = Ok (inr v)
                           /\ mail_of v email)
    /\ match result with
       | Ok response =>
           In (status_of response) [200; 400; 404; 500; 502]
           /\ (status_of response = 200 -> after <> [])
       | Raise e =>
           exists v, read_request w event = Ok (inr v)
                     /\ v_recording_wait_time v < 0
                     /\ e = ValueError "sleep length must be non-negative"
                     /\ after = []
       end.
Proof.
  unfold handle_voicemail_processing, and_then. unfold bind at 1.
  destruct (validation_block_reports w event h)
    as [(response & -> & Hs) | (v & -> & Hv)].
  { exists (Ok response), [], []. cbn [ret app]. rewrite app_nil_r.
    split; [reflexivity|]. split; [constructor|]. split; [now left|]. split.
    - status_in Hs.
    - intros H. exfalso. revert Hs. rewrite H. cbn. intuition discriminate. }
  unfold bind at 1.
  destruct (clients_block_reports w (v_instance_arn v) h) as (r1 & c1 & -> & F1 & S1).
  destruct r1 as [response|region].
  { exists (Ok response), c1, []. cbn [ret]. rewrite app_nil_r.
    split; [reflexivity|]. split; [exact F1|]. split; [now left|]. split.
    - status_in S1.
    - intros H. exfalso. revert S1. rewrite H. cbn. intuition discriminate. }
  destruct (Str.split1 "/" (v_base_path v)) as [bucket rest].
  set (prefix := match rest with Some p => p | None => "" end).
  unfold bind at 1. unfold sleep.
  destruct (Z.ltb_spec (1000 * v_recording_wait_time v) 0) as [Hneg|Hpos].
  { exists (Raise (ValueError "sleep length must be non-negative")), c1, [].
    cbn [raise]. rewrite app_nil_r.
    split; [reflexivity|]. split; [exact F1|]. split; [now left|].
    exists v. split; [exact Hv|]. split; [lia|]. split; reflexivity. }
  unfold call at 1.
  set (c2 := [Sleep (1000 * v_recording_wait_time v)]).
  unfold bind at 1.
  destruct (search_block_reports w bucket prefix (v_initial_contact_id v) ((h ++ c1) ++ c2)%list)
    as (r3 & c3 & -> & F3 & S3).
  assert (F2 : Forall quiet c2) by (repeat constructor).
  destruct r3 as [response|location].
  { exists (Ok response), (c1 ++ c2 ++ c3)%list, []. cbn [ret].
    rewrite app_nil_r, <- !app_assoc. split; [reflexivity|].
    split; [repeat (apply Forall_app; split); auto|]. split; [now left|]. split.
    - status_in S3.
    - intros H. exfalso. revert S3. rewrite H. cbn. intuition discriminate. }
  unfold bind at 1.
  destruct (transcription_block_reports w bucket (loc_key location) region
              (((h ++ c1) ++ c2) ++ c3)%list) as (r4 & c4 & -> & F4 & S4).
  destruct r4 as [response|[preview duration]].
  { exists (Ok response), (c1 ++ c2 ++ c3 ++ c4)%list, []. cbn [ret].
    rewrite app_nil_r, <- !app_assoc. split; [reflexivity|].
    split; [repeat (apply Forall_app; split); auto|]. split; [now left|]. split.
    - status_in S4.
    - intros H. exfalso. revert S4. rewrite H. cbn. intuition discriminate. }
  unfold bind at 1.
  destruct (signing_block_reports w bucket (loc_key location) (v_url_expiration v)
              ((((h ++ c1) ++ c2) ++ c3) ++ c4)%list) as (r5 & c5 & -> & F5 & S5).
  destruct r5 as [response|redirect_url].
  { exists (Ok response), (c1 ++ c2 ++ c3 ++ c4 ++ c5)%list, []. cbn [ret].
    rewrite app_nil_r, <- !app_assoc. split; [reflexivity|].
    split; [repeat (apply Forall_app; split); auto|]. split; [now left|]. split.
    - status_in S5.
    - intros H. exfalso. revert S5. rewrite H. cbn. intuition discriminate. }
  destruct (email_block_reports v location preview redirect_url duration
              (((((h ++ c1) ++ c2) ++ c3) ++ c4) ++ c5)%list)
    as (response & after & -> & S6 & M6 & N6).
  exists (Ok response), (c1 ++ c2 ++ c3 ++ c4 ++ c5)%list, after.
  rewrite <- !app_assoc. split; [reflexivity|].
  split; [repeat (apply Forall_app; split); auto|]. split.
  - destruct M6 as [-> | (email & -> & Hm)]; [now left|]. right. exists email, v. auto.
  - split; [|exact N6]. destruct S6 as [-> | ->]; cbn; auto 10.
Qed.

End HandlerRun.

Lemma validated_request {FL : PyFloat} (w : World) (event : ConnectEvent) (v : Validated) :
  read_request w event = Ok (inr v) ->
  validate_environment w
  = Ok (v_base_path v, v_url_expiration v, v_email_sender v, v_recording_wait_time v)
  /\ query_get "emailRecipient" (attributes_of event) = Some (v_email_recipient v)
  /\ v_email_recipient v <> "".
Proof.
  intros H.
  destruct (read_request_cases w event) as [E | [(v' & E & Hv) | [(k & E) | (m & E)]]];
    rewrite E in H; try discriminate.
  injection H as <-. exact Hv.
Qed.

(** X24. The processing handler reports every failure.  On an event of
    the documented shape and with a waiting time that is not negative (and
    within the 900 seconds a Lambda may run), the handler never raises: it
    returns an outcome, whose status is 200, 400, 404, 500 or 502. *)
Theorem processing_always_reports {FL : PyFloat} {HM : Hmac} {TP : Templates}
  (w : World) (event : ConnectEvent) (h : history) :
  (forall base_path url_expiration email_sender recording_wait_time,
     validate_environment w
     = Ok (base_path, url_expiration, email_sender, recording_wait_time) ->
     0 <= recording_wait_time <= 900) ->
  exists response h',
    handle_voicemail_processing w event h = (Ok response, h')
    /\ In (status_of response) [200; 400; 404; 500; 502].
Proof.
  intros Hw.
  destruct (handler_run w event h) as (result & before & after & E & _ & _ & R).
  destruct result as [response|e].
  - exists response. eexists. split; [exact E | apply R].
  - destruct R as (v & Hv & Hneg & _). apply validated_request in Hv as [Hv _].
    specialize (Hw _ _ _ _ Hv). lia.
Qed.

Lemma processing_always_reports_witness :
  exists response h',
    handle_voicemail_processing demo_world
      (demo_event [("emailRecipient", "user@example.com")]) [] = (Ok response, h')
    /\ In (status_of response) [200; 400; 404; 500; 502].
Proof.
  apply (@processing_always_reports decimal_floats hmac_sha256 plain_templates demo_world
           (demo_event [("emailRecipient", "user@example.com")]) []).
  intros base_path url_expiration email_sender recording_wait_time H.
  injection H as _ _ _ <-. lia.
Defined.

(** X25. A negative waiting time is not caught.  [validate_environment]
    accepts a negative [RECORDING_WAIT_TIME]; the handler then builds its
    clients and calls [time.sleep] with it outside every [try]: the
    [ValueError] of [sleep] leaves the handler, and the recording is not
    searched for. *)
Theorem negative_wait_time_is_not_caught {FL : PyFloat} {HM : Hmac} {TP : Templates}
  (w : World) (event : ConnectEvent) (v : Validated) (region : string) (h h1 : history) :
  read_request w event = Ok (inr v) ->
  v_recording_wait_time v < 0 ->
  clients_block w (v_instance_arn v) h = (Ok (inr region), h1) ->
  Str.to_int (getenv w "RECORDING_WAIT_TIME" "70") = Ok (v_recording_wait_time v)
  /\ handle_voicemail_processing w event h
     = (Raise (ValueError "sleep length must be non-negative"), h1).
Proof.
  intros Hv Hneg Hc. split.
  - apply validated_request in Hv as [Hv _]. unfold validate_environment in Hv.
    destruct (_ =? "")%string; [discriminate|].
    destruct (_ =? "")%string; [discriminate|].
    destruct (Str.to_int (getenv w "URL_EXPIRATION" "604800")); cbn [rbind] in Hv;
      [|discriminate].
    destruct (Str.to_int (getenv w "RECORDING_WAIT_TIME" "70")); cbn [rbind] in Hv;
      [|discriminate].
    now injection Hv as _ _ _ ->.
  - unfold handle_voicemail_processing, and_then, validation_block, try_except, lift.
    unfold bind at 1. rewrite Hv. unfold bind at 1. rewrite Hc.
    destruct (Str.split1 "/" (v_base_path v)) as [bucket rest].
    unfold bind at 1. unfold sleep.
    destruct (Z.ltb_spec (1000 * v_recording_wait_time v) 0); [reflexivity | lia].
Qed.

(** [demo_world] told to wait for -1 seconds. *)
Lemma negative_wait_time_is_not_caught_witness :
  let w := world_of [("BASE_PATH", "connect-bucket/recordings");
                     ("EMAIL_SENDER", "voicemail@example.com");
                     ("RECORDING_WAIT_TIME", "-1")]
             demo_start (fun _ _ => true) (fun _ => job_in_state "COMPLETED")
             demo_transcript in
  handle_voicemail_processing w (demo_event [("emailRecipient", "user@example.com")]) []
  = (Raise (ValueError "sleep length must be non-negative"),
     [NewClient "s3" (Some "us-east-1"); NewClient "sesv2" (Some "us-east-1")]).
Proof.
  intros w.
  refine (proj2 (@negative_wait_time_is_not_caught decimal_floats hmac_sha256 plain_templates
                   w (demo_event [("emailRecipient", "user@example.com")])
                   {| v_base_path := "connect-bucket/recordings"; v_url_expiration := 604800;
                      v_email_sender := "voicemail@example.com";
                      v_recording_wait_time := -1; v_initial_contact_id := "abc-123";
                      v_instance_arn := "arn:aws:connect:us-east-1:123456789012:instance/i-1";
                      v_caller_number := "+18607866359";
                      v_email_recipient := "user@example.com";
                      v_recipient_name := Some "user@example.com" |}
                   "us-east-1" [] _ eq_refl _ eq_refl)).
  reflexivity.
Defined.

(** X26. The mail is the last call.  In every run the handler sends at
    most one mail, and nothing is called after it; the mail goes from
    [EMAIL_SENDER] to the address of the attribute [emailRecipient], its
    subject names the caller.  The status 200 is returned only after the
    mail service has been called.  The handler never presigns a URL: the
    mail carries the signed link only. *)
Theorem mail_is_the_last_call {FL : PyFloat} {HM : Hmac} {TP : Templates}
  (w : World) (event : ConnectEvent) (h : history) :
  exists before after,
    snd (handle_voicemail_processing w event h) = (h ++ before ++ after)%list
    /\ Forall quiet before
    /\ (after = []
        \/ exists email v,
             after = [SendEmail email]
             /\ read_request w event = Ok (inr v)
             /\ Subject email = "Voicemail message from: " ++ v_caller_number v
             /\ FromEmailAddress email = getenv w "EMAIL_SENDER" ""
             /\ query_get "emailRecipient" (attributes_of event) = Some (ToAddress email))
    /\ (forall response,
          fst (handle_voicemail_processing w event h) = Ok response ->
          status_of response = 200 -> after <> []).
Proof.
  destruct (handler_run w event h) as (result & before & after & E & F & M & R).
  exists before, after. rewrite E. cbn [fst snd].
  split; [reflexivity|]. split; [exact F|]. split.
  - destruct M as [-> | (email & v & -> & Hv & Hf & Ht & Hs)]; [now left|].
    right. exists email, v. split; [reflexivity|]. split; [exact Hv|]. split; [exact Hs|].
    destruct (validated_request w event v Hv) as (Henv & Hr & _).
    rewrite Hf, Ht. split; [|exact Hr].
    unfold validate_environment in Henv.
    destruct (_ =? "")%string; [discriminate|].
    destruct (_ =? "")%string; [discriminate|].
    destruct (Str.to_int _); cbn [rbind] in Henv; [|discriminate].
    destruct (Str.to_int _); cbn [rbind] in Henv; [|discriminate].
    now injection Henv as _ _ <- _.
  - intros response ->. apply R.
Qed.

(* ================================================================== *)
(** * Part XXIV. The router                                           *)
(* ================================================================== *)

(** X27. The router.  An event whose ["requestContext"] holds ["http"]
    goes to the Function URL handler, also when it has contact data; any
    other event with ["Details"] and ["ContactData"] goes to the
    processing handler; the rest is answered 400 "Unknown event type"
    without a call.  So the processing handler is never asked about an
    event without ["Details"], which on its own it would answer with
    "Missing contact data: 'Details'".  A ["requestContext"] that is no
    container (a number, [None]) makes the router raise [TypeError]. *)
Theorem router_sends_each_event_to_one_handler {FL : PyFloat} {HM : Hmac} {TP : Templates}
  (w : World) (event : LambdaEvent) (h : history) :
  (forall context,
     requestContext event = Some context -> py_contains "http" context = Ok true ->
     lambda_handler w event h = handle_url_generation w (url_fields event) h)
  /\ (requestContext event = None
      \/ (exists context, requestContext event = Some context
                          /\ py_contains "http" context = Ok false) ->
      (has_contact_data (connect_fields event) = true ->
       lambda_handler w event h = handle_voicemail_processing w (connect_fields event) h)
      /\ (has_contact_data (connect_fields event) = false ->
          lambda_handler w event h = (Ok resp_unknown_event, h)))
  /\ (forall context,
        requestContext event = Some context ->
        match context with PDict _ | PList _ | PStr _ => False | _ => True end ->
        lambda_handler w event h = (Raise TypeError, h))
  /\ (Details (connect_fields event) = None ->
      (exists configuration, validate_environment w = Ok configuration) ->
      handle_voicemail_processing w (connect_fields event) h
      = (Ok (Outcome 400 "Missing contact data: 'Details'" None), h)).
Proof.
  unfold lambda_handler, bind, lift. split; [|split; [|split]].
  - intros context -> ->.
    now destruct (handle_url_generation w (url_fields event) h) as [[r|e] h'].
  - intros Hc.
    assert (E : match requestContext event with
                | Some context => py_contains "http" context
                | None => Ok false
                end = Ok false)
      by (destruct Hc as [-> | (context & -> & ->)]; reflexivity).
    rewrite E. split; intros ->; [|reflexivity].
    now destruct (handle_voicemail_processing w (connect_fields event) h) as [[r|e] h'].
  - intros context -> Hc. destruct context; try contradiction; reflexivity.
  - intros Hd [configuration Hv].
    apply (rejected_for_missing_key w (connect_fields event) h "'Details'").
    unfold read_request. rewrite Hv. cbn [rbind].
    destruct configuration as [[[base_path url_expiration] email_sender] recording_wait_time].
    unfold require. now rewrite Hd.
Qed.

(* ================================================================== *)
(** * Part XXV. The encoded key, the request and the preview          *)
(* ================================================================== *)

Lemma hex_upper_unreserved (n : nat) : (n < 16)%nat -> Url.unreserved (Url.hex_upper n) = true.
Proof.
  intros H. do 16 (destruct n as [|n]; [reflexivity|]). lia.
Qed.

Lemma quote_path_safe (s : string) : Str.all_chars path_safe (Url.quote s) = true.
Proof.
  unfold Url.quote. generalize (Str.encode s). clear s. intros s.
  induction s as [|c s IH]; [reflexivity|]. cbn [Url.quote_bytes].
  destruct (Url.unreserved c) eqn:E; cbn [Str.all_chars].
  - unfold path_safe at 1. now rewrite E, IH.
  - rewrite IH. unfold path_safe.
    rewrite !hex_upper_unreserved; [reflexivity| |].
    + apply Nat.mod_upper_bound. discriminate.
    + apply Nat.Div0.div_lt_upper_bound. pose proof (nat_ascii_bounded c). lia.
Qed.

Lemma all_chars_contains (p : ascii -> bool) (c : ascii) (s : string) :
  Str.all_chars p s = true -> p c = false -> Str.contains c s = false.
Proof.
  intros Hs Hc. induction s as [|d s IH]; [reflexivity|]. cbn in *.
  apply andb_prop in Hs as [Hd Hs]. rewrite (IH Hs), orb_false_r.
  unfold Str.is_char. destruct (Ascii.eqb_spec c d) as [->|]; [congruence | reflexivity].
Qed.

(** X28. The encoded key is one segment of the path.  [quote(key,
    safe='')] leaves only letters, digits, [_.-~] and [%] escapes: the
    encoded key has no [/], [?], [#], [&], [=] or space, whatever the key
    holds, so the path of the link splits at its first [/] into the bucket
    (when that has no [/]) and the encoded key, and [unquote] gives the key
    back. *)
Theorem encoded_key_is_one_path_segment (bucket key : string) :
  Str.all_chars path_safe (Url.quote key) = true
  /\ Forall (fun c => Str.contains c (Url.quote key) = false)
       ["/"; "?"; "#"; "&"; "="; " "]%char
  /\ Url.unquote (Url.quote key) = key
  /\ (Str.contains "/" bucket = false ->
      Str.split1 "/" (bucket ++ "/" ++ Url.quote key) = (bucket, Some (Url.quote key))).
Proof.
  split; [apply quote_path_safe|]. split; [|split].
  - repeat constructor; apply (all_chars_contains path_safe); try apply quote_path_safe;
      reflexivity.
  - apply unquote_quote.
  - intros Hb. now apply split1_app.
Qed.

(** ** The fields of a request *)

(** X29. What the first block reads from an event it accepts.  The caller
    number is the address of the customer endpoint, or "Unknown" when the
    endpoint or its address is missing; the recipient is the attribute
    [emailRecipient], not empty; the recipient name is the attribute
    [RecipientName] when it is there (empty or not) and the recipient
    address otherwise, so it is never missing; contact id and instance ARN
    are those of the contact data. *)
Theorem accepted_request_fields {FL : PyFloat}
  (w : World) (event : ConnectEvent) (v : Validated) :
  read_request w event = Ok (inr v) ->
  exists details contact_data,
    Details event = Some details /\ ContactData details = Some contact_data
    /\ InitialContactId contact_data = Some (v_initial_contact_id v)
    /\ InstanceARN contact_data = Some (v_instance_arn v)
    /\ ContactId contact_data <> None
    /\ query_get "emailRecipient" (attributes_of event) = Some (v_email_recipient v)
    /\ v_email_recipient v <> ""
    /\ v_recipient_name v
       = Some match query_get "RecipientName" (attributes_of event) with
              | Some name => name
              | None => v_email_recipient v
              end
    /\ v_caller_number v
       = match CustomerEndpoint contact_data with
         | Some {| Address := Some address |} => address
         | _ => "Unknown"
         end.
Proof.
  unfold read_request, attributes_of.
  destruct (validate_environment w) as [[[[base_path url_expiration] email_sender]
                                          recording_wait_time]|e]; cbn [rbind]; [|discriminate].
  unfold require.
  destruct (Details event) as [details|] eqn:Hd; cbn [rbind]; [|discriminate].
  destruct (ContactData details) as [contact_data|] eqn:Hcd; cbn [rbind]; [|discriminate].
  destruct (InitialContactId contact_data) as [i|] eqn:Hi; cbn [rbind]; [|discriminate].
  destruct (ContactId contact_data) as [c|] eqn:Hc; cbn [rbind]; [|discriminate].
  destruct (InstanceARN contact_data) as [a|] eqn:Ha; cbn [rbind]; [|discriminate].
  destruct (query_get "emailRecipient" _) as [[|x r]|] eqn:Hr; try discriminate.
  intros [= <-]. exists details, contact_data.
  cbn [v_initial_contact_id v_instance_arn v_email_recipient v_recipient_name v_caller_number].
  rewrite ?Hcd.
  split; [reflexivity|]. split; [reflexivity|]. split; [exact Hi|]. split; [exact Ha|].
  split; [rewrite Hc; discriminate|]. split; [reflexivity|]. split; [discriminate|]. split.
  - match goal with
    | |- context [query_get "RecipientName" ?a] => now destruct (query_get "RecipientName" a)
    end.
  - destruct (CustomerEndpoint contact_data) as [[[address|]]|]; reflexivity.
Qed.

Lemma accepted_request_fields_witness :
  exists v,
    read_request demo_world (demo_event [("emailRecipient", "user@example.com")]) = Ok (inr v)
    /\ v_recipient_name v = Some "user@example.com"
    /\ v_caller_number v = "+18607866359".
Proof.
  eexists. split; [reflexivity|].
  destruct (@accepted_request_fields decimal_floats demo_world
              (demo_event [("emailRecipient", "user@example.com")]) _ eq_refl)
    as (details & contact_data & Hd & Hc & _ & _ & _ & _ & _ & Hn & Hcaller).
  injection Hd as <-. injection Hc as <-. split; [exact Hn | exact Hcaller].
Defined.

(** ** An item that cannot be read *)

Lemma for_each_raises {A B} (step : A -> B -> result A) (good rest : list B) (bad : B)
  (acc acc' : A) (e : exn) :
  for_each step acc good = Ok acc' -> step acc' bad = Raise e ->
  for_each step acc (good ++ bad :: rest) = Raise e.
Proof.
  revert acc. induction good as [|x good IH]; intros acc; cbn [for_each app].
  - intros [= ->] ->. reflexivity.
  - destruct (step acc x) as [a|x']; cbn [rbind]; [apply IH | discriminate].
Qed.

(** X30. One item that cannot be read loses the whole preview.  The
    content of an item is read from the first of its ["alternatives"]
    before its type is looked at: an item without ["alternatives"] raises
    [KeyError], one with an empty list [IndexError], whatever its type is
    and whatever the items and channels before it hold; the exception
    leaves [_build_preview_channel] and [build_transcription_preview]. *)
Theorem unreadable_item_fails_the_preview {FL : PyFloat} {TP : Templates}
  (d labels channel item : list (string * pyval))
  (before after good rest : list pyval)
  (streams : list (list token)) (ts : list token) (e : exn) (limit : Z) :
  dict_lookup "channel_labels" d = Some (PDict labels) ->
  dict_lookup "channels" labels = Some (PList (before ++ PDict channel :: after)) ->
  Forall2 channel_is before streams ->
  dict_lookup "items" channel = Some (PList (good ++ PDict item :: rest)) ->
  Forall2 item_is good ts ->
  (dict_lookup "alternatives" item = None /\ e = KeyError "'alternatives'")
  \/ (dict_lookup "alternatives" item = Some (PList []) /\ e = IndexError) ->
  _build_preview_channel (PDict d) limit = Raise e
  /\ build_transcription_preview (PDict d) DEFAULT_MODE limit = Raise e.
Proof.
  intros Hl Hc Hb Hi Hg He.
  assert (Hitem : forall words, channel_item words (PDict item) = Raise e).
  { intros words. unfold channel_item. cbn [py_get py_getitem].
    destruct (dict_lookup "type" item); cbn [rbind];
      destruct He as [[-> ->] | [-> ->]]; reflexivity. }
  assert (Hchannel : forall all_words, channel_text all_words (PDict channel) = Raise e).
  { intros all_words. unfold channel_text. cbn [py_get]. rewrite Hi. cbn [rbind py_iter].
    rewrite (for_each_raises channel_item good rest (PDict item) []
               (map PStr (PreviewSpec.words ts)) e);
      [reflexivity | now apply channel_words | apply Hitem]. }
  assert (E : _build_preview_channel (PDict d) limit = Raise e).
  { unfold _build_preview_channel. cbn [py_get]. rewrite Hl. cbn [rbind py_get].
    rewrite Hc. cbn [rbind py_iter].
    rewrite (for_each_raises channel_text before after (PDict channel) [] _ e
               (channels_loop _ _ Hb []) (Hchannel _)).
    reflexivity. }
  split; [exact E|].
  unfold build_transcription_preview, DEFAULT_MODE.
  change ("channel" =? "channel")%string with true. cbn [py_get andb]. rewrite Hl.
  cbn [rbind]. replace (truthy (PDict labels)) with true; [exact E|].
  destruct labels; [discriminate | reflexivity].
Qed.

(** The transcript of one channel whose second item has no alternatives. *)
Lemma unreadable_item_fails_the_preview_witness :
  let items := [item_of_token {| kind := WORD; content := "hello" |};
                PDict [("type", PStr "silence")]] in
  let channel := [("items", PList items)] in
  let labels := [("channels", PList [PDict channel])] in
  build_transcription_preview (PDict [("channel_labels", PDict labels)]) DEFAULT_MODE 700
  = Raise (KeyError "'alternatives'").
Proof.
  intros items channel labels.
  refine (proj2
    (@unreadable_item_fails_the_preview decimal_floats plain_templates
       [("channel_labels", PDict labels)] labels channel [("type", PStr "silence")] [] []
       [item_of_token {| kind := WORD; content := "hello" |}] []
       [] [{| kind := WORD; content := "hello" |}] (KeyError "'alternatives'") 700
       eq_refl eq_refl _ eq_refl _ _)).
  - constructor.
  - repeat constructor. eexists. eexists. eexists. repeat split; reflexivity.
  - left. split; reflexivity.
Defined.
